(** * Release orchestration script (script/release/release.py)

    A shallow embedding of the release workflow: the four actions
    [start], [resume], [cancel], [finalize], the CI gate
    [monitor_pr_status] and the steps they share.  The script is a
    sequence of calls to external collaborators (git repository, code
    hosting, artifact hosting, docker, the operator's terminal); the
    embedding keeps that shape: every collaborator call goes through one
    interface, and a run yields the trace of calls with their answers, the
    outcome, and the collaborators' final state. *)

From stdpp Require Import strings gmap list pretty.
From Stdlib Require Import ZArith Ascii.

Open Scope string_scope.
Open Scope list_scope.
Open Scope stdpp_scope.

(** ** Values exchanged with the collaborators *)

(** A git branch object; the script reads [release_branch.name]. *)
Record Head := { head_name : string }.

(** A pull request object; the script reads [number] and [mergeable]
    ([mergeable] is [None] while the host has not computed it). *)
Record PullRequest := { pr_number : nat; pr_mergeable : option bool }.

(** A commit of a pull request. *)
Record Commit := { sha : string }.

(** One status check of a commit ([detail] in the source). *)
Record CheckStatus := { st_context : string; st_state : string }.

(** The combined status of a commit ([status] in the source). *)
Record CombinedStatus := {
  cs_state : string;
  cs_statuses : list CheckStatus;
  cs_total_count : nat
}.

(** A hosted release: what [create_release] is given, and the [draft]
    attribute [resume] reads. *)
Record GhRelease := {
  rel_version : string;
  rel_body : string;
  rel_draft : bool;
  rel_prerelease : bool;
  rel_target : string
}.

(** [files]: artifact key to local paths (binary, checksum). *)
Abbreviation Files := (gmap string (list string)).

(** One decoded event of a docker build log stream (a dict). *)
Abbreviation Chunk := (gmap string string).

(** Parsed command line ([args]). *)
Record Args := {
  action : string;
  release : string;
  base : option string;
  repo : option string;
  bintray_user : string;
  destination : string
}.

(** ** Exceptions and outcomes *)

Inductive exn :=
| ScriptError (msg : string)
| NotImplementedError
| KeyError (key : string)
| IndexError
| OtherError (name : string).

Definition is_ScriptError (e : exn) : bool :=
  match e with ScriptError _ => true | _ => false end.

(** What running a piece of the script gives: a value, an exception, or
    no answer within the given number of loop iterations. *)
Inductive outcome (A : Type) :=
| Ret (a : A)
| Raise (e : exn)
| Diverge.
Arguments Ret {A} a.
Arguments Raise {A} e.
Arguments Diverge {A}.

(** ** Python string helpers *)

(** [str.lower] on ASCII letters; the script only compares the result
    with ['y'], which no other character lowers to. *)
Definition lower_ascii (c : ascii) : ascii :=
  let n := nat_of_ascii c in
  if (65 <=? n)%nat && (n <=? 90)%nat then ascii_of_nat (n + 32) else c.

Fixpoint lower (s : string) : string :=
  match s with
  | EmptyString => EmptyString
  | String c s' => String (lower_ascii c) (lower s')
  end.

(** [needle in s] for strings: [needle] occurs somewhere in [s]. *)
Fixpoint str_in (needle s : string) : bool :=
  String.prefix needle s ||
  match s with
  | EmptyString => false
  | String _ s' => str_in needle s'
  end.

(** [os.path.join a b] for two components. *)
Definition path_join (a b : string) : string :=
  if String.prefix "/" b then b
  else match a with
       | EmptyString => b
       | _ => if String.eqb (String.substring (String.length a - 1) 1 a) "/"
              then a +:+ b else a +:+ "/" +:+ b
       end.

(** Truthiness of a string and of an optional boolean attribute. *)
Definition truthy_str (s : string) : bool := negb (String.eqb s "").
Definition truthy_obool (b : option bool) : bool :=
  match b with Some true => true | _ => false end.

(** ** The collaborator interface

    Every call the script makes outside itself, with its arguments.  The
    objects the script only passes on ([repository], [bintray_api],
    [downloader], [docker_client]) are single instances, so their methods
    carry no receiver. *)
Inductive call :=
(* release.repository.Repository *)
| Repository (root name : string)
| Repo_create_release_branch (version : string) (base_version : option string)
| Repo_branch_exists (name : string)
| Repo_checkout_branch (name : string)
| Repo_diff
| Repo_create_bump_commit (br : Head) (version : string)
| Repo_push_branch_to_remote (br : Head)
| Repo_find_release_pr (version : string)
| Repo_create_release_pull_request (version : string)
| Repo_find_release (version : string)
| Repo_create_release (version notes : string) (draft prerelease : bool)
                      (target_commitish : string)
| Repo_close_release_pr (version : string)
| Repo_remove_release (version : string)
| Repo_remove_bump_branch (version : string)
| Repo_write_git_sha
(* release.repository, module level *)
| delete_assets (gh_release : GhRelease)
| upload_assets (gh_release : GhRelease) (files : Files)
| get_contributors (pr_data : PullRequest)
(* release.utils *)
| update_run_sh_version (version : string)
| update_init_py_version (version : string)
| compatibility_matrix
| read_release_notes_from_changelog
(* git and github objects *)
| Head_config_get (br : Head) (key : string)
| PR_get_commits (pr_data : PullRequest)
| Commit_get_combined_status (c : Commit)
(* release.bintray.BintrayAPI *)
| BintrayAPI (token user : string)
| Bintray_create_repository (org name kind : string)
(* release.downloader.BinaryDownloader *)
| BinaryDownloader (dest : string)
| Downloader_download_all (version : string)
(* builtins, os, shutil, argparse *)
| input (prompt : string)
| os_environ_get (key : string)
| os_environ_has (key : string)
| open_read (path : string)
| os_makedirs (path : string) (exist_ok : bool)
| shutil_copy (src dst : string)
| parse_args
(* jinja2 *)
| Template (source : string)
| Template_render (template version compat_matrix : string) (integrity : Files)
                  (contributors : list string) (changelog : string)
(* docker.APIClient *)
| docker_APIClient
| Docker_build (path tag : string) (dockerfile : option string)
| Docker_create_container (image entrypoint : string)
| Docker_commit (container repository : string)
| Docker_tag (image new_tag : string)
| Docker_remove_container (container : string) (force : bool)
| Docker_remove_image (image : string) (force : bool).

(** The type of what each call returns. *)
Definition answer (c : call) : Type :=
  match c with
  | Repo_create_release_branch _ _ | Repo_checkout_branch _ => Head
  | Repo_branch_exists _ | os_environ_has _ => bool
  | Repo_diff | compatibility_matrix | read_release_notes_from_changelog
  | Head_config_get _ _ | input _ | os_environ_get _ | open_read _
  | Template _ | Template_render _ _ _ _ _ _
  | Docker_create_container _ _ => string
  | Repo_find_release_pr _ => option PullRequest
  | Repo_create_release_pull_request _ => PullRequest
  | Repo_find_release _ => option GhRelease
  | Repo_create_release _ _ _ _ _ => GhRelease
  | get_contributors _ => list string
  | PR_get_commits _ => list Commit
  | Commit_get_combined_status _ => CombinedStatus
  | Downloader_download_all _ => Files
  | parse_args => Args
  | Docker_build _ _ _ => list Chunk
  | _ => unit
  end.

(** A collaborator world [W] answers every call, possibly by raising, and
    moves to a new state. *)
Class Collaborators (W : Type) :=
  handle : forall c : call, W -> outcome (answer c) * W.

(** What a run leaves behind, in order. *)
Inductive event :=
| EvCall (c : call) (r : outcome (answer c))
| EvPrint (text : string)
| EvPrintNoEnd (text : string)
| EvPrintErr (text : string)
| EvSleep (seconds : nat).

(** ** The script monad: state of the collaborators, exceptions, trace *)

Definition M (W A : Type) : Type := W -> list event * outcome A * W.

Definition trace_of {W A} (x : list event * outcome A * W) : list event := x.1.1.
Definition result_of {W A} (x : list event * outcome A * W) : outcome A := x.1.2.
Definition world_of {W A} (x : list event * outcome A * W) : W := x.2.

Definition ret {W A} (a : A) : M W A := fun w => ([], Ret a, w).

Definition raise {W A} (e : exn) : M W A := fun w => ([], Raise e, w).

Definition diverge {W A} : M W A := fun w => ([], Diverge, w).

Definition bind {W A B} (m : M W A) (f : A -> M W B) : M W B :=
  fun w =>
    match m w with
    | (t, Ret a, w1) => let '(t2, r, w2) := f a w1 in (t ++ t2, r, w2)
    | (t, Raise e, w1) => (t, Raise e, w1)
    | (t, Diverge, w1) => (t, Diverge, w1)
    end.

Notation "x <- m ;; k" := (bind m (fun x => k))
  (at level 100, m at next level, right associativity).
Notation "m ;; k" := (bind m (fun _ => k))
  (at level 100, right associativity).

(** A collaborator call: ask the world, log the call with its answer. *)
Definition perform {W} `{Collaborators W} (c : call) : M W (answer c) :=
  fun w => let '(r, w1) := handle c w in ([EvCall c r], r, w1).

Definition emit {W} (e : event) : M W unit := fun w => ([e], Ret tt, w).

Definition print {W} (s : string) : M W unit := emit (EvPrint s).
Definition print_noend {W} (s : string) : M W unit := emit (EvPrintNoEnd s).
Definition print_err {W} (s : string) : M W unit := emit (EvPrintErr s).
Definition sleep {W} (n : nat) : M W unit := emit (EvSleep n).

(** [try: body  except ScriptError as e: handler e]. Any other exception,
    and divergence, pass through. *)
Definition try_except_ScriptError {W A} (body : M W A) (handler : string -> M W A)
  : M W A :=
  fun w =>
    match body w with
    | (t, Raise (ScriptError msg), w1) =>
        let '(t2, r, w2) := handler msg w1 in (t ++ t2, r, w2)
    | x => x
    end.

(** [d[k]] on a dict: [KeyError] when the key is absent. *)
Definition getitem {W V} (d : gmap string V) (k : string) : M W V :=
  match d !! k with
  | Some v => ret v
  | None => raise (KeyError k)
  end.

(** [l[0]] on a list: [IndexError] when it is empty. *)
Definition first_item {W A} (l : list A) : M W A :=
  match l with
  | x :: _ => ret x
  | [] => raise IndexError
  end.

Definition nl : string := String (ascii_of_nat 10) EmptyString.

(** ** The script *)

Section Script.
Context {W : Type} `{Collaborators W}.

(** Constants and the pure helper of modules that are imported by the
    script: [release.const] and [release.utils.branch_name];
    [script_dir] is [os.path.dirname(__file__)], [argv0] is
    [sys.argv[0]]. *)
Variables BINTRAY_ORG NAME REPO_ROOT script_dir argv0 : string.
Variable branch_name : string -> string.

(** The loop of [create_bump_commit]:
    [while proceed.lower() != 'y': print(repository.diff()); proceed = input(...)]. *)
Fixpoint confirm_changes (fuel : nat) (proceed : string) : M W unit :=
  if String.eqb (lower proceed) "y" then ret tt
  else match fuel with
       | O => diverge
       | S fuel' =>
           d <- perform Repo_diff ;;
           print d ;;
           proceed' <- perform (input "Are these changes ok? y/N ") ;;
           confirm_changes fuel' proceed'
       end.

Definition create_bump_commit (fuel : nat) (release_branch : Head)
    (bintray_user : string) : M W unit :=
  release <- perform (Head_config_get release_branch "release") ;;
  print "Updating version info in __init__.py and run.sh" ;;
  perform (update_run_sh_version release) ;;
  perform (update_init_py_version release) ;;
  perform (input "Please add the release notes to the CHANGELOG.md file, then press Enter to continue.") ;;
  confirm_changes fuel "" ;;
  d <- perform Repo_diff ;;
  (if truthy_str d
   then perform (Repo_create_bump_commit release_branch release)
   else ret tt) ;;
  perform (Repo_push_branch_to_remote release_branch) ;;
  token <- perform (os_environ_get "BINTRAY_TOKEN") ;;
  perform (BintrayAPI token bintray_user) ;;
  print ("Creating data repository " +:+ head_name release_branch +:+ " on bintray") ;;
  perform (Bintray_create_repository BINTRAY_ORG (head_name release_branch) "generic").

Definition create_initial_branch (fuel : nat) (release : string)
    (base : option string) (bintray_user : string) : M W unit :=
  release_branch <- perform (Repo_create_release_branch release base) ;;
  create_bump_commit fuel release_branch bintray_user.

(** *** CI gate *)

Definition summary0 : gmap string nat :=
  <["pending" := 0]> (<["success" := 0]> (<["failure" := 0]> ∅)).

(** [for detail in status.statuses: summary[detail.state] += 1] *)
Fixpoint tally (statuses : list CheckStatus) (summary : gmap string nat)
  : M W (gmap string nat) :=
  match statuses with
  | [] => ret summary
  | detail :: rest =>
      n <- getitem summary (st_state detail) ;;
      tally rest (<[st_state detail := n + 1]> summary)
  end.

(** The tally line: ['{pending} pending, {success} successes, {failure} failures']
    formatted with the entries of [summary]. *)
Definition format_summary (summary : gmap string nat) : M W string :=
  p <- getitem summary "pending" ;;
  s <- getitem summary "success" ;;
  f <- getitem summary "failure" ;;
  ret (pretty p +:+ " pending, " +:+ pretty s +:+ " successes, "
       +:+ pretty f +:+ " failures").

(** One turn of the [while True] loop of [monitor_pr_status]:
    [Some b] is [return b], [None] is the end of the loop body (after
    the sleep). *)
Definition monitor_poll (last_commit : Commit) : M W (option bool) :=
  status <- perform (Commit_get_combined_status last_commit) ;;
  if String.eqb (cs_state status) "pending" then
    summary <- tally (cs_statuses status) summary0 ;;
    line <- format_summary summary ;;
    print line ;;
    if Nat.eqb (cs_total_count status) 0 then ret (Some true)
    else (sleep 30 ;; ret None)
  else if String.eqb (cs_state status) "success" then
    print (pretty (cs_total_count status) +:+ " successes: all clear!") ;;
    ret (Some true)
  else raise (ScriptError "CI failure detected").

Fixpoint monitor_loop (fuel : nat) (last_commit : Commit) : M W bool :=
  match fuel with
  | O => diverge
  | S fuel' =>
      r <- monitor_poll last_commit ;;
      match r with
      | Some b => ret b
      | None => monitor_loop fuel' last_commit
      end
  end.

Definition monitor_pr_status (fuel : nat) (pr_data : PullRequest) : M W bool :=
  print "Waiting for CI to complete..." ;;
  commits <- perform (PR_get_commits pr_data) ;;
  last_commit <- first_item (rev commits) ;;
  monitor_loop fuel last_commit.

Definition check_pr_mergeable (pr_data : PullRequest) : M W (option bool) :=
  (if negb (truthy_obool (pr_mergeable pr_data))
   then print ("WARNING!! PR #" +:+ pretty (pr_number pr_data)
               +:+ " can not currently be merged. You will need to "
               +:+ "resolve the conflicts manually before finalizing the release.")
   else ret tt) ;;
  ret (pr_mergeable pr_data).

(** *** Release draft *)

Definition create_release_draft (version : string) (pr_data : PullRequest)
    (files : Files) : M W GhRelease :=
  print "Creating Github release draft" ;;
  source <- perform (open_read (path_join script_dir "release.md.tmpl")) ;;
  template <- perform (Template source) ;;
  print "Rendering release notes based on template" ;;
  compat_matrix <- perform compatibility_matrix ;;
  contributors <- perform (get_contributors pr_data) ;;
  changelog <- perform read_release_notes_from_changelog ;;
  release_notes <- perform (Template_render template version compat_matrix
                                            files contributors changelog) ;;
  gh_release <- perform (Repo_create_release version release_notes true
                                             (str_in "-rc" version) "release") ;;
  print "Release draft initialized" ;;
  ret gh_release.

(** *** Images *)

(** [for chunk in logstream: ...] over the decoded build events; the
    stream is taken as the list of events it yields. *)
Fixpoint build_log (logstream : list Chunk) : M W unit :=
  match logstream with
  | [] => ret tt
  | chunk :: rest =>
      match chunk !! "error" with
      | Some err => raise (ScriptError ("Build error: " +:+ err))
      | None =>
          (match chunk !! "stream" with
           | Some s => print_noend s
           | None => ret tt
           end) ;;
          build_log rest
      end
  end.

Definition build_images (files : Files) (version : string) : M W unit :=
  print "Building release images..." ;;
  perform Repo_write_git_sha ;;
  perform docker_APIClient ;;
  let distdir := path_join REPO_ROOT "dist" in
  perform (os_makedirs distdir true) ;;
  paths <- getitem files "docker-compose-Linux-x86_64" ;;
  binary <- first_item paths ;;
  perform (shutil_copy binary distdir) ;;
  print "Building docker/compose image" ;;
  logstream <- perform (Docker_build REPO_ROOT ("docker/compose:" +:+ version)
                                     (Some "Dockerfile.run")) ;;
  build_log logstream ;;
  print "Building test image (for UCP e2e)" ;;
  logstream <- perform (Docker_build REPO_ROOT "docker-compose-tests:tmp" None) ;;
  build_log logstream ;;
  container <- perform (Docker_create_container "docker-compose-tests:tmp" "tox") ;;
  perform (Docker_commit container "docker/compose-tests:latest") ;;
  perform (Docker_tag "docker/compose-tests:latest"
                      ("docker/compose-tests:" +:+ version)) ;;
  perform (Docker_remove_container container true) ;;
  perform (Docker_remove_image "docker-compose-tests:tmp" true).

Definition print_final_instructions (args : Args) : M W unit :=
  print ("You're almost done! Please verify that everything is in order and "
         +:+ "you are ready to make the release public, then run the following "
         +:+ "command:" +:+ nl +:+ argv0 +:+ " -b " +:+ bintray_user args
         +:+ " finalize " +:+ release args).

(** *** The four actions *)

(** [args.repo or NAME] *)
Definition repo_or_NAME (args : Args) : string :=
  match repo args with
  | Some r => if truthy_str r then r else NAME
  | None => NAME
  end.

(** The [except ScriptError as e: print(e); return 1] clause shared by
    the four actions; [Some code] is the [return] inside it. *)
Definition except_clause (msg : string) : M W (option Z) :=
  print msg ;; ret (Some 1%Z).

(** The [try] suite of [resume]. *)
Definition resume_try (fuel : nat) (args : Args) : M W unit :=
  perform (Repository REPO_ROOT (repo_or_NAME args)) ;;
  let br_name := branch_name (release args) in
  found_branch <- perform (Repo_branch_exists br_name) ;;
  (if negb found_branch
   then raise (ScriptError "No local branch exists for this release.")
   else ret tt) ;;
  release_branch <- perform (Repo_checkout_branch br_name) ;;
  create_bump_commit fuel release_branch (bintray_user args) ;;
  found_pr <- perform (Repo_find_release_pr (release args)) ;;
  pr_data <- match found_pr with
             | Some pr => ret pr
             | None => perform (Repo_create_release_pull_request (release args))
             end ;;
  check_pr_mergeable pr_data ;;
  monitor_pr_status fuel pr_data ;;
  perform (BinaryDownloader (destination args)) ;;
  files <- perform (Downloader_download_all (release args)) ;;
  found_release <- perform (Repo_find_release (release args)) ;;
  gh_release <-
    match found_release with
    | None => create_release_draft (release args) pr_data files
    | Some r =>
        if negb (rel_draft r) then
          print "WARNING!! Found non-draft (public) release for this version!" ;;
          proceed <- perform (input ("Are you sure you wish to proceed? Modifying an already "
                                     +:+ "released version is dangerous! y/N")) ;;
          if negb (String.eqb (lower proceed) "y")
          then raise (ScriptError "Aborting release")
          else ret r
        else ret r
    end ;;
  perform (delete_assets gh_release) ;;
  perform (upload_assets gh_release files) ;;
  build_images files (release args).

Definition resume (fuel : nat) (args : Args) : M W Z :=
  returned <- try_except_ScriptError (resume_try fuel args ;; ret None) except_clause ;;
  match returned with
  | Some code => ret code
  | None => print_final_instructions args ;; ret 0%Z
  end.

(** The [try] suite of [cancel]; the artifact-hosting deletion is
    commented out in the source. *)
Definition cancel_try (args : Args) : M W unit :=
  perform (Repository REPO_ROOT (repo_or_NAME args)) ;;
  perform (Repo_close_release_pr (release args)) ;;
  perform (Repo_remove_release (release args)) ;;
  perform (Repo_remove_bump_branch (release args)).

Definition cancel (args : Args) : M W Z :=
  returned <- try_except_ScriptError (cancel_try args ;; ret None) except_clause ;;
  match returned with
  | Some code => ret code
  | None => print "Release cancellation complete." ;; ret 0%Z
  end.

(** The [try] suite of [start]. *)
Definition start_try (fuel : nat) (args : Args) : M W unit :=
  perform (Repository REPO_ROOT (repo_or_NAME args)) ;;
  create_initial_branch fuel (release args) (base args) (bintray_user args) ;;
  pr_data <- perform (Repo_create_release_pull_request (release args)) ;;
  check_pr_mergeable pr_data ;;
  monitor_pr_status fuel pr_data ;;
  perform (BinaryDownloader (destination args)) ;;
  files <- perform (Downloader_download_all (release args)) ;;
  gh_release <- create_release_draft (release args) pr_data files ;;
  perform (upload_assets gh_release files) ;;
  build_images files (release args).

Definition start (fuel : nat) (args : Args) : M W Z :=
  returned <- try_except_ScriptError (start_try fuel args ;; ret None) except_clause ;;
  match returned with
  | Some code => ret code
  | None => print_final_instructions args ;; ret 0%Z
  end.

(** The [try] suite of [finalize]: [raise NotImplementedError()]. *)
Definition finalize_try (args : Args) : M W unit :=
  raise NotImplementedError.

Definition finalize (args : Args) : M W Z :=
  returned <- try_except_ScriptError (finalize_try args ;; ret None) except_clause ;;
  match returned with
  | Some code => ret code
  | None => ret 0%Z
  end.

Definition ACTIONS : list string := ["start"; "cancel"; "resume"; "finalize"].

(** [main]; the command line is parsed by the [argparse] collaborator. *)
Definition main (fuel : nat) : M W Z :=
  has_github <- perform (os_environ_has "GITHUB_TOKEN") ;;
  if negb has_github then
    print "GITHUB_TOKEN environment variable must be set" ;; ret 1%Z
  else
    has_bintray <- perform (os_environ_has "BINTRAY_TOKEN") ;;
    if negb has_bintray then
      print "BINTRAY_TOKEN environment variable must be set" ;; ret 1%Z
    else
      args <- perform parse_args ;;
      if String.eqb (action args) "start" then start fuel args
      else if String.eqb (action args) "resume" then resume fuel args
      else if String.eqb (action args) "cancel" then cancel args
      else if String.eqb (action args) "finalize" then finalize args
      else (print_err ("Unexpected action " +:+ String (ascii_of_nat 34) ""
                       +:+ action args +:+ String (ascii_of_nat 34) "") ;;
            ret 1%Z).

End Script.

(** ** CI status aggregate *)

(** Some check of the list is in the given state. *)
Definition has_state (state : string) (checks : list CheckStatus) : bool :=
  existsb (fun d => String.eqb (st_state d) state) checks.

(** Modelled from the spec: the aggregate state of a CIStatus, which the
    code hosting collaborator computes and the script only reads
    ([status.state]).  "The aggregate state is pending while any incomplete
    check exists, failure if any check fails, else success." *)
Definition aggregate_state (checks : list CheckStatus) : string :=
  if has_state "pending" checks then "pending"
  else if has_state "failure" checks then "failure"
  else "success".

(** Modelled from the spec: the combined status the host reports for a
    list of checks, each with "a state in {pending, success, failure}". *)
Definition combined_of (checks : list CheckStatus) : CombinedStatus :=
  {| cs_state := aggregate_state checks;
     cs_statuses := checks;
     cs_total_count := length checks |}.

Definition check_state_ok (d : CheckStatus) : Prop :=
  st_state d = "pending" \/ st_state d = "success" \/ st_state d = "failure".

(** A combined status that is the spec's aggregate of its own checks. *)
Definition follows_aggregate (st : CombinedStatus) : Prop :=
  st = combined_of (cs_statuses st) /\ Forall check_state_ok (cs_statuses st).

(** A combined status for a commit without checks: nothing failed. *)
Definition zero_checks (st : CombinedStatus) : Prop :=
  cs_statuses st = [] /\ cs_total_count st = 0 /\
  (cs_state st = "pending" \/ cs_state st = "success").

(** Modelled from the spec: the aggregate state as the CI Gate's
    properties take it, "raises an error as soon as any check reports
    failure, without waiting for remaining pending checks": failure as
    soon as one check has failed, else pending while a check is
    incomplete, else success. *)
Definition aggregate_failure_first (checks : list CheckStatus) : string :=
  if has_state "failure" checks then "failure"
  else if has_state "pending" checks then "pending"
  else "success".

(** Modelled from the spec: the combined status of a host that reports
    failure first. *)
Definition combined_failure_first (checks : list CheckStatus) : CombinedStatus :=
  {| cs_state := aggregate_failure_first checks;
     cs_statuses := checks;
     cs_total_count := length checks |}.


(** ** A simulated set of collaborators *)

Module Sim.

(** Modelled from the spec: [release.utils.branch_name], "a named branch
    derived deterministically from the release version (bump-<version>)". *)
Definition branch_name (version : string) : string := "bump-" +:+ version.

(** Modelled from the spec: the version control collaborator's state:
    local branches, the release version each branch stores in its config
    region, the two version files of the working tree and of the last
    commit, and the bump commits made. *)
Record Repo := {
  branches : list string;
  config : gmap string string;
  tree : string * string;
  committed : string * string;
  commits : list (string * string)
}.

(** Modelled from the spec: the code hosting collaborator's state: pull
    requests (version, object, open?) and release records. *)
Record Host := {
  prs : list (string * PullRequest * bool);
  releases : list GhRelease
}.

(** Modelled from the spec: everything outside the script. *)
Record World := {
  w_repo : Repo;
  w_host : Host;
  w_assets : gmap string Files;        (* hosted assets per release version *)
  w_remote : list string;              (* branches pushed to the host *)
  w_bintray : list string;             (* artifact-hosting repositories *)
  w_env : gmap string string;          (* os.environ *)
  w_argv : option Args;                (* the command line, when it parses *)
  w_stdin : list string;               (* what the operator will type *)
  w_mergeable : option bool;           (* mergeability of a new pull request *)
  w_pr_commits : list Commit;
  w_ci : list (list CheckStatus);      (* the checks at successive polls *)
  w_storage : gmap string Files;       (* artifacts available per version *)
  w_build_logs : gmap string (list Chunk);
  w_images : list string
}.

Definition with_repo (r : Repo) (w : World) : World :=
  {| w_repo := r; w_host := w_host w; w_assets := w_assets w;
     w_remote := w_remote w; w_bintray := w_bintray w; w_env := w_env w;
     w_argv := w_argv w; w_stdin := w_stdin w; w_mergeable := w_mergeable w;
     w_pr_commits := w_pr_commits w; w_ci := w_ci w; w_storage := w_storage w;
     w_build_logs := w_build_logs w; w_images := w_images w |}.

Definition with_host (h : Host) (w : World) : World :=
  {| w_repo := w_repo w; w_host := h; w_assets := w_assets w;
     w_remote := w_remote w; w_bintray := w_bintray w; w_env := w_env w;
     w_argv := w_argv w; w_stdin := w_stdin w; w_mergeable := w_mergeable w;
     w_pr_commits := w_pr_commits w; w_ci := w_ci w; w_storage := w_storage w;
     w_build_logs := w_build_logs w; w_images := w_images w |}.

Definition with_assets (a : gmap string Files) (w : World) : World :=
  {| w_repo := w_repo w; w_host := w_host w; w_assets := a;
     w_remote := w_remote w; w_bintray := w_bintray w; w_env := w_env w;
     w_argv := w_argv w; w_stdin := w_stdin w; w_mergeable := w_mergeable w;
     w_pr_commits := w_pr_commits w; w_ci := w_ci w; w_storage := w_storage w;
     w_build_logs := w_build_logs w; w_images := w_images w |}.

Definition with_remote (r : list string) (w : World) : World :=
  {| w_repo := w_repo w; w_host := w_host w; w_assets := w_assets w;
     w_remote := r; w_bintray := w_bintray w; w_env := w_env w;
     w_argv := w_argv w; w_stdin := w_stdin w; w_mergeable := w_mergeable w;
     w_pr_commits := w_pr_commits w; w_ci := w_ci w; w_storage := w_storage w;
     w_build_logs := w_build_logs w; w_images := w_images w |}.

Definition with_bintray (b : list string) (w : World) : World :=
  {| w_repo := w_repo w; w_host := w_host w; w_assets := w_assets w;
     w_remote := w_remote w; w_bintray := b; w_env := w_env w;
     w_argv := w_argv w; w_stdin := w_stdin w; w_mergeable := w_mergeable w;
     w_pr_commits := w_pr_commits w; w_ci := w_ci w; w_storage := w_storage w;
     w_build_logs := w_build_logs w; w_images := w_images w |}.

Definition with_stdin (s : list string) (w : World) : World :=
  {| w_repo := w_repo w; w_host := w_host w; w_assets := w_assets w;
     w_remote := w_remote w; w_bintray := w_bintray w; w_env := w_env w;
     w_argv := w_argv w; w_stdin := s; w_mergeable := w_mergeable w;
     w_pr_commits := w_pr_commits w; w_ci := w_ci w; w_storage := w_storage w;
     w_build_logs := w_build_logs w; w_images := w_images w |}.

Definition with_ci (c : list (list CheckStatus)) (w : World) : World :=
  {| w_repo := w_repo w; w_host := w_host w; w_assets := w_assets w;
     w_remote := w_remote w; w_bintray := w_bintray w; w_env := w_env w;
     w_argv := w_argv w; w_stdin := w_stdin w; w_mergeable := w_mergeable w;
     w_pr_commits := w_pr_commits w; w_ci := c; w_storage := w_storage w;
     w_build_logs := w_build_logs w; w_images := w_images w |}.

Definition with_images (i : list string) (w : World) : World :=
  {| w_repo := w_repo w; w_host := w_host w; w_assets := w_assets w;
     w_remote := w_remote w; w_bintray := w_bintray w; w_env := w_env w;
     w_argv := w_argv w; w_stdin := w_stdin w; w_mergeable := w_mergeable w;
     w_pr_commits := w_pr_commits w; w_ci := w_ci w; w_storage := w_storage w;
     w_build_logs := w_build_logs w; w_images := i |}.

Definition has (name : string) (l : list string) : bool :=
  existsb (String.eqb name) l.

Definition add (name : string) (l : list string) : list string :=
  if has name l then l else l ++ [name].

Definition drop (name : string) (l : list string) : list string :=
  List.filter (fun n => negb (String.eqb n name)) l.

Definition set_tree (t : string * string) (r : Repo) : Repo :=
  {| branches := branches r; config := config r; tree := t;
     committed := committed r; commits := commits r |}.

(** Modelled from the spec: [diff() -> text], empty when the working
    tree holds what was last committed. *)
Definition diff_text (r : Repo) : string :=
  if decide (tree r = committed r) then ""
  else "run.sh: " +:+ (tree r).1 +:+ nl +:+ "__init__.py: " +:+ (tree r).2.

(** Modelled from the spec: [findPullRequest(version) -> PR?], the open
    pull request of a version. *)
Definition find_pr (version : string) (l : list (string * PullRequest * bool))
  : option PullRequest :=
  match List.find (fun x => String.eqb x.1.1 version && x.2) l with
  | Some x => Some x.1.2
  | None => None
  end.

(** Modelled from the spec: [closePullRequest(version)]. *)
Definition close_pr (version : string) (l : list (string * PullRequest * bool))
  : list (string * PullRequest * bool) :=
  map (fun x => if String.eqb x.1.1 version then (x.1, false) else x) l.

(** Modelled from the spec: [findRelease(version) -> ReleaseDraftRecord?]
    and [removeRelease(version)]. *)
Definition find_rel (version : string) (l : list GhRelease) : option GhRelease :=
  List.find (fun r => String.eqb (rel_version r) version) l.

Definition remove_rel (version : string) (l : list GhRelease) : list GhRelease :=
  List.filter (fun r => negb (String.eqb (rel_version r) version)) l.

(** Modelled from the spec: the collaborator contracts of section 6
    (version control, code hosting, artifact hosting, image build), the
    operator's terminal and the CI host.  A pull request and a release
    are looked up by version; uploading adds to the assets a release
    already has; the CI host reports [combined_of] the checks of the
    current poll. *)
Definition sim_handle (c : call) (w : World) : outcome (answer c) * World :=
  match c return outcome (answer c) * World with
  | Repository _ _ => (Ret tt, w)
  | Repo_create_release_branch v _ =>
      let r := w_repo w in
      if has (branch_name v) (branches r)
      then (Raise (ScriptError "Branch already exists"), w)
      else (Ret {| head_name := branch_name v |},
            with_repo {| branches := branches r ++ [branch_name v];
                         config := <[branch_name v := v]> (config r);
                         tree := tree r; committed := committed r;
                         commits := commits r |} w)
  | Repo_branch_exists n => (Ret (has n (branches (w_repo w))), w)
  | Repo_checkout_branch n =>
      if has n (branches (w_repo w)) then (Ret {| head_name := n |}, w)
      else (Raise (OtherError "GitCommandError"), w)
  | Repo_diff => (Ret (diff_text (w_repo w)), w)
  | Repo_create_bump_commit br v =>
      let r := w_repo w in
      (Ret tt, with_repo {| branches := branches r; config := config r;
                            tree := tree r; committed := tree r;
                            commits := commits r ++ [(head_name br, v)] |} w)
  | Repo_push_branch_to_remote br =>
      (Ret tt, with_remote (add (head_name br) (w_remote w)) w)
  | Repo_find_release_pr v => (Ret (find_pr v (prs (w_host w))), w)
  | Repo_create_release_pull_request v =>
      let h := w_host w in
      let pr := {| pr_number := S (length (prs h)); pr_mergeable := w_mergeable w |} in
      (Ret pr, with_host {| prs := prs h ++ [(v, pr, true)]; releases := releases h |} w)
  | Repo_find_release v => (Ret (find_rel v (releases (w_host w))), w)
  | Repo_create_release v notes d p t =>
      let h := w_host w in
      let r := {| rel_version := v; rel_body := notes; rel_draft := d;
                  rel_prerelease := p; rel_target := t |} in
      (Ret r, with_host {| prs := prs h; releases := releases h ++ [r] |} w)
  | Repo_close_release_pr v =>
      let h := w_host w in
      (Ret tt, with_host {| prs := close_pr v (prs h); releases := releases h |} w)
  | Repo_remove_release v =>
      let h := w_host w in
      (Ret tt, with_assets (delete v (w_assets w))
                 (with_host {| prs := prs h; releases := remove_rel v (releases h) |} w))
  | Repo_remove_bump_branch v =>
      let r := w_repo w in
      (Ret tt, with_remote (drop (branch_name v) (w_remote w))
                 (with_repo {| branches := drop (branch_name v) (branches r);
                               config := delete (branch_name v) (config r);
                               tree := tree r; committed := committed r;
                               commits := commits r |} w))
  | Repo_write_git_sha => (Ret tt, w)
  | delete_assets r => (Ret tt, with_assets (delete (rel_version r) (w_assets w)) w)
  | upload_assets r files =>
      let old := default ∅ (w_assets w !! rel_version r) in
      (Ret tt, with_assets (<[rel_version r := files ∪ old]> (w_assets w)) w)
  | get_contributors _ => (Ret (map sha (w_pr_commits w)), w)
  | update_run_sh_version v =>
      (Ret tt, with_repo (set_tree (v, (tree (w_repo w)).2) (w_repo w)) w)
  | update_init_py_version v =>
      (Ret tt, with_repo (set_tree ((tree (w_repo w)).1, v) (w_repo w)) w)
  | compatibility_matrix => (Ret "compatibility matrix", w)
  | read_release_notes_from_changelog => (Ret "changelog excerpt", w)
  | Head_config_get br key =>
      match (if String.eqb key "release" then config (w_repo w) !! head_name br
             else None) with
      | Some v => (Ret v, w)
      | None => (Raise (OtherError "NoOptionError"), w)
      end
  | PR_get_commits _ => (Ret (w_pr_commits w), w)
  | Commit_get_combined_status _ =>
      match w_ci w with
      | [] => (Ret (combined_of []), w)
      | [checks] => (Ret (combined_of checks), w)
      | checks :: later => (Ret (combined_of checks), with_ci later w)
      end
  | BintrayAPI _ _ => (Ret tt, w)
  | Bintray_create_repository _ name _ =>
      (Ret tt, with_bintray (add name (w_bintray w)) w)
  | BinaryDownloader _ => (Ret tt, w)
  | Downloader_download_all v =>
      match w_storage w !! v with
      | Some files => (Ret files, w)
      | None => (Raise (ScriptError ("Unable to retrieve the artifacts of " +:+ v)), w)
      end
  | input _ =>
      match w_stdin w with
      | [] => (Raise (OtherError "EOFError"), w)
      | line :: rest => (Ret line, with_stdin rest w)
      end
  | os_environ_get k =>
      match w_env w !! k with
      | Some v => (Ret v, w)
      | None => (Raise (KeyError k), w)
      end
  | os_environ_has k =>
      (Ret (match w_env w !! k with Some _ => true | None => false end), w)
  | open_read _ => (Ret "Release {{version}}", w)
  | os_makedirs _ _ => (Ret tt, w)
  | shutil_copy _ _ => (Ret tt, w)
  | parse_args =>
      match w_argv w with
      | Some a => (Ret a, w)
      | None => (Raise (OtherError "SystemExit"), w)
      end
  | Template source => (Ret source, w)
  | Template_render t v m _ _ changelog =>
      (Ret (t +:+ nl +:+ v +:+ nl +:+ m +:+ nl +:+ changelog), w)
  | docker_APIClient => (Ret tt, w)
  | Docker_build _ tag _ =>
      (Ret (default [] (w_build_logs w !! tag)), with_images (add tag (w_images w)) w)
  | Docker_create_container image _ => (Ret ("container of " +:+ image), w)
  | Docker_commit _ repository => (Ret tt, with_images (add repository (w_images w)) w)
  | Docker_tag _ new_tag => (Ret tt, with_images (add new_tag (w_images w)) w)
  | Docker_remove_container _ _ => (Ret tt, w)
  | Docker_remove_image image _ => (Ret tt, with_images (drop image (w_images w)) w)
  end.

#[export] Instance sim_collaborators : Collaborators World := sim_handle.

End Sim.

(** ** Sample runs on the simulated collaborators *)

Module Samples.
Import Sim.

Definition run_start := start (W := World) "docker" "docker/compose" "/src" "/src/script/release" "release.py".
Definition run_resume := resume (W := World) "docker" "docker/compose" "/src" "/src/script/release" "release.py" Sim.branch_name.
Definition run_cancel := cancel (W := World) "docker/compose" "/src".
Definition run_finalize := finalize (W := World).

Definition args_for (act version : string) : Args :=
  {| action := act; release := version; base := None; repo := None;
     bintray_user := "alice"; destination := "binaries" |}.

Definition check (name state : string) : CheckStatus :=
  {| st_context := name; st_state := state |}.

Definition artifacts : Files :=
  <["docker-compose-Linux-x86_64" :=
      ["binaries/docker-compose-Linux-x86_64"; "binaries/docker-compose-Linux-x86_64.sha256"]]>
  (<["docker-compose-Darwin-x86_64" :=
      ["binaries/docker-compose-Darwin-x86_64"; "binaries/docker-compose-Darwin-x86_64.sha256"]]> ∅).

(** Nothing released yet: a clean tree at 1.21.0, both tokens set, three
    green checks, the artifacts of 1.21.1 available, and an operator who
    presses Enter and then approves the diff. *)
Definition fresh : World :=
  {| w_repo := {| branches := ["master"]; config := ∅;
                  tree := ("1.21.0", "1.21.0"); committed := ("1.21.0", "1.21.0");
                  commits := [] |};
     w_host := {| prs := []; releases := [] |};
     w_assets := ∅; w_remote := ["master"]; w_bintray := [];
     w_env := <["GITHUB_TOKEN" := "gh"]> (<["BINTRAY_TOKEN" := "bt"]> ∅);
     w_argv := None;
     w_stdin := [""; "y"];
     w_mergeable := Some true;
     w_pr_commits := [{| sha := "c0ffee" |}];
     w_ci := [[check "ci/a" "success"; check "ci/b" "success"; check "ci/c" "success"]];
     w_storage := <["1.21.1" := artifacts]> ∅;
     w_build_logs := ∅; w_images := [] |}.

(** The release branch exists locally, nothing else was done. *)
Definition branched : World :=
  with_repo {| branches := ["master"; "bump-1.21.1"];
               config := <["bump-1.21.1" := "1.21.1"]> ∅;
               tree := ("1.21.0", "1.21.0"); committed := ("1.21.0", "1.21.0");
               commits := [] |} fresh.


Definition the_resume : Args := args_for "resume" "1.21.1".
Definition the_cancel : Args := args_for "cancel" "1.21.1".
Definition the_finalize : Args := args_for "finalize" "1.21.1".

Definition last_commit : Commit := {| sha := "c0ffee" |}.
Definition the_pr : PullRequest := {| pr_number := 1; pr_mergeable := Some true |}.

(** The commit has no status checks. *)
Definition no_ci : World := with_ci [] branched.

(** One check failed, the other one passed. *)
Definition failed_checks : list CheckStatus :=
  [check "ci/a" "failure"; check "ci/b" "success"].
Definition ci_failed : World := with_ci [failed_checks] branched.

(** One check failed while another one is still running. *)
Definition mixed_checks : list CheckStatus :=
  [check "ci/a" "failure"; check "ci/b" "pending"].
Definition ci_mixed : World := with_ci [mixed_checks] branched.

(** The release is already public, and the operator answers "n" when
    asked whether to modify it. *)
Definition public_release : GhRelease :=
  {| rel_version := "1.21.1"; rel_body := "notes"; rel_draft := false;
     rel_prerelease := false; rel_target := "release" |}.
Definition published : World :=
  with_stdin [""; "y"; "n"]
    (with_host {| prs := []; releases := [public_release] |} branched).

(** The operator has left: nothing can be read from the terminal. *)
Definition silent : World := with_stdin [] branched.

(** The draft of a release candidate. *)
Definition rc_draft : list event * outcome GhRelease * World :=
  create_release_draft "/src/script/release" "1.9.0-rc1" the_pr artifacts fresh.

(** The state a completed [resume] leaves. *)
Definition resumed : World := world_of (run_resume 5 the_resume branched).


(** *** Worlds for the other functions *)

Definition with_env (env : gmap string string) (w : World) : World :=
  {| w_repo := w_repo w; w_host := w_host w; w_assets := w_assets w;
     w_remote := w_remote w; w_bintray := w_bintray w; w_env := env;
     w_argv := w_argv w; w_stdin := w_stdin w; w_mergeable := w_mergeable w;
     w_pr_commits := w_pr_commits w; w_ci := w_ci w; w_storage := w_storage w;
     w_build_logs := w_build_logs w; w_images := w_images w |}.

Definition with_argv (a : option Args) (w : World) : World :=
  {| w_repo := w_repo w; w_host := w_host w; w_assets := w_assets w;
     w_remote := w_remote w; w_bintray := w_bintray w; w_env := w_env w;
     w_argv := a; w_stdin := w_stdin w; w_mergeable := w_mergeable w;
     w_pr_commits := w_pr_commits w; w_ci := w_ci w; w_storage := w_storage w;
     w_build_logs := w_build_logs w; w_images := w_images w |}.

Definition with_pr_commits (l : list Commit) (w : World) : World :=
  {| w_repo := w_repo w; w_host := w_host w; w_assets := w_assets w;
     w_remote := w_remote w; w_bintray := w_bintray w; w_env := w_env w;
     w_argv := w_argv w; w_stdin := w_stdin w; w_mergeable := w_mergeable w;
     w_pr_commits := l; w_ci := w_ci w; w_storage := w_storage w;
     w_build_logs := w_build_logs w; w_images := w_images w |}.

Definition with_build_logs (logs : gmap string (list Chunk)) (w : World) : World :=
  {| w_repo := w_repo w; w_host := w_host w; w_assets := w_assets w;
     w_remote := w_remote w; w_bintray := w_bintray w; w_env := w_env w;
     w_argv := w_argv w; w_stdin := w_stdin w; w_mergeable := w_mergeable w;
     w_pr_commits := w_pr_commits w; w_ci := w_ci w; w_storage := w_storage w;
     w_build_logs := logs; w_images := w_images w |}.

Definition run_main :=
  main (W := World) "docker" "docker/compose" "/src" "/src/script/release" "release.py"
       Sim.branch_name.

Definition the_start : Args := args_for "start" "1.21.1".

(** An action the script does not know. *)
Definition the_publish : Args := args_for "publish" "1.21.1".

(** The environment without credentials, and with the first one only. *)
Definition no_tokens : World := with_env ∅ fresh.
Definition github_only : World := with_env (<["GITHUB_TOKEN" := "gh"]> ∅) fresh.

(** The script called with a command line. *)
Definition invoked (a : Args) (w : World) : World := with_argv (Some a) w.

(** A build log that goes through, and one that breaks at its second
    event. *)
Definition step_1 : Chunk := <["stream" := "Step 1/2 : FROM alpine"]> ∅.
Definition step_2 : Chunk := <["stream" := "Step 2/2 : COPY dist /"]> ∅.
Definition disk_full : Chunk :=
  <["error" := "no space left on device"]> (<["stream" := "Step 2/2 : COPY dist /"]> ∅).
Definition finished : Chunk := <["stream" := "Successfully built"]> ∅.

Definition broken_build : World :=
  with_build_logs (<["docker/compose:1.21.1" := [step_1; disk_full; finished]]> ∅) fresh.

(** Downloads without the Linux binary. *)
Definition darwin_only : Files :=
  <["docker-compose-Darwin-x86_64" := ["binaries/docker-compose-Darwin-x86_64"]]> ∅.
Definition linux_missing : Files := <["docker-compose-Linux-x86_64" := []]> ∅.

(** A check reported in the state [error] while another one runs. *)
Definition errored_checks : list CheckStatus :=
  [check "ci/a" "success"; check "ci/b" "error"; check "ci/c" "pending"].
Definition ci_errored : World := with_ci [errored_checks] branched.

(** Two polls with a check running, then all green. *)
Definition ci_slow : World :=
  with_ci [[check "ci/a" "pending"]; [check "ci/a" "pending"]; [check "ci/a" "success"]]
    branched.

(** A pull request without commits. *)
Definition no_commits : World := with_pr_commits [] fresh.

(** The operator rejects the diff once, then approves it. *)
Definition hesitant : World := with_stdin ["n"; "Y"] branched.

Definition bump_branch : Head := {| head_name := "bump-1.21.1" |}.

(** The status call a failed poll leaves in the trace. *)
Definition the_failed_poll : event :=
  EvCall (Commit_get_combined_status last_commit) (Ret (combined_of failed_checks)).

(** CI fails for a release that is started from scratch. *)
Definition ci_failed_start : World := with_ci [failed_checks] fresh.

(** The operator stays at the terminal for two runs of [resume]: Enter
    and an approval for each. *)
Definition attended : World := with_stdin [""; "y"; ""; "y"] branched.

(** The state the first of the two runs leaves, with the operator's
    answers for the second run still to come. *)
Definition resumed_once : World := world_of (run_resume 5 the_resume attended).

End Samples.

(** ** A CI host that reports failure first *)

Module FailureFirst.

(** The checks the host has at successive polls. *)
Record World := { checks_at_polls : list (list CheckStatus) }.

(** Modelled from the spec: a code hosting collaborator of which only
    the CI Gate's two calls are simulated.  The pull request has one
    commit, and a status call answers with [combined_failure_first] of
    the checks of the current poll. *)
Definition ci_handle (c : call) (w : World) : outcome (answer c) * World :=
  match c return outcome (answer c) * World with
  | PR_get_commits _ => (Ret [Samples.last_commit], w)
  | Commit_get_combined_status _ =>
      match checks_at_polls w with
      | [] => (Ret (combined_failure_first []), w)
      | checks :: later =>
          (Ret (combined_failure_first checks), {| checks_at_polls := later |})
      end
  | _ => (Raise (OtherError "NotSimulated"), w)
  end.

#[global] Instance ci_collaborators : Collaborators World := ci_handle.



End FailureFirst.

(** ** Reading traces *)

Definition is_upload (e : event) : bool :=
  match e with EvCall (upload_assets _ _) _ => true | _ => false end.

Definition is_delete_assets (e : event) : bool :=
  match e with EvCall (delete_assets _) _ => true | _ => false end.

(** Calls that create a bump commit, a pull request or a release record. *)
Definition is_creation (e : event) : bool :=
  match e with
  | EvCall (Repo_create_bump_commit _ _) _
  | EvCall (Repo_create_release_pull_request _) _
  | EvCall (Repo_create_release _ _ _ _ _) _ => true
  | _ => false
  end.

(** Calls to the artifact-hosting collaborator. *)
Definition is_artifact_hosting (e : event) : bool :=
  match e with
  | EvCall (BintrayAPI _ _) _
  | EvCall (Bintray_create_repository _ _ _) _ => true
  | _ => false
  end.

Definition is_find_release (e : event) : bool :=
  match e with EvCall (Repo_find_release _) _ => true | _ => false end.

Definition confirm_public_prompt : string :=
  "Are you sure you wish to proceed? Modifying an already "
  +:+ "released version is dangerous! y/N".

Definition is_confirm_public (e : event) : bool :=
  match e with
  | EvCall (input p) _ => String.eqb p confirm_public_prompt
  | _ => false
  end.

Definition is_sleep (e : event) : bool :=
  match e with EvSleep _ => true | _ => false end.

(** In [t], every upload of assets comes directly after a deletion, which
    returned, of the assets of the same release. *)
Definition uploads_follow_delete (t : list event) : Prop :=
  forall t1 r files x t2,
    t = t1 ++ EvCall (upload_assets r files) x :: t2 ->
    exists t0, t1 = t0 ++ [EvCall (delete_assets r) (Ret tt)].

(** The version carries a [-rc] suffix: some suffix of it starts with
    [-rc], as in [1.9.0-rc1]. *)
Definition has_rc_suffix (version : string) : Prop :=
  exists core rest, version = core +:+ "-rc" +:+ rest.

(** Events that neither look a release up, nor ask whether a public release
    may be modified, nor touch hosted assets. *)
Definition quiet (e : event) : bool :=
  negb (is_upload e || is_delete_assets e || is_find_release e || is_confirm_public e).

Definition call_of (e : event) : option call :=
  match e with EvCall c _ => Some c | _ => None end.

(** The release a lookup found, and the operator's answer to the question
    about a public release. *)
Definition found_release (e : event) : option GhRelease :=
  match e with
  | EvCall (Repo_find_release _) (Ret (Some r)) => Some r
  | _ => None
  end.

Definition confirm_answer (e : event) : option string :=
  match e with
  | EvCall (input p) (Ret s) =>
      if String.eqb p confirm_public_prompt then Some s else None
  | _ => None
  end.

(** *** Footprints: the calls a step of the script can make *)

Definition enter_prompt : string :=
  "Please add the release notes to the CHANGELOG.md file, then press Enter to continue.".

Definition changes_ok_prompt : string := "Are these changes ok? y/N ".

Definition fp_confirm_changes (c : call) : bool :=
  match c with
  | Repo_diff => true
  | input p => String.eqb p changes_ok_prompt
  | _ => false
  end.

Definition fp_create_bump_commit (c : call) : bool :=
  match c with
  | Head_config_get _ _ | update_run_sh_version _ | update_init_py_version _
  | Repo_diff | Repo_create_bump_commit _ _ | Repo_push_branch_to_remote _
  | os_environ_get _ | BintrayAPI _ _ | Bintray_create_repository _ _ _ => true
  | input p => String.eqb p enter_prompt || String.eqb p changes_ok_prompt
  | _ => false
  end.

Definition fp_monitor_pr_status (c : call) : bool :=
  match c with
  | PR_get_commits _ | Commit_get_combined_status _ => true
  | _ => false
  end.

Definition fp_create_release_draft (c : call) : bool :=
  match c with
  | open_read _ | Template _ | compatibility_matrix | get_contributors _
  | read_release_notes_from_changelog | Template_render _ _ _ _ _ _
  | Repo_create_release _ _ _ _ _ => true
  | _ => false
  end.

Definition fp_build_images (c : call) : bool :=
  match c with
  | Repo_write_git_sha | docker_APIClient | os_makedirs _ _ | shutil_copy _ _
  | Docker_build _ _ _ | Docker_create_container _ _ | Docker_commit _ _
  | Docker_tag _ _ | Docker_remove_container _ _ | Docker_remove_image _ _ => true
  | _ => false
  end.

(** Events that are not collaborator calls: output and sleeping. *)
Definition is_local (e : event) : bool :=
  match e with EvCall _ _ => false | _ => true end.

(** ** A small program logic for runs

    [triple I Q m post]: started in a world satisfying [I], a run of [m]
    ends in a world satisfying [I], emits only events satisfying [Q], and
    a value it returns satisfies [post]. *)
Definition triple {W A} (I : W -> Prop) (Q : event -> Prop) (m : M W A)
    (post : A -> Prop) : Prop :=
  forall w, I w ->
    I (world_of (m w)) /\ Forall Q (trace_of (m w)) /\
    forall a, result_of (m w) = Ret a -> post a.

Definition any {A} : A -> Prop := fun _ => True.

(** The world after a sequence of calls. *)
Definition after {W} `{Collaborators W} (calls : list call) (w : W) : W :=
  foldl (fun w c => (handle c w).2) w calls.

(** How an action reports what its [try] suite did: 0 when the suite
    completed, 1 when it raised [ScriptError], whose message is printed
    last, and no other code. *)
Definition reports_exit_code {W} (suite : list event * outcome unit * W)
    (act : list event * outcome Z * W) : Prop :=
  (result_of act = Ret 0%Z <-> exists u, result_of suite = Ret u) /\
  (result_of act = Ret 1%Z <-> exists msg, result_of suite = Raise (ScriptError msg)) /\
  (forall msg, result_of suite = Raise (ScriptError msg) ->
     trace_of act = trace_of suite ++ [EvPrint msg]) /\
  (forall code, result_of act = Ret code -> code = 0%Z \/ code = 1%Z).

(** An exception of the suite that leaves the action as it is: same
    trace, same world, nothing printed. *)
Definition propagates {W} (e : exn) (suite : list event * outcome unit * W)
    (act : list event * outcome Z * W) : Prop :=
  result_of suite = Raise e -> act = (trace_of suite, Raise e, world_of suite).

(** What a call to [create_release] was given: version, draft flag,
    prerelease flag, target. *)
Definition created_release_args (e : event) : option (string * bool * bool * string) :=
  match e with
  | EvCall (Repo_create_release v _ d p t) _ => Some (v, d, p, t)
  | _ => None
  end.

(** Events that neither look a release up nor ask about a public one. *)
Definition no_lookup (e : event) : Prop :=
  is_find_release e = false /\ is_confirm_public e = false.

(** Events that leave the hosted assets alone. *)
Definition keeps_assets (e : event) : Prop :=
  is_delete_assets e = false /\ is_upload e = false.

(** What a run of (the rest of) [resume] guarantees about a public
    release [rel] it has found: if the operator's answer [s] is not an
    affirmative one, the run stops there with "Aborting release" and has
    touched no hosted asset; and hosted assets are touched only after an
    affirmative answer. *)
Definition guards_public_release {W A} (x : list event * outcome A * W) : Prop :=
  forall rel,
    (exists e, In e (trace_of x) /\ found_release e = Some rel) ->
    rel_draft rel = false ->
    (forall s,
       (exists e, In e (trace_of x) /\ confirm_answer e = Some s) ->
       lower s <> "y" ->
       result_of x = Raise (ScriptError "Aborting release") /\
       (exists t, trace_of x = t ++ [EvCall (input confirm_public_prompt) (Ret s)]) /\
       Forall keeps_assets (trace_of x)) /\
    (forall e, In e (trace_of x) ->
       is_delete_assets e = true \/ is_upload e = true ->
       exists s, In (EvCall (input confirm_public_prompt) (Ret s)) (trace_of x) /\
                 lower s = "y").

(** ** Pre- and postconditions of runs that return *)

(** [hoare P m Qp]: a run of [m] from a world satisfying [P] that
    returns [a] ends in a world satisfying [Qp a]. *)
Definition hoare {W A} (P : W -> Prop) (m : M W A) (Qp : A -> W -> Prop) : Prop :=
  forall w, P w -> forall a, result_of (m w) = Ret a -> Qp a (world_of (m w)).

(** Calls that, on the simulated collaborators, change neither the
    version control side nor the pull requests and release records. *)
Definition neutral (c : call) : bool :=
  match c with
  | Repo_create_release_branch _ _ | Repo_create_bump_commit _ _
  | Repo_create_release_pull_request _ | Repo_create_release _ _ _ _ _
  | Repo_close_release_pr _ | Repo_remove_release _ | Repo_remove_bump_branch _
  | update_run_sh_version _ | update_init_py_version _ => false
  | _ => true
  end.

(** A property of the version control and code hosting sides. *)
Definition on_state (P : Sim.Repo -> Sim.Host -> Prop) (w : Sim.World) : Prop :=
  P (Sim.w_repo w) (Sim.w_host w).

(** The state a completed [resume] of [version] leaves: the branch stores
    a release version, both version files hold it in the working tree and
    in the last commit, and a pull request and a release record are found
    for [version]. *)
Definition bumped (version : string) (r : Sim.Repo) (h : Sim.Host) : Prop :=
  exists rel,
    Sim.config r !! Sim.branch_name version = Some rel /\
    Sim.tree r = (rel, rel) /\ Sim.committed r = (rel, rel).

Definition with_pr (version : string) (r : Sim.Repo) (h : Sim.Host) : Prop :=
  bumped version r h /\ is_Some (Sim.find_pr version (Sim.prs h)).

Definition settled (version : string) (r : Sim.Repo) (h : Sim.Host) : Prop :=
  with_pr version r h /\ is_Some (Sim.find_rel version (Sim.releases h)).

Definition Qany (e : event) : Prop := True.

Definition no_creation (e : event) : Prop := is_creation e = false.

(** ** Invariants and event classes used in the proofs *)

(** A call that keeps the invariant [I] and emits an event allowed by [Q]. *)
Definition call_ok {W} `{Collaborators W} (I : W -> Prop) (Q : event -> Prop)
    (c : call) : Prop :=
  forall w, I w -> I (handle c w).2 /\ Q (EvCall c (handle c w).1).

Definition Itrue {W} (w : W) : Prop := True.
Definition Qquiet (e : event) : Prop := quiet e = true.
Definition Qnoup (e : event) : Prop := is_upload e = false.

(** What a call creating a release record for [version] must pass. *)
Definition Qdraft (version : string) (e : event) : Prop :=
  forall v d p t, created_release_args e = Some (v, d, p, t) ->
    v = version /\ d = true /\ t = "release" /\ (p = true <-> has_rc_suffix version).

(** The tally dict has its three keys. *)
Definition keys3 (summary : gmap string nat) : Prop :=
  is_Some (summary !! "pending") /\ is_Some (summary !! "success") /\
  is_Some (summary !! "failure").

(** The world keeps the given version control and code hosting sides. *)
Definition keeps (repo1 : Sim.Repo) (host1 : Sim.Host) : Sim.World -> Prop :=
  on_state (fun r h => r = repo1 /\ h = host1).

(** A step with a loop budget whose runs do not depend on the budget once
    it suffices: a run that does not diverge is the same with any larger
    budget. *)
Definition budget_stable {W A} (F : nat -> M W A) : Prop :=
  forall n k w, result_of (F n w) <> Diverge -> F (n + k) w = F n w.

(** ** More ways to read runs *)

(** A run with some events put in front. *)
Definition prepend {W A} (t : list event) (x : list event * outcome A * W)
  : list event * outcome A * W :=
  (t ++ trace_of x, result_of x, world_of x).

(** The output of a build log: the [stream] texts of its events, printed
    without a line end. *)
Definition stream_prints (logstream : list Chunk) : list event :=
  map EvPrintNoEnd (omap (fun chunk : Chunk => chunk !! "stream") logstream).

Definition no_error (chunk : Chunk) : Prop := chunk !! "error" = None.

(** The key of the binary that goes into the image. *)
Definition linux_binary : string := "docker-compose-Linux-x86_64".

Definition is_poll (e : event) : bool :=
  match e with EvCall (Commit_get_combined_status _) _ => true | _ => false end.

(** How many events of a trace are of a kind. *)
Definition count_events (kind : event -> bool) (t : list event) : nat :=
  length (List.filter kind t).

(** How many checks are in a state. *)
Definition count_state (state : string) (checks : list CheckStatus) : nat :=
  length (List.filter (fun d => String.eqb (st_state d) state) checks).

(** The tally line for a list of checks. *)
Definition tally_line (checks : list CheckStatus) : string :=
  pretty (count_state "pending" checks) +:+ " pending, "
  +:+ pretty (count_state "success" checks) +:+ " successes, "
  +:+ pretty (count_state "failure" checks) +:+ " failures".

(** The tally dict has no other key than its three. *)
Definition only3 (summary : gmap string nat) : Prop :=
  forall k, is_Some (summary !! k) -> k = "pending" \/ k = "success" \/ k = "failure".

(** One turn of the diff-approval loop: the diff is fetched, shown, and
    the operator answers. *)
Definition turn (d s : string) : list event :=
  [EvCall Repo_diff (Ret d); EvPrint d; EvCall (input changes_ok_prompt) (Ret s)].

(** The answers that end a confirmation: [s.lower() == 'y']. *)
Definition approves (s : string) : Prop := s = "y" \/ s = "Y".

(** Calls of the bump step that leave the working copy: commit, push,
    artifact repository. *)
Definition is_publish (e : event) : bool :=
  match e with
  | EvCall (Repo_create_bump_commit _ _) _
  | EvCall (Repo_push_branch_to_remote _) _
  | EvCall (Bintray_create_repository _ _ _) _ => true
  | _ => false
  end.

Definition is_commit (e : event) : bool :=
  match e with EvCall (Repo_create_bump_commit _ _) _ => true | _ => false end.

Definition is_create_pr (e : event) : bool :=
  match e with EvCall (Repo_create_release_pull_request _) _ => true | _ => false end.

(** In [t], every event of kind [trig] comes directly after an event
    related to it by [req]. *)
Definition preceded_by (trig : event -> bool) (req : event -> event -> Prop)
    (t : list event) : Prop :=
  forall t1 u t2, t = t1 ++ u :: t2 -> trig u = true ->
    exists t0 p, t1 = t0 ++ [p] /\ req p u.

(** A bump commit of [br] right after a diff that was not empty. *)
Definition after_nonempty_diff (br : Head) (p u : event) : Prop :=
  exists d v x, p = EvCall Repo_diff (Ret d) /\ d <> "" /\
                u = EvCall (Repo_create_bump_commit br v) x.

(** The version that goes into the version files and the bump commit. *)
Definition bumped_version (e : event) : option string :=
  match e with
  | EvCall (update_run_sh_version v) _ | EvCall (update_init_py_version v) _
  | EvCall (Repo_create_bump_commit _ v) _ => Some v
  | _ => None
  end.

(** A pull request made right after a lookup that found none. *)
Definition after_failed_pr_lookup (version : string) (p u : event) : Prop :=
  exists x, p = EvCall (Repo_find_release_pr version) (Ret None) /\
            u = EvCall (Repo_create_release_pull_request version) x.

(** In a run, calls that leave the working copy are made only when the
    operator has approved the diff. *)
Definition needs_approval {W A} (x : list event * outcome A * W) : Prop :=
  forall e, In e (trace_of x) -> is_publish e = true ->
    exists s, In (EvCall (input changes_ok_prompt) (Ret s)) (trace_of x) /\ approves s.

Definition Qversion (rel : string) (e : event) : Prop :=
  forall v, bumped_version e = Some v -> v = rel.

(** Calls that look for what an earlier run left, or clear it: the branch
    lookup and checkout, the lookups of the pull request and the release,
    the question about a public release, the deletion of assets. *)
Definition is_reuse (e : event) : bool :=
  match e with
  | EvCall (Repo_branch_exists _) _ | EvCall (Repo_checkout_branch _) _
  | EvCall (Repo_find_release_pr _) _ | EvCall (Repo_find_release _) _
  | EvCall (delete_assets _) _ => true
  | EvCall (input p) _ => String.eqb p confirm_public_prompt
  | _ => false
  end.

Definition is_create_branch (e : event) : bool :=
  match e with EvCall (Repo_create_release_branch _ _) _ => true | _ => false end.

(** A status call answered with an aggregate state that is neither
    pending nor success. *)
Definition failed_poll (e : event) : bool :=
  match e with
  | EvCall (Commit_get_combined_status _) (Ret st) =>
      negb (String.eqb (cs_state st) "pending") && negb (String.eqb (cs_state st) "success")
  | _ => false
  end.

(** The calls of the steps that follow the CI gate: download, release
    lookup and draft, assets, images. *)
Definition is_after_gate (e : event) : bool :=
  match e with
  | EvCall (BinaryDownloader _) _ | EvCall (Downloader_download_all _) _
  | EvCall (Repo_find_release _) _
  | EvCall (delete_assets _) _ | EvCall (upload_assets _ _) _ => true
  | EvCall c _ => fp_create_release_draft c || fp_build_images c
  | _ => false
  end.

(** Events of the steps before the gate: no status call, nothing of the
    later steps. *)
Definition before_gate (e : event) : Prop :=
  is_poll e = false /\ is_after_gate e = false.

(** A run in which a failed poll is the end: the error is "CI failure
    detected", the poll is the last event, and no later step has run. *)
Definition stops_on_ci_failure {W A} (x : list event * outcome A * W) : Prop :=
  forall e, In e (trace_of x) -> failed_poll e = true ->
    result_of x = Raise (ScriptError "CI failure detected") /\
    (exists t, trace_of x = t ++ [e]) /\
    Forall (fun e => is_after_gate e = false) (trace_of x).

(** In a run, an event of kind [trig] is made only when [ev] is in the
    run. *)
Definition only_with {W A} (trig : event -> bool) (ev : event)
    (x : list event * outcome A * W) : Prop :=
  forall e, In e (trace_of x) -> trig e = true -> In ev (trace_of x).

Definition is_create_release (e : event) : bool :=
  match e with EvCall (Repo_create_release _ _ _ _ _) _ => true | _ => false end.

(** * Proofs *)

(** ** The monad *)

Section MonadFacts.
Context {W : Type} `{Collaborators W}.

Lemma bind_ret_l {A B} (m : M W A) (f : A -> M W B) w t a w1 :
  m w = (t, Ret a, w1) ->
  bind m f w = (t ++ trace_of (f a w1), result_of (f a w1), world_of (f a w1)).
Proof.
  intros E. unfold bind. rewrite E.
  destruct (f a w1) as [[t2 r] w2]. reflexivity.
Qed.

Lemma bind_raise_l {A B} (m : M W A) (f : A -> M W B) w t e w1 :
  m w = (t, Raise e, w1) -> bind m f w = (t, Raise e, w1).
Proof. intros E. unfold bind. rewrite E. reflexivity. Qed.

Lemma bind_diverge_l {A B} (m : M W A) (f : A -> M W B) w t w1 :
  m w = (t, Diverge, w1) -> bind m f w = (t, Diverge, w1).
Proof. intros E. unfold bind. rewrite E. reflexivity. Qed.

Lemma perform_eq (c : call) w :
  perform c w = ([EvCall c (handle c w).1], (handle c w).1, (handle c w).2).
Proof. unfold perform. destruct (handle c w) as [r w1]. reflexivity. Qed.

Lemma triple_eta {A} (x : list event * outcome A * W) :
  x = (trace_of x, result_of x, world_of x).
Proof. destruct x as [[t r] w]. reflexivity. Qed.

(** *** Rules of the program logic *)

Variable I : W -> Prop.
Variable Q : event -> Prop.

Lemma triple_ret {A} (a : A) (post : A -> Prop) :
  post a -> triple I Q (ret a) post.
Proof.
  intros Hp w Hw. cbn. split; [done|]. split; [constructor|].
  intros a' [= <-]. exact Hp.
Qed.

Lemma triple_raise {A} e (post : A -> Prop) : triple I Q (raise e) post.
Proof. intros w Hw. cbn. split; [done|]. split; [constructor|]. intros a' [=]. Qed.

Lemma triple_diverge {A} (post : A -> Prop) : triple I Q diverge post.
Proof. intros w Hw. cbn. split; [done|]. split; [constructor|]. intros a' [=]. Qed.

Lemma triple_emit e (post : unit -> Prop) :
  Q e -> post tt -> triple I Q (emit e) post.
Proof.
  intros He Hp w Hw. cbn. split; [done|]. split; [by repeat constructor|].
  intros [] _. exact Hp.
Qed.

Lemma triple_perform (c : call) (post : answer c -> Prop) :
  (forall w, I w ->
     I (handle c w).2 /\ Q (EvCall c (handle c w).1) /\
     forall a, (handle c w).1 = Ret a -> post a) ->
  triple I Q (perform c) post.
Proof.
  intros Hc w Hw. rewrite perform_eq. cbn.
  destruct (Hc w Hw) as (Hi & Hq & Hp).
  split; [done|]. split; [by repeat constructor|]. exact Hp.
Qed.

Lemma triple_bind {A B} (m : M W A) (f : A -> M W B) mid post :
  triple I Q m mid ->
  (forall a, mid a -> triple I Q (f a) post) ->
  triple I Q (bind m f) post.
Proof.
  intros Hm Hf w Hw. destruct (Hm w Hw) as (Hi & Hq & Hp).
  destruct (m w) as [[t r] w1] eqn:E. cbn in Hi, Hq, Hp.
  destruct r as [a|e|].
  - rewrite (bind_ret_l _ _ _ _ _ _ E). cbn.
    destruct (Hf a (Hp a eq_refl) w1 Hi) as (Hi2 & Hq2 & Hp2).
    split; [done|]. split; [by apply Forall_app|]. exact Hp2.
  - rewrite (bind_raise_l _ _ _ _ _ _ E). cbn. by repeat split.
  - rewrite (bind_diverge_l _ _ _ _ _ E). cbn. by repeat split.
Qed.

Lemma triple_weaken {A} (m : M W A) (post post' : A -> Prop) :
  triple I Q m post -> (forall a, post a -> post' a) -> triple I Q m post'.
Proof.
  intros Hm Hw w Hi. destruct (Hm w Hi) as (? & ? & Hp). repeat split; auto.
Qed.

Lemma triple_try {A} (body : M W A) handler post :
  triple I Q body post ->
  (forall msg, triple I Q (handler msg) post) ->
  triple I Q (try_except_ScriptError body handler) post.
Proof.
  intros Hb Hh w Hw. destruct (Hb w Hw) as (Hi & Hq & Hp).
  unfold try_except_ScriptError.
  destruct (body w) as [[t r] w1] eqn:E. cbn in Hi, Hq, Hp.
  destruct r as [a|[msg| | | |]|]; cbn; try by repeat split.
  destruct (Hh msg w1 Hi) as (Hi2 & Hq2 & Hp2).
  destruct (handler msg w1) as [[t2 r2] w2]. cbn in *.
  split; [done|]. split; [by apply Forall_app|]. exact Hp2.
Qed.

End MonadFacts.

(** ** What each step of the script can call *)

Section Footprints.
Context {W : Type} `{Collaborators W}.
Variable I : W -> Prop.
Variable Q : event -> Prop.
Hypothesis Hlocal : forall e, is_local e = true -> Q e.

Lemma triple_call (c : call) : call_ok I Q c -> triple I Q (perform c) any.
Proof.
  intros Hc. apply triple_perform. intros w Hw.
  destruct (Hc w Hw). by repeat split.
Qed.

Lemma triple_bind_any {A B} (m : M W A) (f : A -> M W B) post :
  triple I Q m any -> (forall a, triple I Q (f a) post) ->
  triple I Q (bind m f) post.
Proof. intros Hm Hf. eapply triple_bind; [exact Hm|]. intros a _. apply Hf. Qed.

Lemma triple_print s : triple I Q (print s) any.
Proof. apply triple_emit; [by apply Hlocal|done]. Qed.

Lemma triple_print_noend s : triple I Q (print_noend s) any.
Proof. apply triple_emit; [by apply Hlocal|done]. Qed.

Lemma triple_sleep n : triple I Q (sleep n) any.
Proof. apply triple_emit; [by apply Hlocal|done]. Qed.

Lemma triple_getitem {V} (d : gmap string V) k : triple I Q (getitem d k) any.
Proof. unfold getitem. destruct (d !! k); [by apply triple_ret|apply triple_raise]. Qed.

Lemma triple_first_item {A} (l : list A) : triple I Q (first_item l) any.
Proof. destruct l; [apply triple_raise|by apply triple_ret]. Qed.

Ltac walk Hfp :=
  repeat first
    [ apply triple_ret; exact Logic.I
    | apply triple_raise
    | apply triple_diverge
    | apply triple_print
    | apply triple_print_noend
    | apply triple_sleep
    | apply triple_getitem
    | apply triple_first_item
    | match goal with
      | |- triple _ _ (perform ?c) _ => refine (triple_call c _); apply Hfp; reflexivity
      end
    | apply triple_bind_any; [|intros ?]
    | match goal with
      | |- triple _ _ (if ?b then _ else _) _ => destruct b
      | |- triple _ _ (match ?x with _ => _ end) _ => destruct x
      end ].

Lemma confirm_changes_triple fuel proceed :
  (forall c, fp_confirm_changes c = true -> call_ok I Q c) ->
  triple I Q (confirm_changes fuel proceed) any.
Proof.
  intros Hfp. revert proceed.
  induction fuel as [|fuel IH]; intros proceed; cbn [confirm_changes].
  - walk Hfp.
  - destruct (String.eqb (lower proceed) "y"); [walk Hfp|].
    walk Hfp. apply IH.
Qed.

Lemma create_bump_commit_triple BINTRAY_ORG fuel br user :
  (forall c, fp_create_bump_commit c = true -> call_ok I Q c) ->
  triple I Q (create_bump_commit BINTRAY_ORG fuel br user) any.
Proof.
  intros Hfp. unfold create_bump_commit.
  walk Hfp.
  apply confirm_changes_triple.
  intros c Hc. apply Hfp. destruct c; try discriminate Hc; [done|].
  cbn in *. rewrite Hc. by rewrite orb_true_r.
Qed.

Lemma tally_triple statuses summary : triple I Q (tally statuses summary) any.
Proof.
  revert summary. induction statuses as [|d rest IH]; intros summary; cbn [tally].
  - by apply triple_ret.
  - apply triple_bind_any; [apply triple_getitem|]. intros n. apply IH.
Qed.

Lemma monitor_poll_triple commit :
  (forall c, fp_monitor_pr_status c = true -> call_ok I Q c) ->
  triple I Q (monitor_poll commit) any.
Proof.
  intros Hfp. unfold monitor_poll, format_summary.
  apply triple_bind_any; [apply triple_call; by apply Hfp|]. intros status.
  destruct (String.eqb (cs_state status) "pending").
  - apply triple_bind_any; [apply tally_triple|]. intros summary. walk Hfp.
  - walk Hfp.
Qed.

Lemma monitor_loop_triple fuel commit :
  (forall c, fp_monitor_pr_status c = true -> call_ok I Q c) ->
  triple I Q (monitor_loop fuel commit) any.
Proof.
  intros Hfp. induction fuel as [|fuel IH]; cbn [monitor_loop].
  - apply triple_diverge.
  - apply triple_bind_any; [by apply monitor_poll_triple|].
    intros [b|]; [by apply triple_ret|apply IH].
Qed.

Lemma monitor_pr_status_triple fuel pr :
  (forall c, fp_monitor_pr_status c = true -> call_ok I Q c) ->
  triple I Q (monitor_pr_status fuel pr) any.
Proof.
  intros Hfp. unfold monitor_pr_status. walk Hfp. by apply monitor_loop_triple.
Qed.

Lemma check_pr_mergeable_triple pr : triple I Q (check_pr_mergeable pr) any.
Proof. unfold check_pr_mergeable. walk Hlocal. Qed.

Lemma create_release_draft_triple script_dir version pr files :
  (forall c, fp_create_release_draft c = true -> call_ok I Q c) ->
  triple I Q (create_release_draft script_dir version pr files) any.
Proof. intros Hfp. unfold create_release_draft. walk Hfp. Qed.

Lemma build_log_triple logstream : triple I Q (build_log logstream) any.
Proof.
  induction logstream as [|chunk rest IH]; cbn [build_log].
  - by apply triple_ret.
  - destruct (chunk !! "error"); [apply triple_raise|].
    apply triple_bind_any; [|intros _; apply IH].
    destruct (chunk !! "stream"); [apply triple_print_noend|by apply triple_ret].
Qed.

Lemma build_images_triple REPO_ROOT files version :
  (forall c, fp_build_images c = true -> call_ok I Q c) ->
  triple I Q (build_images REPO_ROOT files version) any.
Proof.
  intros Hfp. unfold build_images.
  repeat first
    [ apply build_log_triple
    | apply triple_print
    | apply triple_getitem
    | apply triple_first_item
    | match goal with
      | |- triple _ _ (perform ?c) _ => refine (triple_call c _); apply Hfp; reflexivity
      end
    | apply triple_bind_any; [|intros ?] ].
Qed.

End Footprints.

(** ** Tactics for walking through a step *)

Ltac solve_call_ok :=
  let c := fresh "c" in
  let Hc := fresh "Hc" in
  intros c Hc ? _; split; [exact Logic.I|];
  destruct c; try discriminate Hc; try reflexivity.

Ltac solve_local :=
  let e := fresh "e" in
  intros e; destruct e; intros;
  first [discriminate | reflexivity | split; reflexivity].

Ltac walk_with fp_tac :=
  repeat first
    [ apply triple_ret; exact Logic.I
    | apply triple_raise
    | apply triple_diverge
    | apply triple_print; [solve_local]
    | apply triple_getitem
    | apply triple_first_item
    | apply check_pr_mergeable_triple; [solve_local]
    | apply build_log_triple; [solve_local]
    | match goal with
      | |- triple _ _ (perform ?c) _ =>
          refine (triple_call _ _ c _); intros ? _;
          split; [exact Logic.I|first [reflexivity | split; reflexivity]]
      | |- triple _ _ (create_bump_commit _ _ _ _) _ =>
          apply create_bump_commit_triple; [solve_local|fp_tac]
      | |- triple _ _ (monitor_pr_status _ _) _ =>
          apply monitor_pr_status_triple; [solve_local|fp_tac]
      | |- triple _ _ (create_release_draft _ _ _ _) _ =>
          apply create_release_draft_triple; [solve_local|fp_tac]
      | |- triple _ _ (build_images _ _ _) _ =>
          apply build_images_triple; [solve_local|fp_tac]
      end
    | apply triple_bind_any; [|intros ?]
    | match goal with
      | |- triple _ _ (if ?b then _ else _) _ => destruct b
      | |- triple _ _ (match ?x with _ => _ end) _ => destruct x
      end ].

(** ** Hosted assets are replaced, not appended (resume) *)

Section Uploads.
Context {W : Type} `{Collaborators W}.


Lemma quiet_not_upload e : Qquiet e -> Qnoup e.
Proof. unfold Qquiet, Qnoup, quiet. destruct (is_upload e); [discriminate|done]. Qed.

Lemma call_ok_weaken (I : W -> Prop) (Q Q' : event -> Prop) c :
  (forall e, Q e -> Q' e) -> call_ok I Q c -> call_ok I Q' c.
Proof. intros HQ Hc w Hw. destruct (Hc w Hw). split; auto. Qed.

Lemma fp_bump_quiet c :
  fp_create_bump_commit c = true -> call_ok Itrue Qquiet c.
Proof.
  revert c. solve_call_ok.
  unfold Qquiet, quiet. cbn in *.
  apply orb_true_iff in Hc as [Hc|Hc]; apply String.eqb_eq in Hc; by subst.
Qed.

Lemma fp_monitor_quiet c :
  fp_monitor_pr_status c = true -> call_ok Itrue Qquiet c.
Proof. revert c. solve_call_ok. Qed.

Lemma fp_draft_quiet c :
  fp_create_release_draft c = true -> call_ok Itrue Qquiet c.
Proof. revert c. solve_call_ok. Qed.

Lemma fp_images_quiet c :
  fp_build_images c = true -> call_ok Itrue Qquiet c.
Proof. revert c. solve_call_ok. Qed.

Lemma uploads_follow_delete_quiet t :
  Forall (fun e => is_upload e = false) t -> uploads_follow_delete t.
Proof.
  intros Hq t1 r files x t2 ->.
  apply Forall_app in Hq as [_ Hq]. apply Forall_cons in Hq as [Hq _]. discriminate Hq.
Qed.

Lemma uploads_follow_delete_app a b :
  Forall (fun e => is_upload e = false) a ->
  uploads_follow_delete b -> uploads_follow_delete (a ++ b).
Proof.
  induction a as [|e a IH]; intros Ha Hb; [exact Hb|].
  apply Forall_cons in Ha as [He Ha].
  intros t1 r files x t2 E.
  destruct t1 as [|e1 t1]; cbn in E; injection E as -> E.
  - discriminate He.
  - destruct (IH Ha Hb t1 r files x t2 E) as [t0 ->].
    by exists (e1 :: t0).
Qed.

Lemma uploads_follow_delete_app_r a b :
  uploads_follow_delete a ->
  Forall (fun e => is_upload e = false) b -> uploads_follow_delete (a ++ b).
Proof.
  intros Ha Hb t1 r files x t2 E.
  apply app_eq_inv in E as [(k & -> & E)|(k & -> & ->)].
  - destruct k as [|e k]; cbn in E.
    + subst b. apply Forall_cons in Hb as [Hb _]. discriminate Hb.
    + injection E as <- ->. by eapply Ha.
  - apply Forall_app in Hb as [_ Hb]. apply Forall_cons in Hb as [Hb _].
    discriminate Hb.
Qed.

End Uploads.

Section UploadsResume.
Context {W : Type} `{Collaborators W}.

Lemma bind_eq {A B} (m : M W A) (f : A -> M W B) w :
  bind m f w =
  match result_of (m w) with
  | Ret a => (trace_of (m w) ++ trace_of (f a (world_of (m w))),
              result_of (f a (world_of (m w))), world_of (f a (world_of (m w))))
  | Raise e => (trace_of (m w), Raise e, world_of (m w))
  | Diverge => (trace_of (m w), Diverge, world_of (m w))
  end.
Proof.
  unfold bind. destruct (m w) as [[t [a|e|]] w1]; cbn; try reflexivity.
  by destruct (f a w1) as [[t2 r2] w2].
Qed.

Lemma bind_trace_cases {A B} (m : M W A) (f : A -> M W B) w :
  (exists a, result_of (m w) = Ret a /\
     trace_of (bind m f w) = trace_of (m w) ++ trace_of (f a (world_of (m w)))) \/
  trace_of (bind m f w) = trace_of (m w).
Proof.
  rewrite bind_eq. destruct (result_of (m w)) as [a|e|]; cbn; eauto.
Qed.

Lemma ufd_bind {A B} (m : M W A) (f : A -> M W B) :
  triple Itrue Qnoup m any ->
  (forall a w, uploads_follow_delete (trace_of (f a w))) ->
  forall w, uploads_follow_delete (trace_of (bind m f w)).
Proof.
  intros Hm Hf w. destruct (Hm w Logic.I) as (_ & Hnu & _).
  destruct (bind_trace_cases m f w) as [(a & _ & ->)| ->].
  - by apply uploads_follow_delete_app.
  - by apply uploads_follow_delete_quiet.
Qed.

Variables BINTRAY_ORG NAME REPO_ROOT script_dir argv0 : string.
Variable branch_name : string -> string.

Lemma build_images_no_upload files version w :
  Forall (fun e => is_upload e = false)
         (trace_of (build_images REPO_ROOT files version w)).
Proof.
  assert (Hb : triple Itrue Qquiet (build_images REPO_ROOT files version) any).
  { apply build_images_triple; [solve_local|apply fp_images_quiet]. }
  destruct (Hb w Logic.I) as (_ & Hq & _).
  eapply Forall_impl; [exact Hq|]. apply quiet_not_upload.
Qed.

Lemma delete_then_upload gh files r2 tail :
  Forall (fun e => is_upload e = false) tail ->
  uploads_follow_delete
    (EvCall (delete_assets gh) (Ret tt) :: EvCall (upload_assets gh files) r2 :: tail).
Proof.
  intros Htail t1 r files' x t2 E.
  destruct t1 as [|e1 t1]; cbn in E; [discriminate E|].
  injection E as <- E.
  destruct t1 as [|e2 t1]; cbn in E.
  - apply (f_equal (hd (EvSleep 0))) in E. cbn in E.
    apply (f_equal call_of) in E. cbn in E. injection E as -> ->.
    by exists [].
  - injection E as <- E. subst tail.
    apply Forall_app in Htail as [_ Htail].
    apply Forall_cons in Htail as [Htail _]. discriminate Htail.
Qed.

(** The last three steps of [resume]: delete, upload, build. *)
Lemma replace_assets_uploads gh files version w :
  uploads_follow_delete
    (trace_of ((perform (delete_assets gh) ;;
                perform (upload_assets gh files) ;;
                build_images REPO_ROOT files version) w)).
Proof.
  rewrite bind_eq, perform_eq. cbn.
  destruct (handle (delete_assets gh) w) as [[[]|e|] w1]; cbn;
    try (apply uploads_follow_delete_quiet; by repeat constructor).
  rewrite bind_eq, perform_eq. cbn.
  destruct (handle (upload_assets gh files) w1) as [[[]|e|] w2]; cbn;
    apply delete_then_upload; [apply build_images_no_upload|constructor..].
Qed.

Lemma resume_try_uploads fuel args w :
  uploads_follow_delete
    (trace_of (resume_try BINTRAY_ORG NAME REPO_ROOT script_dir branch_name fuel args w)).
Proof.
  revert w. unfold resume_try.
  do 13 (apply ufd_bind;
          [walk_with ltac:(intros ? ?; eapply call_ok_weaken;
                           [apply quiet_not_upload
                           |first [by apply fp_bump_quiet | by apply fp_monitor_quiet
                                  | by apply fp_draft_quiet | by apply fp_images_quiet]])
          |intros ?]).
  apply replace_assets_uploads.
Qed.

End UploadsResume.

(** ** The [try ... except ScriptError] shape of the four actions *)

Section Actions.
Context {W : Type} `{Collaborators W}.

(** What an action does, from what its [try] suite did: [epilogue] is
    the code after the [try] statement. *)
Lemma wrapped_eq (suite : M W unit) (epilogue : M W Z) w :
  (returned <- try_except_ScriptError (suite ;; ret None) except_clause ;;
   match returned with
   | Some code => ret code
   | None => epilogue
   end) w =
  match result_of (suite w) with
  | Ret _ => (trace_of (suite w) ++ trace_of (epilogue (world_of (suite w))),
              result_of (epilogue (world_of (suite w))),
              world_of (epilogue (world_of (suite w))))
  | Raise (ScriptError msg) =>
      (trace_of (suite w) ++ [EvPrint msg], Ret 1%Z, world_of (suite w))
  | Raise e => (trace_of (suite w), Raise e, world_of (suite w))
  | Diverge => (trace_of (suite w), Diverge, world_of (suite w))
  end.
Proof.
  unfold bind at 1. unfold try_except_ScriptError. rewrite bind_eq.
  destruct (suite w) as [[t [[]|e|]] w1]; cbn.
  - rewrite app_nil_r. by destruct (epilogue w1) as [[t2 r2] w2].
  - destruct e; cbn; by rewrite ?app_nil_r.
  - reflexivity.
Qed.

Variables BINTRAY_ORG NAME REPO_ROOT script_dir argv0 : string.
Variable branch_name : string -> string.

#[local] Abbreviation start_try' := (start_try BINTRAY_ORG NAME REPO_ROOT script_dir).
#[local] Abbreviation start' := (start BINTRAY_ORG NAME REPO_ROOT script_dir argv0).
#[local] Abbreviation resume_try' := (resume_try BINTRAY_ORG NAME REPO_ROOT script_dir branch_name).
#[local] Abbreviation resume' := (resume BINTRAY_ORG NAME REPO_ROOT script_dir argv0 branch_name).
#[local] Abbreviation cancel_try' := (cancel_try NAME REPO_ROOT).
#[local] Abbreviation cancel' := (cancel NAME REPO_ROOT).

Lemma start_eq fuel args w :
  start' fuel args w =
  match result_of (start_try' fuel args w) with
  | Ret _ => (trace_of (start_try' fuel args w)
              ++ trace_of (print_final_instructions (W:=W) argv0 args w),
              Ret 0%Z, world_of (start_try' fuel args w))
  | Raise (ScriptError msg) =>
      (trace_of (start_try' fuel args w) ++ [EvPrint msg], Ret 1%Z,
       world_of (start_try' fuel args w))
  | Raise e => (trace_of (start_try' fuel args w), Raise e,
                world_of (start_try' fuel args w))
  | Diverge => (trace_of (start_try' fuel args w), Diverge,
                world_of (start_try' fuel args w))
  end.
Proof. unfold start. rewrite wrapped_eq. reflexivity. Qed.

Lemma resume_eq fuel args w :
  resume' fuel args w =
  match result_of (resume_try' fuel args w) with
  | Ret _ => (trace_of (resume_try' fuel args w)
              ++ trace_of (print_final_instructions (W:=W) argv0 args w),
              Ret 0%Z, world_of (resume_try' fuel args w))
  | Raise (ScriptError msg) =>
      (trace_of (resume_try' fuel args w) ++ [EvPrint msg], Ret 1%Z,
       world_of (resume_try' fuel args w))
  | Raise e => (trace_of (resume_try' fuel args w), Raise e,
                world_of (resume_try' fuel args w))
  | Diverge => (trace_of (resume_try' fuel args w), Diverge,
                world_of (resume_try' fuel args w))
  end.
Proof. unfold resume. rewrite wrapped_eq. reflexivity. Qed.

Lemma cancel_eq args w :
  cancel' args w =
  match result_of (cancel_try' args w) with
  | Ret _ => (trace_of (cancel_try' args w) ++ [EvPrint "Release cancellation complete."],
              Ret 0%Z, world_of (cancel_try' args w))
  | Raise (ScriptError msg) =>
      (trace_of (cancel_try' args w) ++ [EvPrint msg], Ret 1%Z,
       world_of (cancel_try' args w))
  | Raise e => (trace_of (cancel_try' args w), Raise e, world_of (cancel_try' args w))
  | Diverge => (trace_of (cancel_try' args w), Diverge, world_of (cancel_try' args w))
  end.
Proof. unfold cancel. rewrite wrapped_eq. reflexivity. Qed.

Lemma finalize_eq args (w : W) :
  finalize args w = ([], Raise NotImplementedError, w).
Proof. reflexivity. Qed.

End Actions.

(** ** Theorems about the actions *)

Section ActionTheorems.
Context {W : Type} `{Collaborators W}.
Variables BINTRAY_ORG NAME REPO_ROOT script_dir argv0 : string.
Variable branch_name : string -> string.

#[local] Abbreviation start_try' := (start_try BINTRAY_ORG NAME REPO_ROOT script_dir).
#[local] Abbreviation start' := (start BINTRAY_ORG NAME REPO_ROOT script_dir argv0).
#[local] Abbreviation resume_try' := (resume_try BINTRAY_ORG NAME REPO_ROOT script_dir branch_name).
#[local] Abbreviation resume' := (resume BINTRAY_ORG NAME REPO_ROOT script_dir argv0 branch_name).
#[local] Abbreviation cancel_try' := (cancel_try NAME REPO_ROOT).
#[local] Abbreviation cancel' := (cancel NAME REPO_ROOT).

(** C7. In every run of [resume], an upload of assets to a hosted release
    comes directly after a call that deleted the assets of that same
    release and returned: the upload replaces, it does not append. *)
Theorem resume_deletes_assets_before_upload fuel args (w : W) :
  uploads_follow_delete (trace_of (resume' fuel args w)).
Proof.
  rewrite resume_eq.
  pose proof (resume_try_uploads BINTRAY_ORG NAME REPO_ROOT script_dir branch_name
                fuel args w) as Hu.
  destruct (result_of (resume_try' fuel args w)) as [[]|[msg| | | |]|]; cbn;
    try exact Hu;
    apply uploads_follow_delete_app_r; try exact Hu; by repeat constructor.
Qed.

(** C5. When the repository reports that the release branch does not
    exist locally, [resume] prints "No local branch exists for this
    release." and returns 1; the lookup of the branch is the last call it
    makes. *)
Theorem resume_without_branch fuel args (w : W) :
  (handle (Repository REPO_ROOT (repo_or_NAME NAME args)) w).1 = Ret tt ->
  (handle (Repo_branch_exists (branch_name (release args)))
          (handle (Repository REPO_ROOT (repo_or_NAME NAME args)) w).2).1 = Ret false ->
  resume' fuel args w =
  ([EvCall (Repository REPO_ROOT (repo_or_NAME NAME args)) (Ret tt);
    EvCall (Repo_branch_exists (branch_name (release args))) (Ret false);
    EvPrint "No local branch exists for this release."],
   Ret 1%Z,
   (handle (Repo_branch_exists (branch_name (release args)))
           (handle (Repository REPO_ROOT (repo_or_NAME NAME args)) w).2).2).
Proof.
  intros H1 H2.
  destruct (handle (Repository REPO_ROOT (repo_or_NAME NAME args)) w)
    as [r1 w1] eqn:E1.
  cbn in H1, H2. subst r1.
  destruct (handle (Repo_branch_exists (branch_name (release args))) w1)
    as [r2 w2] eqn:E2.
  cbn in H2. subst r2. cbn.
  assert (E : resume_try' fuel args w =
              ([EvCall (Repository REPO_ROOT (repo_or_NAME NAME args)) (Ret tt);
                EvCall (Repo_branch_exists (branch_name (release args))) (Ret false)],
               Raise (ScriptError "No local branch exists for this release."), w2)).
  { unfold resume_try.
    rewrite bind_eq, perform_eq, E1. cbn.
    rewrite bind_eq, perform_eq, E2. cbn. reflexivity. }
  rewrite resume_eq, E. cbn. rewrite ?E2. reflexivity.
Qed.

(** C8. [cancel] makes no call to the artifact-hosting collaborator,
    whatever happens; and when the repository object is built and closing
    the pull request, removing the release and removing the bump branch
    each return, these are its only calls, in this order, and it prints
    "Release cancellation complete." and returns 0. *)
Theorem cancel_steps args (w : W) :
  Forall (fun e => is_artifact_hosting e = false) (trace_of (cancel' args w)) /\
  ((handle (Repository REPO_ROOT (repo_or_NAME NAME args)) w).1 = Ret tt ->
   (handle (Repo_close_release_pr (release args))
      (after [Repository REPO_ROOT (repo_or_NAME NAME args)] w)).1 = Ret tt ->
   (handle (Repo_remove_release (release args))
      (after [Repository REPO_ROOT (repo_or_NAME NAME args);
              Repo_close_release_pr (release args)] w)).1 = Ret tt ->
   (handle (Repo_remove_bump_branch (release args))
      (after [Repository REPO_ROOT (repo_or_NAME NAME args);
              Repo_close_release_pr (release args);
              Repo_remove_release (release args)] w)).1 = Ret tt ->
   cancel' args w =
   ([EvCall (Repository REPO_ROOT (repo_or_NAME NAME args)) (Ret tt);
     EvCall (Repo_close_release_pr (release args)) (Ret tt);
     EvCall (Repo_remove_release (release args)) (Ret tt);
     EvCall (Repo_remove_bump_branch (release args)) (Ret tt);
     EvPrint "Release cancellation complete."],
    Ret 0%Z,
    after [Repository REPO_ROOT (repo_or_NAME NAME args);
           Repo_close_release_pr (release args);
           Repo_remove_release (release args);
           Repo_remove_bump_branch (release args)] w)).
Proof.
  rewrite cancel_eq. unfold cancel_try, after. cbn [foldl].
  rewrite bind_eq, perform_eq.
  destruct (handle (Repository REPO_ROOT (repo_or_NAME NAME args)) w)
    as [r1 w1] eqn:E1. cbn.
  destruct r1 as [[]|e1|]; cbn;
    [|split; [destruct e1; by repeat constructor|intros [=]]
     |split; [by repeat constructor|intros [=]]].
  rewrite bind_eq, perform_eq.
  destruct (handle (Repo_close_release_pr (release args)) w1) as [r2 w2] eqn:E2. cbn.
  destruct r2 as [[]|e2|]; cbn;
    [|split; [destruct e2; by repeat constructor|intros _ [=]]
     |split; [by repeat constructor|intros _ [=]]].
  rewrite bind_eq, perform_eq.
  destruct (handle (Repo_remove_release (release args)) w2) as [r3 w3] eqn:E3. cbn.
  destruct r3 as [[]|e3|]; cbn;
    [|split; [destruct e3; by repeat constructor|intros _ _ [=]]
     |split; [by repeat constructor|intros _ _ [=]]].
  rewrite perform_eq.
  destruct (handle (Repo_remove_bump_branch (release args)) w3) as [r4 w4] eqn:E4. cbn.
  destruct r4 as [[]|e4|]; cbn;
    [|split; [destruct e4; by repeat constructor|intros _ _ _ [=]]
     |split; [by repeat constructor|intros _ _ _ [=]]].
  split; [by repeat constructor|]. intros _ _ _ _. reflexivity.
Qed.

(** C1, as the code has it. [start], [resume] and [cancel] return 0
    exactly when their [try] suite completes, 1 exactly when it raises
    [ScriptError], whose message they print last, and never another code.
    [finalize] returns no outcome at all: on every input it raises
    [NotImplementedError], which its [except ScriptError] clause does not
    catch. *)
Theorem actions_exit_codes fuel args (w : W) :
  reports_exit_code (start_try' fuel args w) (start' fuel args w) /\
  reports_exit_code (resume_try' fuel args w) (resume' fuel args w) /\
  reports_exit_code (cancel_try' args w) (cancel' args w) /\
  finalize args w = ([], Raise NotImplementedError, w).
Proof.
  unfold reports_exit_code.
  rewrite start_eq, resume_eq, cancel_eq.
  repeat split;
    try match goal with
    | |- context [match result_of ?x with _ => _ end] =>
        destruct (result_of x) as [[]|[msg| | | |]|]
    end; cbn; intros; try congruence; eauto;
    repeat match goal with
    | Hx : exists _, _ |- _ => destruct Hx
    end; try congruence.
  all: match goal with
       | Hx : Ret _ = Ret _ |- _ => injection Hx as <-; auto
       end.
Qed.

(** C10. An exception other than [ScriptError] raised inside the [try]
    suite of [start], [resume], [cancel] or [finalize] leaves the action
    as it is: nothing is printed and no outcome is returned.  A
    [ScriptError] of the first three is turned into outcome 1, and the
    [NotImplementedError] of [finalize] is one of the exceptions that
    escape. *)
Theorem only_ScriptError_is_caught fuel args (w : W) (e : exn) :
  is_ScriptError e = false ->
  propagates e (start_try' fuel args w) (start' fuel args w) /\
  propagates e (resume_try' fuel args w) (resume' fuel args w) /\
  propagates e (cancel_try' args w) (cancel' args w) /\
  propagates e (finalize_try args w) (finalize args w) /\
  (forall msg,
     (result_of (start_try' fuel args w) = Raise (ScriptError msg) ->
      result_of (start' fuel args w) = Ret 1%Z) /\
     (result_of (resume_try' fuel args w) = Raise (ScriptError msg) ->
      result_of (resume' fuel args w) = Ret 1%Z) /\
     (result_of (cancel_try' args w) = Raise (ScriptError msg) ->
      result_of (cancel' args w) = Ret 1%Z)) /\
  result_of (finalize args w) = Raise NotImplementedError.
Proof.
  intros He. unfold propagates.
  rewrite start_eq, resume_eq, cancel_eq.
  repeat split; try reflexivity; intros E; try rewrite E; cbn;
    try (destruct e; [discriminate He|reflexivity..]).
  injection E as <-. reflexivity.
Qed.

End ActionTheorems.

(** ** Python string helpers *)

Lemma append_cons a (s r : string) : String a s +:+ r = String a (s +:+ r).
Proof. reflexivity. Qed.

Lemma append_nil (r : string) : "" +:+ r = r.
Proof. reflexivity. Qed.

Lemma prefix_iff (p s : string) :
  String.prefix p s = true <-> exists rest, s = p +:+ rest.
Proof.
  revert s. induction p as [|a p IH]; intros s.
  - destruct s; cbn; split; eauto.
  - destruct s as [|b s]; cbn.
    + split; [discriminate|]. intros [rest [=]].
    + destruct (ascii_dec a b) as [->|Hne].
      * rewrite IH. split; intros [rest E]; exists rest;
          rewrite append_cons in *; congruence.
      * split; [discriminate|]. intros [rest E].
        rewrite append_cons in E. congruence.
Qed.

Lemma str_in_iff (needle s : string) :
  str_in needle s = true <-> exists before rest, s = before +:+ needle +:+ rest.
Proof.
  induction s as [|a s IH]; cbn [str_in].
  - rewrite orb_false_r, prefix_iff. split.
    + intros [rest E]. by exists "", rest.
    + intros (before & rest & E). destruct before as [|b before].
      * by exists rest.
      * rewrite append_cons in E. discriminate E.
  - rewrite orb_true_iff, prefix_iff, IH. split.
    + intros [[rest E]|(before & rest & E)].
      * by exists "", rest.
      * exists (String a before), rest. rewrite append_cons. by rewrite E.
    + intros (before & rest & E). destruct before as [|b before].
      * left. by exists rest.
      * right. rewrite append_cons in E. injection E as -> E. by exists before, rest.
Qed.

Lemma lower_y (s : string) : lower s = "y" <-> s = "y" \/ s = "Y".
Proof.
  split.
  - destruct s as [|c [|c' s]]; cbn; try discriminate.
    intros [= E]. destruct c as [[] [] [] [] [] [] [] []]; try discriminate E; auto.
  - intros [->| ->]; reflexivity.
Qed.

(** ** The release draft *)

Section Draft.
Context {W : Type} `{Collaborators W}.
Variable script_dir : string.

Lemma create_release_draft_calls version pr files :
  triple Itrue (Qdraft version) (create_release_draft script_dir version pr files) any.
Proof.
  unfold create_release_draft.
  repeat first
    [ apply triple_ret; exact Logic.I
    | apply triple_emit; [intros ? ? ? ? [=]|exact Logic.I]
    | match goal with
      | |- triple _ _ (perform ?c) _ =>
          refine (triple_call _ _ c _); intros ? _; split; [exact Logic.I|]
      end
    | apply triple_bind_any; [|intros ?] ].
  all: intros v d p t E; cbn in E; try discriminate E.
  injection E as <- <- <- <-. repeat split; try done; apply str_in_iff.
Qed.

(** C9. Every call [create_release_draft] makes to create the release
    record of a version passes that version, [draft=True], target
    [release], and a prerelease flag that is true exactly when the version
    carries a [-rc] suffix; and when the draft is returned, it is the
    answer to such a call. *)
Theorem release_draft_prerelease_flag version pr files (w : W) :
  (forall e v d p t,
     In e (trace_of (create_release_draft script_dir version pr files w)) ->
     created_release_args e = Some (v, d, p, t) ->
     v = version /\ d = true /\ t = "release" /\ (p = true <-> has_rc_suffix version)) /\
  (forall r,
     result_of (create_release_draft script_dir version pr files w) = Ret r ->
     exists notes,
       In (EvCall (Repo_create_release version notes true (str_in "-rc" version) "release")
                  (Ret r))
          (trace_of (create_release_draft script_dir version pr files w))).
Proof.
  split.
  - intros e v d p t Hin.
    destruct (create_release_draft_calls version pr files w Logic.I) as (_ & Hq & _).
    rewrite Forall_forall in Hq. apply Hq. by apply list_elem_of_In.
  - unfold create_release_draft.
    repeat (rewrite bind_eq; cbn;
            try (rewrite perform_eq;
                 match goal with
                 | |- context [handle ?c ?w0] =>
                     let r := fresh "r" in
                     destruct (handle c w0) as [r ?]; cbn;
                     destruct r as [?|?|]; cbn; [|intros ? [=]..]
                 end)).
    intros r [= <-]. eexists.
    cbn. repeat (first [left; reflexivity | right]).
Qed.

End Draft.

(** ** The CI gate *)

Section Gate.
Context {W : Type} `{Collaborators W}.

Lemma keys3_summary0 : keys3 summary0.
Proof. by repeat split. Qed.

(** The tally neither calls nor prints. *)
Lemma tally_pure statuses summary (w : W) :
  tally statuses summary w = ([], result_of (tally statuses summary w), w).
Proof.
  revert summary. induction statuses as [|d rest IH]; intros summary; cbn [tally].
  - reflexivity.
  - rewrite !bind_eq. unfold getitem.
    destruct (summary !! st_state d) as [n|]; cbn; [|reflexivity].
    specialize (IH (<[st_state d := n + 1]> summary)).
    destruct (tally rest (<[st_state d := n + 1]> summary) w) as [[t r] w1].
    cbn in *. by injection IH as -> ->.
Qed.

Lemma tally_ok statuses summary (w : W) :
  Forall check_state_ok statuses -> keys3 summary ->
  exists summary', result_of (tally statuses summary w) = Ret summary' /\ keys3 summary'.
Proof.
  intros Hs. revert summary.
  induction Hs as [|d rest Hd _ IH]; intros summary Hk; cbn [tally].
  - by exists summary.
  - rewrite bind_eq. unfold getitem.
    assert (Hin : is_Some (summary !! st_state d)).
    { destruct Hk as (? & ? & ?). by destruct Hd as [-> | [-> | ->]]. }
    destruct Hin as [n Hn]. rewrite Hn. cbn.
    apply IH. destruct Hk as (? & ? & ?).
    repeat split; apply lookup_insert_is_Some'; by right.
Qed.

Lemma format_summary_ok summary (w : W) :
  keys3 summary ->
  exists line, format_summary summary w = ([], Ret line, w).
Proof.
  intros ([p Hp] & [s Hs] & [f Hf]). unfold format_summary, getitem.
  rewrite bind_eq, Hp. cbn. rewrite bind_eq, Hs. cbn. rewrite bind_eq, Hf. cbn.
  eauto.
Qed.

Lemma format_summary_pure summary (w : W) :
  format_summary summary w = ([], result_of (format_summary summary w), w).
Proof.
  unfold format_summary, getitem.
  rewrite bind_eq. destruct (summary !! "pending"); cbn; [|reflexivity].
  rewrite bind_eq. destruct (summary !! "success"); cbn; [|reflexivity].
  rewrite bind_eq. destruct (summary !! "failure"); cbn; reflexivity.
Qed.


Lemma monitor_poll_success commit (w : W) st w' :
  handle (Commit_get_combined_status commit) w = (Ret st, w') ->
  cs_state st = "success" ->
  monitor_poll commit w =
  ([EvCall (Commit_get_combined_status commit) (Ret st);
    EvPrint (pretty (cs_total_count st) +:+ " successes: all clear!")],
   Ret (Some true), w').
Proof.
  intros E Hs. unfold monitor_poll. rewrite bind_eq, perform_eq, E. cbn.
  rewrite Hs. cbn. reflexivity.
Qed.

Lemma monitor_poll_pending commit (w : W) st w' :
  handle (Commit_get_combined_status commit) w = (Ret st, w') ->
  cs_state st = "pending" ->
  Forall check_state_ok (cs_statuses st) ->
  exists line,
    monitor_poll commit w =
    (if Nat.eqb (cs_total_count st) 0
     then ([EvCall (Commit_get_combined_status commit) (Ret st); EvPrint line],
           Ret (Some true), w')
     else ([EvCall (Commit_get_combined_status commit) (Ret st); EvPrint line;
            EvSleep 30],
           Ret None, w')).
Proof.
  intros E Hp Hok. unfold monitor_poll. rewrite bind_eq, perform_eq, E. cbn.
  rewrite Hp. cbn.
  destruct (tally_ok _ summary0 w' Hok keys3_summary0) as (summary & Ht & Hk).
  destruct (format_summary_ok summary w' Hk) as [line Hl].
  exists line.
  rewrite bind_eq, tally_pure, Ht. cbn.
  rewrite bind_eq, Hl. cbn.
  destruct (Nat.eqb (cs_total_count st) 0); reflexivity.
Qed.

(** *** The spec's aggregate *)

Lemma aggregate_success checks :
  Forall check_state_ok checks -> aggregate_state checks = "success" ->
  Forall (fun d => st_state d = "success") checks.
Proof.
  unfold aggregate_state, has_state. intros Hok Hs.
  destruct (existsb _ checks) eqn:Hp; [discriminate Hs|].
  destruct (existsb (fun d => String.eqb (st_state d) "failure") checks) eqn:Hf;
    [discriminate Hs|].
  clear Hs. induction Hok as [|d rest Hd _ IH]; [constructor|].
  cbn in Hp, Hf. apply orb_false_iff in Hp as [Hp1 Hp2].
  apply orb_false_iff in Hf as [Hf1 Hf2].
  constructor; [|by apply IH].
  apply String.eqb_neq in Hp1, Hf1. by destruct Hd as [?|[?|?]].
Qed.

(** *** Polls and the loop *)

Lemma monitor_poll_cases commit (w : W) :
  (exists st line w',
     monitor_poll commit w =
     ([EvCall (Commit_get_combined_status commit) (Ret st); EvPrint line],
      Ret (Some true), w') /\
     (cs_state st = "success" \/ cs_state st = "pending" /\ cs_total_count st = 0)) \/
  result_of (monitor_poll commit w) = Ret None \/
  (forall a, result_of (monitor_poll commit w) <> Ret a).
Proof.
  unfold monitor_poll. rewrite bind_eq, perform_eq.
  destruct (handle (Commit_get_combined_status commit) w) as [[st|e|] w']; cbn;
    [|by right; right..].
  destruct (String.eqb (cs_state st) "pending") eqn:Hp.
  - apply String.eqb_eq in Hp.
    rewrite bind_eq, tally_pure. cbn.
    destruct (result_of (tally (cs_statuses st) summary0 w')) as [summary|e|]; cbn;
      [|by right; right..].
    rewrite bind_eq, format_summary_pure. cbn.
    destruct (result_of (format_summary summary w')) as [line|e|]; cbn;
      [|by right; right..].
    destruct (Nat.eqb (cs_total_count st) 0) eqn:Hz; cbn.
    + left. apply Nat.eqb_eq in Hz. exists st, line, w'. eauto.
    + right. by left.
  - destruct (String.eqb (cs_state st) "success") eqn:Hs; cbn.
    + left. apply String.eqb_eq in Hs. eexists st, _, w'. eauto.
    + right. by right.
Qed.

Lemma monitor_loop_returns fuel commit (w : W) b :
  result_of (monitor_loop fuel commit w) = Ret b ->
  b = true /\
  exists t st line,
    trace_of (monitor_loop fuel commit w) =
    t ++ [EvCall (Commit_get_combined_status commit) (Ret st); EvPrint line] /\
    (cs_state st = "success" \/ cs_state st = "pending" /\ cs_total_count st = 0).
Proof.
  revert w. induction fuel as [|fuel IH]; intros w; cbn [monitor_loop].
  - discriminate.
  - rewrite bind_eq.
    destruct (monitor_poll_cases commit w) as [(st & line & w' & E & Hst)|[E|E]].
    + rewrite E. cbn. intros [= <-]. split; [done|].
      exists [], st, line. by split.
    + rewrite E. intros Hr. cbn in Hr. destruct (IH _ Hr) as (-> & t & st & line & Et & Hst).
      split; [done|]. cbn.
      exists (trace_of (monitor_poll commit w) ++ t), st, line.
      rewrite Et. by rewrite (assoc_L (++)).
    + destruct (result_of (monitor_poll commit w)) as [[b'|]|e|] eqn:Er; cbn;
        try discriminate; by destruct (E _ eq_refl).
Qed.

(** C3. A poll that finds a commit without status checks returns success
    at once: the loop returns [True] after that single poll, without
    sleeping.  And whenever the gate returns, it returns [True], and the
    status of its last poll had no checks or was reported as success; when
    that status is the spec's aggregate of its checks, every check is in
    state [success]. *)
Theorem ci_gate_success fuel :
  (forall commit (w : W) st w',
     handle (Commit_get_combined_status commit) w = (Ret st, w') ->
     zero_checks st ->
     exists line,
       monitor_loop (S fuel) commit w =
       ([EvCall (Commit_get_combined_status commit) (Ret st); EvPrint line],
        Ret true, w')) /\
  (forall pr (w : W) b,
     result_of (monitor_pr_status fuel pr w) = Ret b ->
     b = true /\
     exists t commit st line,
       trace_of (monitor_pr_status fuel pr w) =
       t ++ [EvCall (Commit_get_combined_status commit) (Ret st); EvPrint line] /\
       (cs_total_count st = 0 \/ cs_state st = "success") /\
       (follows_aggregate st ->
        Forall (fun d => st_state d = "success") (cs_statuses st))).
Proof.
  split.
  - intros commit w st w' E (Hnil & Hzero & [Hp|Hs]); cbn [monitor_loop];
      rewrite bind_eq.
    + destruct (monitor_poll_pending commit w st w' E Hp) as [line El].
      { rewrite Hnil. constructor. }
      rewrite Hzero in El. cbn in El. rewrite El. cbn. by exists line.
    + rewrite (monitor_poll_success commit w st w' E Hs). cbn. eauto.
  - intros pr w b. unfold monitor_pr_status.
    rewrite bind_eq. cbn.
    rewrite bind_eq, perform_eq.
    destruct (handle (PR_get_commits pr) w) as [[commits|e|] w1]; cbn;
      try discriminate.
    rewrite bind_eq.
    destruct (rev commits) as [|commit ?]; cbn; try discriminate.
    intros Hr. destruct (monitor_loop_returns _ _ _ _ Hr) as (-> & t & st & line & Et & Hst).
    split; [done|].
    exists (EvPrint "Waiting for CI to complete..." :: EvCall (PR_get_commits pr) (Ret commits) :: t),
      commit, st, line.
    rewrite Et. split; [done|]. split; [tauto|].
    intros [Hagg Hok]. destruct Hst as [Hs|[_ Hz]].
    + apply aggregate_success; [done|]. rewrite Hagg in Hs. exact Hs.
    + rewrite Hagg in Hz. cbn in Hz. by destruct (cs_statuses st).
Qed.

End Gate.

(** ** A public release is modified only after the operator confirms *)

Section PublicRelease.
Context {W : Type} `{Collaborators W}.

Lemma quiet_no_lookup e : Qquiet e -> no_lookup e.
Proof.
  unfold Qquiet, quiet, no_lookup.
  destruct (is_upload e), (is_delete_assets e), (is_find_release e),
    (is_confirm_public e); cbn; by try discriminate.
Qed.

Lemma quiet_keeps_assets e : Qquiet e -> keeps_assets e.
Proof.
  unfold Qquiet, quiet, keeps_assets.
  destruct (is_upload e), (is_delete_assets e); cbn; by try discriminate.
Qed.

Lemma found_release_is_lookup e rel :
  found_release e = Some rel -> is_find_release e = true.
Proof. destruct e as [[] r| | | |]; try discriminate. done. Qed.

Lemma confirm_answer_is_confirm e s :
  confirm_answer e = Some s -> is_confirm_public e = true.
Proof.
  destruct e as [[] r| | | |]; try discriminate. cbn.
  destruct r; try discriminate. by destruct (String.eqb _ _).
Qed.

Lemma no_lookup_found t e rel :
  Forall no_lookup t -> In e t -> found_release e = Some rel -> False.
Proof.
  intros Ht Hin Hf. rewrite Forall_forall in Ht.
  destruct (Ht e (proj2 (list_elem_of_In _ _) Hin)) as [Hl _].
  apply found_release_is_lookup in Hf. congruence.
Qed.

Lemma no_lookup_answer t e s :
  Forall no_lookup t -> In e t -> confirm_answer e = Some s -> False.
Proof.
  intros Ht Hin Hf. rewrite Forall_forall in Ht.
  destruct (Ht e (proj2 (list_elem_of_In _ _) Hin)) as [_ Hl].
  apply confirm_answer_is_confirm in Hf. congruence.
Qed.

Lemma keeps_assets_touch t e :
  Forall keeps_assets t -> In e t ->
  is_delete_assets e = true \/ is_upload e = true -> False.
Proof.
  intros Ht Hin Hf. rewrite Forall_forall in Ht.
  destruct (Ht e (proj2 (list_elem_of_In _ _) Hin)) as [? ?].
  destruct Hf; congruence.
Qed.

(** A run without lookups guards trivially. *)
Lemma guards_no_lookup {A} (x : list event * outcome A * W) :
  Forall no_lookup (trace_of x) -> guards_public_release x.
Proof.
  intros Hq rel (e & Hin & Hf). destruct (no_lookup_found _ _ _ Hq Hin Hf).
Qed.

(** Steps that are quiet can come first. *)
Lemma guards_bind {A B} (m : M W A) (f : A -> M W B) :
  triple Itrue Qquiet m any ->
  (forall a w, guards_public_release (f a w)) ->
  forall w, guards_public_release (bind m f w).
Proof.
  intros Hm Hf w. destruct (Hm w Logic.I) as (_ & Hq & _).
  assert (Hnl : Forall no_lookup (trace_of (m w))).
  { eapply Forall_impl; [exact Hq|]. apply quiet_no_lookup. }
  assert (Hka : Forall keeps_assets (trace_of (m w))).
  { eapply Forall_impl; [exact Hq|]. apply quiet_keeps_assets. }
  rewrite bind_eq.
  destruct (result_of (m w)) as [a|e|]; [|by apply guards_no_lookup..].
  specialize (Hf a (world_of (m w))).
  set (y := f a (world_of (m w))) in *.
  intros rel (e & Hin & Hfound) Hd. cbn in Hin.
  apply in_app_iff in Hin as [Hin|Hin]; [destruct (no_lookup_found _ _ _ Hnl Hin Hfound)|].
  destruct (Hf rel (ex_intro _ e (conj Hin Hfound)) Hd) as [H1 H2].
  split.
  - intros s (e' & Hin' & Hans) Hs. cbn in Hin'.
    apply in_app_iff in Hin' as [Hin'|Hin'];
      [destruct (no_lookup_answer _ _ _ Hnl Hin' Hans)|].
    destruct (H1 s (ex_intro _ e' (conj Hin' Hans)) Hs) as (Hr & [t Ht] & Hk).
    cbn. split; [done|]. split.
    + exists (trace_of (m w) ++ t). rewrite Ht. by rewrite (assoc_L (++)).
    + by apply Forall_app.
  - intros e' Hin' Htouch. cbn in Hin'.
    apply in_app_iff in Hin' as [Hin'|Hin'];
      [destruct (keeps_assets_touch _ _ Hka Hin' Htouch)|].
    destruct (H2 e' Hin' Htouch) as (s & Hs & Hy).
    exists s. split; [|done]. cbn. apply in_app_iff. by right.
Qed.

End PublicRelease.

Section PublicReleaseResume.
Context {W : Type} `{Collaborators W}.
Variables BINTRAY_ORG NAME REPO_ROOT script_dir argv0 : string.
Variable branch_name : string -> string.

Lemma replace_assets_no_lookup gh files version :
  triple Itrue no_lookup
    (perform (delete_assets gh) ;;
     perform (upload_assets gh files) ;;
     build_images REPO_ROOT files version) any.
Proof.
  walk_with ltac:(intros ? ?; eapply call_ok_weaken;
                  [apply quiet_no_lookup|by apply fp_images_quiet]).
Qed.

Lemma create_release_draft_no_lookup version pr files :
  triple Itrue no_lookup (create_release_draft script_dir version pr files) any.
Proof.
  walk_with ltac:(intros ? ?; eapply call_ok_weaken;
                  [apply quiet_no_lookup|by apply fp_draft_quiet]).
Qed.

Lemma triple_trace {A} (Q : event -> Prop) (m : M W A) w :
  triple Itrue Q m any -> Forall Q (trace_of (m w)).
Proof. intros Hm. by destruct (Hm w Logic.I) as (_ & Hq & _). Qed.

(** A lookup that found nothing, or a draft, followed by steps that look
    nothing up. *)
Lemma guards_lookup_then {A} ev t (res : outcome A) (w' : W) :
  (forall rel, found_release ev = Some rel -> rel_draft rel = true) ->
  Forall no_lookup t ->
  guards_public_release (ev :: t, res, w').
Proof.
  intros Hev Ht rel (e & Hin & Hf) Hd. cbn in Hin. destruct Hin as [<-|Hin].
  - rewrite (Hev rel Hf) in Hd. discriminate Hd.
  - destruct (no_lookup_found _ _ _ Ht Hin Hf).
Qed.

(** The steps of [resume] from the lookup of the release on. *)
Lemma release_stage_guards args pr files (w : W) :
  guards_public_release
    ((found_release <- perform (Repo_find_release (release args)) ;;
      gh_release <-
        match found_release with
        | None => create_release_draft script_dir (release args) pr files
        | Some r =>
            if negb (rel_draft r) then
              print "WARNING!! Found non-draft (public) release for this version!" ;;
              proceed <- perform (input ("Are you sure you wish to proceed? Modifying an already "
                                         +:+ "released version is dangerous! y/N")) ;;
              if negb (String.eqb (lower proceed) "y")
              then raise (ScriptError "Aborting release")
              else ret r
            else ret r
        end ;;
      perform (delete_assets gh_release) ;;
      perform (upload_assets gh_release files) ;;
      build_images REPO_ROOT files (release args)) w).
Proof.
  rewrite bind_eq, perform_eq.
  destruct (handle (Repo_find_release (release args)) w) as [[[r|]|e|] w1]; cbn;
    [|apply guards_lookup_then; [intros rel [=]|]..];
    [| |constructor|constructor].
  2:{ match goal with |- Forall _ (trace_of (?m w1)) => apply (triple_trace _ m) end.
      apply triple_bind_any; [apply create_release_draft_no_lookup|intros gh].
      apply replace_assets_no_lookup. }
  destruct (rel_draft r) eqn:Hdraft; cbn [negb].
  - apply guards_lookup_then; [by intros rel [= <-]|].
    match goal with |- Forall _ (trace_of (?m w1)) => apply (triple_trace _ m) end.
    apply triple_bind_any; [by apply triple_ret|intros gh].
    apply replace_assets_no_lookup.
  - rewrite bind_eq. rewrite (bind_eq (print _)). cbn.
    rewrite bind_eq, perform_eq.
    destruct (handle (input _) w1) as [[s0|e|] w2]; cbn.
    + destruct (String.eqb (lower s0) "y") eqn:Hy; cbn.
      * pose proof (triple_trace _ _ w2
                      (replace_assets_no_lookup r files (release args))) as Hrest.
        intros rel _ _. split.
        -- intros s (e & Hin & Hans) Hs. cbn in Hin.
           destruct Hin as [<-|[<-|[<-|Hin]]]; try discriminate Hans.
           ++ injection Hans as <-. apply String.eqb_eq in Hy. done.
           ++ destruct (no_lookup_answer _ _ _ Hrest Hin Hans).
        -- intros e _ _. exists s0. split; [|by apply String.eqb_eq].
           cbn. right. right. by left.
      * intros rel _ _. split.
        -- intros s (e & Hin & Hans) Hs. cbn in Hin.
           destruct Hin as [<-|[<-|[<-|[]]]]; try discriminate Hans.
           injection Hans as <-. split; [done|]. split.
           ++ by eexists [_; _].
           ++ by repeat constructor.
        -- intros e Hin Htouch. cbn in Hin.
           destruct Hin as [<-|[<-|[<-|[]]]]; by destruct Htouch.
    + intros rel _ _. split.
      * intros s (e' & Hin & Hans) Hs. cbn in Hin.
        destruct Hin as [<-|[<-|[<-|[]]]]; discriminate Hans.
      * intros e' Hin Htouch. cbn in Hin.
        destruct Hin as [<-|[<-|[<-|[]]]]; by destruct Htouch.
    + intros rel _ _. split.
      * intros s (e' & Hin & Hans) Hs. cbn in Hin.
        destruct Hin as [<-|[<-|[<-|[]]]]; discriminate Hans.
      * intros e' Hin Htouch. cbn in Hin.
        destruct Hin as [<-|[<-|[<-|[]]]]; by destruct Htouch.
Qed.

Lemma resume_try_guards fuel args (w : W) :
  guards_public_release
    (resume_try BINTRAY_ORG NAME REPO_ROOT script_dir branch_name fuel args w).
Proof.
  revert w. unfold resume_try.
  do 11 (apply guards_bind;
         [walk_with ltac:(first [apply fp_bump_quiet | apply fp_monitor_quiet])
         |intros ?]).
  intros w. apply release_stage_guards.
Qed.

Lemma resume_trace fuel args (w : W) :
  exists extra,
    trace_of (resume BINTRAY_ORG NAME REPO_ROOT script_dir argv0 branch_name fuel args w) =
    trace_of (resume_try BINTRAY_ORG NAME REPO_ROOT script_dir branch_name fuel args w)
    ++ extra /\
    Forall (fun e => is_local e = true) extra /\
    (forall msg,
       result_of (resume_try BINTRAY_ORG NAME REPO_ROOT script_dir branch_name fuel args w)
       = Raise (ScriptError msg) ->
       extra = [EvPrint msg] /\
       result_of (resume BINTRAY_ORG NAME REPO_ROOT script_dir argv0 branch_name fuel args w)
       = Ret 1%Z).
Proof.
  rewrite resume_eq.
  destruct (result_of (resume_try _ _ _ _ _ fuel args w)) as [[]|[msg| | | |]|]; cbn.
  - eexists. split; [done|]. split; [by repeat constructor|]. intros msg [=].
  - eexists. split; [done|]. split; [by repeat constructor|]. by intros msg' [= <-].
  - exists []. rewrite app_nil_r. split; [done|]. split; [constructor|]. intros msg [=].
  - exists []. rewrite app_nil_r. split; [done|]. split; [constructor|]. intros msg [=].
  - exists []. rewrite app_nil_r. split; [done|]. split; [constructor|]. intros msg [=].
  - exists []. rewrite app_nil_r. split; [done|]. split; [constructor|]. intros msg [=].
  - exists []. rewrite app_nil_r. split; [done|]. split; [constructor|]. intros msg [=].
Qed.

Lemma in_app_local e t extra :
  Forall (fun e => is_local e = true) extra ->
  is_local e = false -> In e (t ++ extra) -> In e t.
Proof.
  intros Hx He Hin. apply in_app_iff in Hin as [Hin|Hin]; [done|].
  rewrite Forall_forall in Hx.
  specialize (Hx e (proj2 (list_elem_of_In _ _) Hin)). congruence.
Qed.

(** C6. In a run of [resume] that found a release that is not a draft:
    if the operator's answer to the confirmation question is not [y] or
    [Y], [resume] prints "Aborting release" right after that answer and
    returns 1, and no call of the run has deleted or uploaded hosted
    assets; and hosted assets are deleted or uploaded only in a run where
    the operator answered affirmatively. *)
Theorem resume_asks_before_touching_public_release fuel args (w : W) rel :
  In (EvCall (Repo_find_release (release args)) (Ret (Some rel)))
     (trace_of (resume BINTRAY_ORG NAME REPO_ROOT script_dir argv0 branch_name fuel args w)) ->
  rel_draft rel = false ->
  (forall s,
     In (EvCall (input confirm_public_prompt) (Ret s))
        (trace_of (resume BINTRAY_ORG NAME REPO_ROOT script_dir argv0 branch_name fuel args w)) ->
     lower s <> "y" ->
     result_of (resume BINTRAY_ORG NAME REPO_ROOT script_dir argv0 branch_name fuel args w)
     = Ret 1%Z /\
     (exists t,
        trace_of (resume BINTRAY_ORG NAME REPO_ROOT script_dir argv0 branch_name fuel args w)
        = t ++ [EvCall (input confirm_public_prompt) (Ret s); EvPrint "Aborting release"]) /\
     Forall keeps_assets
       (trace_of (resume BINTRAY_ORG NAME REPO_ROOT script_dir argv0 branch_name fuel args w))) /\
  (forall e,
     In e (trace_of (resume BINTRAY_ORG NAME REPO_ROOT script_dir argv0 branch_name fuel args w)) ->
     is_delete_assets e = true \/ is_upload e = true ->
     exists s,
       In (EvCall (input confirm_public_prompt) (Ret s))
          (trace_of (resume BINTRAY_ORG NAME REPO_ROOT script_dir argv0 branch_name fuel args w)) /\
       lower s = "y").
Proof.
  destruct (resume_trace fuel args w) as (extra & -> & Hextra & Hmsg).
  intros Hfound Hdraft.
  apply in_app_local in Hfound; [|done..].
  destruct (resume_try_guards fuel args w rel) as [H1 H2]; [by eexists|done|].
  split.
  - intros s Hin Hs. apply in_app_local in Hin; [|done..].
    destruct (H1 s) as (Hr & [t Ht] & Hk); [by eexists|done|].
    destruct (Hmsg _ Hr) as [-> Hres]. split; [done|]. split.
    + exists t. rewrite Ht. by rewrite <- (assoc_L (++)).
    + apply Forall_app. split; [done|]. by repeat constructor.
  - intros e Hin Htouch.
    assert (Hl : is_local e = false).
    { destruct e; try done; by destruct Htouch. }
    apply in_app_local in Hin; [|done..].
    destruct (H2 e Hin Htouch) as (s & Hs & Hy).
    exists s. split; [|done]. apply in_app_iff. by left.
Qed.

End PublicReleaseResume.

(** ** Resume twice (simulated collaborators) *)

Section HoareRules.
Context {W : Type} `{Collaborators W}.

Lemma hoare_ret {A} (P : W -> Prop) (a : A) (Qp : A -> W -> Prop) :
  (forall w, P w -> Qp a w) -> hoare P (ret a) Qp.
Proof. intros Hp w Hw a' [= <-]. by apply Hp. Qed.

Lemma hoare_raise {A} (P : W -> Prop) e (Qp : A -> W -> Prop) : hoare P (raise e) Qp.
Proof. intros w _ a [=]. Qed.

Lemma hoare_bind {A B} (P : W -> Prop) (m : M W A) (f : A -> M W B) mid Qp :
  hoare P m mid -> (forall a, hoare (mid a) (f a) Qp) -> hoare P (bind m f) Qp.
Proof.
  intros Hm Hf w Hw b. rewrite bind_eq.
  destruct (result_of (m w)) as [a|e|] eqn:E; cbn; try discriminate.
  intros Hb. exact (Hf a _ (Hm w Hw a E) b Hb).
Qed.

Lemma hoare_perform (P : W -> Prop) (c : call) (Qp : answer c -> W -> Prop) :
  (forall w a w', P w -> handle c w = (Ret a, w') -> Qp a w') ->
  hoare P (perform c) Qp.
Proof.
  intros Hc w Hw a. rewrite perform_eq. cbn.
  destruct (handle c w) as [r w'] eqn:E. cbn. intros ->. by eapply Hc.
Qed.

Lemma hoare_triple {A} (I : W -> Prop) Q (m : M W A) :
  triple I Q m any -> hoare I m (fun _ => I).
Proof. intros Hm w Hw a _. by destruct (Hm w Hw). Qed.

Lemma hoare_conseq {A} (P P' : W -> Prop) (m : M W A) (Qp Qp' : A -> W -> Prop) :
  hoare P m Qp -> (forall w, P' w -> P w) -> (forall a w, Qp a w -> Qp' a w) ->
  hoare P' m Qp'.
Proof. intros Hm Hp Hq w Hw a E. apply Hq. apply Hm; auto. Qed.

End HoareRules.

Section SimFacts.
Import Sim.

Lemma sim_neutral (c : call) (w : World) :
  neutral c = true ->
  w_repo (handle c w).2 = w_repo w /\ w_host (handle c w).2 = w_host w.
Proof.
  destruct c; try discriminate; intros _; cbn;
    repeat case_match; done.
Qed.

Lemma neutral_not_creation (c : call) r :
  neutral c = true -> no_creation (EvCall c r).
Proof. by destruct c. Qed.

Lemma neutral_call_ok P (Q : event -> Prop) (c : call) :
  neutral c = true -> (forall r, Q (EvCall c r)) ->
  call_ok (on_state P) Q c.
Proof.
  intros Hn Hq w Hw. destruct (sim_neutral c w Hn) as [E1 E2].
  unfold on_state in *. rewrite E1, E2. by split.
Qed.

Lemma find_pr_new version pr l :
  is_Some (find_pr version (l ++ [(version, pr, true)])).
Proof.
  unfold find_pr. induction l as [|x l IH]; cbn.
  - by rewrite String.eqb_refl.
  - destruct (String.eqb x.1.1 version && x.2); [done|exact IH].
Qed.

Lemma find_rel_new version r l :
  rel_version r = version -> is_Some (find_rel version (l ++ [r])).
Proof.
  intros <-. unfold find_rel. induction l as [|x l IH]; cbn.
  - by rewrite String.eqb_refl.
  - destruct (String.eqb (rel_version x) (rel_version r)); [done|exact IH].
Qed.

Lemma diff_text_empty r : diff_text r = "" -> tree r = committed r.
Proof. unfold diff_text. by destruct (decide (tree r = committed r)). Qed.

Lemma diff_text_clean r : tree r = committed r -> diff_text r = "".
Proof. unfold diff_text. by destruct (decide (tree r = committed r)). Qed.

End SimFacts.

Ltac perform_post :=
  match goal with
  | |- triple _ _ (perform ?c) _ => refine (triple_perform _ _ c _ _)
  end.

Ltac fp_neutral :=
  let c := fresh "c" in
  let Hc := fresh "Hc" in
  intros c Hc; apply neutral_call_ok;
  [by destruct c | intros ?; first [exact Logic.I | by destruct c]].

Ltac solve_local' :=
  let e := fresh "e" in
  intros e; destruct e; intros; first [exact Logic.I | discriminate | reflexivity].

Ltac state_walk :=
  repeat first
    [ apply triple_ret; exact Logic.I
    | apply triple_raise
    | apply triple_print; [solve_local']
    | apply triple_getitem
    | apply triple_first_item
    | apply check_pr_mergeable_triple; [solve_local']
    | apply build_log_triple; [solve_local']
    | match goal with
      | |- triple _ _ (perform ?c) _ =>
          refine (triple_call _ _ c _); apply neutral_call_ok;
          [reflexivity | intros ?; first [exact Logic.I | reflexivity]]
      | |- triple _ _ (confirm_changes _ _) _ =>
          apply confirm_changes_triple; [solve_local'|fp_neutral]
      | |- triple _ _ (monitor_pr_status _ _) _ =>
          apply monitor_pr_status_triple; [solve_local'|fp_neutral]
      | |- triple _ _ (build_images _ _ _) _ =>
          apply build_images_triple; [solve_local'|fp_neutral]
      end
    | apply triple_bind_any; [|intros ?]
    | match goal with
      | |- triple _ _ (if ?b then _ else _) _ => destruct b
      | |- triple _ _ (match ?x with _ => _ end) _ => destruct x
      end ].

Section ResumeTwice.
Import Sim.
Variables BINTRAY_ORG NAME REPO_ROOT script_dir argv0 : string.

Lemma set_tree_same (r : Repo) t : tree r = t -> set_tree t r = r.
Proof. intros <-. by destruct r. Qed.

(** *** The second run *)

Lemma bump_again fuel br user version repo1 host1 :
  head_name br = branch_name version ->
  bumped version repo1 host1 ->
  triple (keeps repo1 host1) no_creation
         (create_bump_commit BINTRAY_ORG fuel br user) any.
Proof.
  intros Hbr (rel & Hcfg & Htree & Hcm). unfold create_bump_commit.
  eapply triple_bind with (mid := fun a => a = rel).
  { perform_post. intros w [E1 E2]. cbn in *.
    rewrite E1, Hbr, Hcfg. cbn. split; [done|]. split; [done|]. by intros a [= <-]. }
  intros a ->.
  apply triple_bind_any; [state_walk|intros _].
  apply triple_bind_any.
  { refine (triple_call _ _ (update_run_sh_version rel) _). intros w [E1 E2]. cbn in *.
    split; [|done]. split; [|done].
    rewrite E1. apply set_tree_same. by rewrite Htree. }
  intros _. apply triple_bind_any.
  { refine (triple_call _ _ (update_init_py_version rel) _). intros w [E1 E2]. cbn in *.
    split; [|done]. split; [|done].
    rewrite E1. apply set_tree_same. by rewrite Htree. }
  intros _.
  apply triple_bind_any; [state_walk|intros _].
  apply triple_bind_any; [state_walk|intros _].
  eapply triple_bind with (mid := fun d => d = "").
  { perform_post. intros w [E1 E2]. cbn in *.
    split; [done|]. split; [done|]. intros a [= <-].
    rewrite E1. apply diff_text_clean. congruence. }
  intros d ->. cbn [truthy_str String.eqb negb].
  state_walk.
Qed.

Lemma resume_try_again fuel args repo1 host1 :
  settled (release args) repo1 host1 ->
  triple (keeps repo1 host1) no_creation
         (resume_try BINTRAY_ORG NAME REPO_ROOT script_dir branch_name fuel args) any.
Proof.
  intros [[Hb [pr Hpr]] [rel Hrel]]. unfold resume_try.
  do 3 (apply triple_bind_any; [state_walk|intros ?]).
  eapply triple_bind with (mid := fun br => head_name br = branch_name (release args)).
  { perform_post. intros w [E1 E2]. cbn in *.
    destruct (has _ _); cbn; (split; [done|]); (split; [done|]); by intros ? [= <-]. }
  intros br Hbr.
  apply triple_bind_any; [by eapply bump_again|intros _].
  eapply triple_bind with (mid := fun found => found = Some pr).
  { perform_post. intros w [E1 E2]. cbn in *.
    split; [done|]. split; [done|]. intros ? [= <-]. by rewrite E2. }
  intros ? ->.
  do 5 (apply triple_bind_any; [state_walk|intros ?]).
  eapply triple_bind with (mid := fun found => found = Some rel).
  { perform_post. intros w [E1 E2]. cbn in *.
    split; [done|]. split; [done|]. intros ? [= <-]. by rewrite E2. }
  intros ? ->.
  state_walk.
Qed.

(** *** The first run *)

Ltac hoare_call :=
  match goal with
  | |- hoare _ (perform ?c) _ => refine (hoare_perform _ c _ _)
  end.

Ltac keep_state :=
  match goal with
  | |- hoare ?P ?m _ =>
      eapply hoare_conseq; [apply (hoare_triple P Qany m); state_walk|done|done]
  end.

Lemma bump_settles fuel br user version :
  head_name br = branch_name version ->
  hoare (fun _ : World => True) (create_bump_commit BINTRAY_ORG fuel br user)
        (fun _ => on_state (bumped version)).
Proof.
  intros Hbr. unfold create_bump_commit.
  eapply hoare_bind with
    (mid := fun rel => on_state (fun r h => config r !! branch_name version = Some rel)).
  { hoare_call. intros w x w' _ E. cbn in E. rewrite Hbr in E.
    destruct (config (w_repo w) !! branch_name version) as [v|] eqn:Hc;
      [|discriminate E].
    injection E as -> ->. exact Hc. }
  intros rel.
  eapply hoare_bind; [keep_state|intros ?].
  eapply hoare_bind with
    (mid := fun _ => on_state (fun r h => config r !! branch_name version = Some rel
                                          /\ (tree r).1 = rel)).
  { hoare_call. intros w x w' Hc [= _ <-]. by split. }
  intros _.
  eapply hoare_bind with
    (mid := fun _ => on_state (fun r h => config r !! branch_name version = Some rel
                                          /\ tree r = (rel, rel))).
  { hoare_call. intros w x w' [Hc Ht] [= _ <-]. split; [done|].
    unfold on_state. cbn. by rewrite Ht. }
  intros _.
  eapply hoare_bind; [keep_state|intros ?].
  eapply hoare_bind; [keep_state|intros ?].
  eapply hoare_bind with
    (mid := fun d w => on_state (fun r h => config r !! branch_name version = Some rel
                                            /\ tree r = (rel, rel)) w
                       /\ d = diff_text (w_repo w)).
  { hoare_call. intros w x w' Hw [= <- <-]. by split. }
  intros d.
  eapply hoare_bind with
    (mid := fun _ => on_state (fun r h => config r !! branch_name version = Some rel
                                          /\ tree r = (rel, rel)
                                          /\ committed r = (rel, rel))).
  { destruct (truthy_str d) eqn:Hd.
    - hoare_call. intros w x w' [[Hc Ht] _] [= _ <-].
      unfold on_state. cbn. by repeat split.
    - apply hoare_ret. intros w [[Hc Ht] ->].
      unfold truthy_str in Hd. apply negb_false_iff, String.eqb_eq in Hd.
      apply diff_text_empty in Hd. unfold on_state. repeat split; congruence. }
  intros _.
  eapply hoare_conseq with
    (Qp := fun _ => on_state (fun r h => config r !! branch_name version = Some rel
                                         /\ tree r = (rel, rel)
                                         /\ committed r = (rel, rel)));
    [| done |].
  - match goal with
    | |- hoare ?P ?m _ => apply (hoare_triple P Qany m); state_walk
    end.
  - intros _ w Hw. by exists rel.
Qed.

Lemma release_draft_settles version pr files :
  hoare (on_state (with_pr version))
        (create_release_draft script_dir version pr files)
        (fun _ => on_state (settled version)).
Proof.
  unfold create_release_draft.
  do 8 (eapply hoare_bind; [keep_state|intros ?]).
  eapply hoare_bind with (mid := fun _ => on_state (settled version)).
  { hoare_call. intros w x w' Hw [= _ <-].
    unfold on_state, settled in *. cbn. split; [done|]. by apply find_rel_new. }
  intros gh. keep_state.
Qed.

Lemma resume_try_settles fuel args :
  hoare (fun _ : World => True)
        (resume_try BINTRAY_ORG NAME REPO_ROOT script_dir branch_name fuel args)
        (fun _ => on_state (settled (release args))).
Proof.
  unfold resume_try.
  do 3 (eapply hoare_bind with (mid := fun _ _ => True); [done|intros ?]).
  eapply hoare_bind with
    (mid := fun br _ => head_name br = branch_name (release args)).
  { hoare_call. intros w x w' _ E. cbn in E.
    destruct (has _ _); [|discriminate E]. by injection E as <- _. }
  intros br.
  eapply hoare_bind with (mid := fun _ => on_state (bumped (release args))).
  { intros w Hbr. by apply (bump_settles fuel br _ _ Hbr w). }
  intros _.
  eapply hoare_bind with
    (mid := fun found w => on_state (bumped (release args)) w /\
                           found = find_pr (release args) (prs (w_host w))).
  { hoare_call. intros w x w' Hw [= <- <-]. by split. }
  intros found.
  eapply hoare_bind with (mid := fun _ => on_state (with_pr (release args))).
  { destruct found as [pr|].
    - apply hoare_ret. intros w [Hb Hf]. split; [done|]. by rewrite <- Hf.
    - hoare_call. intros w x w' [Hb _] [= _ <-].
      split; [done|]. cbn. apply find_pr_new. }
  intros pr.
  do 4 (eapply hoare_bind; [keep_state|intros ?]).
  eapply hoare_bind with
    (mid := fun found w => on_state (with_pr (release args)) w /\
                           found = find_rel (release args) (releases (w_host w))).
  { hoare_call. intros w x w' Hw [= <- <-]. by split. }
  intros found_release.
  eapply hoare_bind with (mid := fun _ => on_state (settled (release args))).
  { destruct found_release as [r|].
    - eapply hoare_conseq with (P := on_state (settled (release args)))
                               (Qp := fun _ => on_state (settled (release args)));
        [|by intros w [Hw Hf]; split; [|rewrite <- Hf]|done].
      match goal with
      | |- hoare ?P ?m _ => apply (hoare_triple P Qany m); state_walk
      end.
    - eapply hoare_conseq; [apply release_draft_settles|by intros w [? _]|done]. }
  intros gh. keep_state.
Qed.

(** *** Both runs *)

Lemma resume_triple (I : World -> Prop) (Q : event -> Prop) fuel args :
  (forall e, is_local e = true -> Q e) ->
  triple I Q (resume_try BINTRAY_ORG NAME REPO_ROOT script_dir branch_name fuel args) any ->
  triple I Q (resume BINTRAY_ORG NAME REPO_ROOT script_dir argv0 branch_name fuel args) any.
Proof.
  intros Hl Ht. unfold resume, except_clause, print_final_instructions.
  apply triple_bind_any.
  - apply triple_try.
    + apply triple_bind_any; [exact Ht|]. intros _. by apply triple_ret.
    + intros msg. apply triple_bind_any; [by apply triple_print|].
      intros _. by apply triple_ret.
  - intros [code|]; [by apply triple_ret|].
    apply triple_bind_any; [by apply triple_print|]. intros _. by apply triple_ret.
Qed.

Lemma resume_completed fuel args (w : World) :
  result_of (resume BINTRAY_ORG NAME REPO_ROOT script_dir argv0 branch_name fuel args w)
  = Ret 0%Z ->
  on_state (settled (release args))
    (world_of (resume BINTRAY_ORG NAME REPO_ROOT script_dir argv0 branch_name fuel args w)).
Proof.
  rewrite resume_eq.
  pose proof (resume_try_settles fuel args w Logic.I) as Hs.
  destruct (result_of (resume_try _ _ _ _ _ fuel args w)) as [[]|[msg| | | |]|];
    cbn; try discriminate.
  intros _. exact (Hs tt eq_refl).
Qed.

(** C4. On the simulated collaborators: after a [resume] that completed
    with outcome 0, a pull request and a release record are found for the
    version, and a second [resume] from the state the first one left makes
    no call that creates a bump commit, a pull request or a release
    record, and leaves the version control side (branches, stored version,
    version files, last commit, bump commits) and the code hosting side
    (pull requests, release records) as the first run left them, however
    the second run ends. *)
Theorem resume_twice fuel1 fuel2 args (w : World) :
  result_of (resume BINTRAY_ORG NAME REPO_ROOT script_dir argv0 branch_name fuel1 args w)
  = Ret 0%Z ->
  is_Some (find_pr (release args)
             (prs (w_host (world_of (resume BINTRAY_ORG NAME REPO_ROOT script_dir argv0
                                            branch_name fuel1 args w))))) /\
  is_Some (find_rel (release args)
             (releases (w_host (world_of (resume BINTRAY_ORG NAME REPO_ROOT script_dir argv0
                                                 branch_name fuel1 args w))))) /\
  Forall no_creation
    (trace_of (resume BINTRAY_ORG NAME REPO_ROOT script_dir argv0 branch_name fuel2 args
                 (world_of (resume BINTRAY_ORG NAME REPO_ROOT script_dir argv0
                                   branch_name fuel1 args w)))) /\
  w_repo (world_of (resume BINTRAY_ORG NAME REPO_ROOT script_dir argv0 branch_name fuel2 args
                      (world_of (resume BINTRAY_ORG NAME REPO_ROOT script_dir argv0
                                        branch_name fuel1 args w))))
  = w_repo (world_of (resume BINTRAY_ORG NAME REPO_ROOT script_dir argv0
                             branch_name fuel1 args w)) /\
  w_host (world_of (resume BINTRAY_ORG NAME REPO_ROOT script_dir argv0 branch_name fuel2 args
                      (world_of (resume BINTRAY_ORG NAME REPO_ROOT script_dir argv0
                                        branch_name fuel1 args w))))
  = w_host (world_of (resume BINTRAY_ORG NAME REPO_ROOT script_dir argv0
                             branch_name fuel1 args w)).
Proof.
  intros Hdone. apply resume_completed in Hdone.
  set (w1 := world_of (resume _ _ _ _ _ _ fuel1 args w)) in *.
  pose proof Hdone as [[_ Hpr] Hrel].
  split; [done|]. split; [done|].
  destruct (resume_triple (keeps (w_repo w1) (w_host w1)) no_creation fuel2 args)
    with (w := w1) as ([Hr Hh] & Hq & _).
  - intros e He. by destruct e.
  - by apply resume_try_again.
  - by split.
  - by repeat split.
Qed.

End ResumeTwice.

(** ** The loop budget only bounds the number of turns *)

Section Budget.
Context {W : Type} `{Collaborators W}.

Lemma stable_const {A} (m : M W A) : budget_stable (fun _ => m).
Proof. by intros n k w _. Qed.

Lemma stable_bind {A B} (F : nat -> M W A) (G : A -> nat -> M W B) :
  budget_stable F -> (forall a, budget_stable (G a)) ->
  budget_stable (fun n => bind (F n) (fun a => G a n)).
Proof.
  intros HF HG n k w. cbn beta. rewrite !bind_eq.
  destruct (result_of (F n w)) as [a|e|] eqn:E.
  - rewrite (HF n k w) by (rewrite E; discriminate). rewrite E. cbn.
    intros Hr. by rewrite (HG a n k _ Hr).
  - rewrite (HF n k w) by (rewrite E; discriminate). by rewrite E.
  - intros Hr. by destruct Hr.
Qed.

Lemma stable_try {A} (F : nat -> M W A) handler :
  budget_stable F ->
  budget_stable (fun n => try_except_ScriptError (F n) handler).
Proof.
  intros HF n k w. unfold try_except_ScriptError.
  destruct (F n w) as [[t r] w1] eqn:E.
  destruct r as [a|e|]; cbn.
  - intros _. rewrite (HF n k w) by (rewrite E; discriminate). by rewrite E.
  - intros _. rewrite (HF n k w) by (rewrite E; discriminate). by rewrite E.
  - intros Hr. by destruct Hr.
Qed.

Lemma bind_ext_run {A B} (m : M W A) (g g' : A -> M W B) w :
  (forall a w1, result_of (g a w1) <> Diverge -> g' a w1 = g a w1) ->
  result_of (bind m g w) <> Diverge -> bind m g' w = bind m g w.
Proof.
  intros Hg. rewrite !bind_eq.
  destruct (result_of (m w)) as [a|e|]; cbn; try done.
  intros Hr. by rewrite (Hg a _ Hr).
Qed.

Lemma confirm_changes_stable proceed :
  budget_stable (fun n => confirm_changes n proceed).
Proof.
  intros n. revert proceed.
  induction n as [|n IH]; intros proceed k w; cbn [confirm_changes Nat.add].
  - destruct (String.eqb (lower proceed) "y") eqn:Hy.
    + intros _. destruct k; cbn [confirm_changes]; by rewrite Hy.
    + intros Hr. by destruct Hr.
  - destruct (String.eqb (lower proceed) "y"); [done|].
    apply bind_ext_run. intros d w1.
    apply bind_ext_run. intros _ w2.
    apply bind_ext_run. intros proceed' w3. apply IH.
Qed.

Lemma monitor_loop_stable commit :
  budget_stable (fun n => monitor_loop n commit).
Proof.
  intros n. induction n as [|n IH]; intros k w; cbn [monitor_loop Nat.add].
  - intros Hr. by destruct Hr.
  - apply bind_ext_run. intros [b|] w1; [done|]. apply IH.
Qed.

Variables BINTRAY_ORG NAME REPO_ROOT script_dir argv0 : string.
Variable branch_name : string -> string.

Ltac stable_walk :=
  repeat first
    [ apply confirm_changes_stable
    | apply monitor_loop_stable
    | apply stable_const
    | apply stable_bind; [|intros ?] ].

Lemma create_bump_commit_stable br user :
  budget_stable (fun n => create_bump_commit BINTRAY_ORG n br user).
Proof. unfold create_bump_commit. stable_walk. Qed.

Lemma monitor_pr_status_stable pr :
  budget_stable (fun n => monitor_pr_status n pr).
Proof. unfold monitor_pr_status. stable_walk. Qed.

Lemma resume_try_stable args :
  budget_stable (fun n => resume_try BINTRAY_ORG NAME REPO_ROOT script_dir branch_name n args).
Proof.
  unfold resume_try.
  repeat first
    [ apply create_bump_commit_stable
    | apply monitor_pr_status_stable
    | apply stable_const
    | apply stable_bind; [|intros ?] ].
Qed.

(** A run of [resume] that returns or raises is the same run with any
    larger budget of loop turns. *)
Lemma resume_budget args :
  budget_stable (fun n => resume BINTRAY_ORG NAME REPO_ROOT script_dir argv0 branch_name n args).
Proof.
  unfold resume.
  apply (stable_bind
           (fun n => try_except_ScriptError
                       (resume_try BINTRAY_ORG NAME REPO_ROOT script_dir branch_name n args ;;
                        ret None) except_clause)
           (fun returned _ => match returned with
                              | Some code => ret code
                              | None => print_final_instructions argv0 args ;; ret 0%Z
                              end)).
  - apply stable_try.
    apply (stable_bind
             (fun n => resume_try BINTRAY_ORG NAME REPO_ROOT script_dir branch_name n args)
             (fun _ _ => ret None)).
    + apply resume_try_stable.
    + intros _. apply stable_const.
  - intros returned. apply stable_const.
Qed.

End Budget.

Ltac run_simpl :=
  cbn [trace_of result_of world_of fst snd ret raise emit print print_noend
       print_err sleep first_item app].

(** ** The entry point *)

Section Main.
Context {W : Type} `{Collaborators W}.
Variables BINTRAY_ORG NAME REPO_ROOT script_dir argv0 : string.
Variable branch_name : string -> string.

Lemma prepend_bind {B} (c : call) (f : answer c -> M W B) (w : W) a w1 :
  handle c w = (Ret a, w1) ->
  bind (perform c) f w = prepend [EvCall c (Ret a)] (f a w1).
Proof. intros E. rewrite bind_eq, perform_eq, E. reflexivity. Qed.

(** X1. [main] checks the two credentials before anything else: when
    [GITHUB_TOKEN] is not in the environment it prints that it must be
    set and returns 1 after that single lookup; when [GITHUB_TOKEN] is
    there and [BINTRAY_TOKEN] is not, it does the same after the second
    lookup.  The command line is not parsed and no action runs. *)
Theorem main_requires_tokens fuel (w : W) :
  ((handle (os_environ_has "GITHUB_TOKEN") w).1 = Ret false ->
   main BINTRAY_ORG NAME REPO_ROOT script_dir argv0 branch_name fuel w =
   ([EvCall (os_environ_has "GITHUB_TOKEN") (Ret false);
     EvPrint "GITHUB_TOKEN environment variable must be set"],
    Ret 1%Z, (handle (os_environ_has "GITHUB_TOKEN") w).2)) /\
  ((handle (os_environ_has "GITHUB_TOKEN") w).1 = Ret true ->
   (handle (os_environ_has "BINTRAY_TOKEN")
           (handle (os_environ_has "GITHUB_TOKEN") w).2).1 = Ret false ->
   main BINTRAY_ORG NAME REPO_ROOT script_dir argv0 branch_name fuel w =
   ([EvCall (os_environ_has "GITHUB_TOKEN") (Ret true);
     EvCall (os_environ_has "BINTRAY_TOKEN") (Ret false);
     EvPrint "BINTRAY_TOKEN environment variable must be set"],
    Ret 1%Z,
    (handle (os_environ_has "BINTRAY_TOKEN")
            (handle (os_environ_has "GITHUB_TOKEN") w).2).2)).
Proof.
  unfold main.
  destruct (handle (os_environ_has "GITHUB_TOKEN") w) as [r1 w1] eqn:E1. cbn [fst snd].
  split.
  - intros ->. rewrite (prepend_bind _ _ _ _ _ E1). reflexivity.
  - intros ->. rewrite (prepend_bind _ _ _ _ _ E1). cbn [negb].
    destruct (handle (os_environ_has "BINTRAY_TOKEN") w1) as [r2 w2] eqn:E2.
    cbn [fst snd]. intros ->.
    rewrite (prepend_bind _ _ _ _ _ E2). reflexivity.
Qed.

(** X2. With both credentials present and a parsed command line, [main]
    runs the action named by [args.action]: its run is the three calls
    followed by the run of [start], [resume], [cancel] or [finalize] on
    the parsed arguments; for any other action name it prints
    [Unexpected action "<name>"] on standard error and returns 1. *)
Theorem main_dispatch fuel (w w1 w2 w3 : W) args :
  handle (os_environ_has "GITHUB_TOKEN") w = (Ret true, w1) ->
  handle (os_environ_has "BINTRAY_TOKEN") w1 = (Ret true, w2) ->
  handle parse_args w2 = (Ret args, w3) ->
  main BINTRAY_ORG NAME REPO_ROOT script_dir argv0 branch_name fuel w =
  prepend [EvCall (os_environ_has "GITHUB_TOKEN") (Ret true);
           EvCall (os_environ_has "BINTRAY_TOKEN") (Ret true);
           EvCall parse_args (Ret args)]
    (if String.eqb (action args) "start"
     then start BINTRAY_ORG NAME REPO_ROOT script_dir argv0 fuel args w3
     else if String.eqb (action args) "resume"
     then resume BINTRAY_ORG NAME REPO_ROOT script_dir argv0 branch_name fuel args w3
     else if String.eqb (action args) "cancel"
     then cancel NAME REPO_ROOT args w3
     else if String.eqb (action args) "finalize"
     then finalize args w3
     else ([EvPrintErr ("Unexpected action " +:+ String (ascii_of_nat 34) ""
                        +:+ action args +:+ String (ascii_of_nat 34) "")],
           Ret 1%Z, w3)).
Proof.
  intros E1 E2 E3. unfold main.
  rewrite (prepend_bind _ _ _ _ _ E1). cbn [negb].
  rewrite (prepend_bind _ _ _ _ _ E2). cbn [negb].
  rewrite (prepend_bind _ _ _ _ _ E3).
  unfold prepend. cbn [trace_of result_of world_of fst snd].
  destruct (String.eqb (action args) "start"); [reflexivity|].
  destruct (String.eqb (action args) "resume"); [reflexivity|].
  destruct (String.eqb (action args) "cancel"); [reflexivity|].
  destruct (String.eqb (action args) "finalize"); reflexivity.
Qed.

(** X3. Whatever the collaborators do, the only codes [main] returns are 0
    and 1. *)
Theorem main_exit_codes fuel (w : W) code :
  result_of (main BINTRAY_ORG NAME REPO_ROOT script_dir argv0 branch_name fuel w)
  = Ret code ->
  code = 0%Z \/ code = 1%Z.
Proof.
  unfold main. rewrite bind_eq, perform_eq.
  destruct (handle (os_environ_has "GITHUB_TOKEN") w) as [[[]|e|] w1];
    cbn; try discriminate.
  2:{ intros [= <-]. by right. }
  rewrite bind_eq, perform_eq.
  destruct (handle (os_environ_has "BINTRAY_TOKEN") w1) as [[[]|e|] w2];
    cbn; try discriminate.
  2:{ intros [= <-]. by right. }
  rewrite bind_eq, perform_eq.
  destruct (handle parse_args w2) as [[args|e|] w3]; cbn; try discriminate.
  destruct (String.eqb (action args) "start").
  { rewrite start_eq.
    destruct (result_of (start_try _ _ _ _ fuel args w3)) as [[]|[]|]; cbn;
      try discriminate; intros [= <-]; auto. }
  destruct (String.eqb (action args) "resume").
  { rewrite resume_eq.
    destruct (result_of (resume_try _ _ _ _ _ fuel args w3)) as [[]|[]|]; cbn;
      try discriminate; intros [= <-]; auto. }
  destruct (String.eqb (action args) "cancel").
  { rewrite cancel_eq.
    destruct (result_of (cancel_try _ _ args w3)) as [[]|[]|]; cbn;
      try discriminate; intros [= <-]; auto. }
  destruct (String.eqb (action args) "finalize").
  { rewrite finalize_eq. discriminate. }
  cbn. intros [= <-]. by right.
Qed.

End Main.

(** ** Building the images *)

Section Images.
Context {W : Type} `{Collaborators W}.
Variable REPO_ROOT : string.

(** X4. Reading a build log prints the [stream] text of every event up to
    the first event with an [error] field, in order and without line
    ends, and touches nothing else.  Without such an event it returns;
    with one it raises [ScriptError "Build error: <error>"], and neither
    the [stream] field of that event nor anything after it is printed. *)
Theorem build_log_run (before : list Chunk) (w : W) :
  Forall no_error before ->
  build_log before w = (stream_prints before, Ret tt, w) /\
  forall chunk err rest,
    chunk !! "error" = Some err ->
    build_log (before ++ chunk :: rest) w =
    (stream_prints before, Raise (ScriptError ("Build error: " +:+ err)), w).
Proof.
  intros Hb. revert w. induction Hb as [|c before Hc _ IH]; intros w.
  - split; [reflexivity|]. intros chunk err rest He. cbn. by rewrite He.
  - destruct (IH w) as [IH1 IH2]. unfold no_error in Hc.
    split.
    + cbn [build_log]. rewrite Hc, bind_eq.
      unfold stream_prints. cbn [omap list_omap].
      destruct (c !! "stream") as [s|]; cbn; by rewrite IH1.
    + intros chunk err rest He. cbn [build_log app]. rewrite Hc, bind_eq.
      unfold stream_prints. cbn [omap list_omap].
      destruct (c !! "stream") as [s|]; cbn; by rewrite (IH2 chunk err rest He).
Qed.

(** X5. [build_images] needs the Linux binary among the downloaded
    files: without the key [docker-compose-Linux-x86_64] it raises
    [KeyError], and with an empty list of paths under it [IndexError],
    after the git sha was written, the docker client made and the [dist]
    directory created, and before anything is copied or built. *)
Theorem build_images_needs_linux_binary files version (w w1 w2 w3 : W) :
  handle Repo_write_git_sha w = (Ret tt, w1) ->
  handle docker_APIClient w1 = (Ret tt, w2) ->
  handle (os_makedirs (path_join REPO_ROOT "dist") true) w2 = (Ret tt, w3) ->
  (files !! linux_binary = None ->
   build_images REPO_ROOT files version w =
   ([EvPrint "Building release images...";
     EvCall Repo_write_git_sha (Ret tt);
     EvCall docker_APIClient (Ret tt);
     EvCall (os_makedirs (path_join REPO_ROOT "dist") true) (Ret tt)],
    Raise (KeyError linux_binary), w3)) /\
  (files !! linux_binary = Some [] ->
   build_images REPO_ROOT files version w =
   ([EvPrint "Building release images...";
     EvCall Repo_write_git_sha (Ret tt);
     EvCall docker_APIClient (Ret tt);
     EvCall (os_makedirs (path_join REPO_ROOT "dist") true) (Ret tt)],
    Raise IndexError, w3)).
Proof.
  intros E1 E2 E3. unfold build_images, linux_binary.
  split; intros Hf;
    rewrite bind_eq; cbn;
    rewrite (prepend_bind _ _ _ _ _ E1), (prepend_bind _ _ _ _ _ E2),
      (prepend_bind _ _ _ _ _ E3);
    unfold prepend; cbn; rewrite bind_eq; unfold getitem; rewrite Hf; cbn;
    reflexivity.
Qed.

(** X6. An [error] event in the log of the [docker/compose] image build
    stops [build_images] with [ScriptError "Build error: <error>"]: the
    output of the log up to that event is the last thing the run leaves,
    so the test image is not built and no container or tag is made. *)
Theorem build_images_stops_at_build_error files version (w w1 w2 w3 w4 w5 : W)
    paths binary before chunk err rest :
  handle Repo_write_git_sha w = (Ret tt, w1) ->
  handle docker_APIClient w1 = (Ret tt, w2) ->
  handle (os_makedirs (path_join REPO_ROOT "dist") true) w2 = (Ret tt, w3) ->
  files !! linux_binary = Some (binary :: paths) ->
  handle (shutil_copy binary (path_join REPO_ROOT "dist")) w3 = (Ret tt, w4) ->
  handle (Docker_build REPO_ROOT ("docker/compose:" +:+ version) (Some "Dockerfile.run")) w4
  = (Ret (before ++ chunk :: rest), w5) ->
  Forall no_error before ->
  chunk !! "error" = Some err ->
  build_images REPO_ROOT files version w =
  ([EvPrint "Building release images...";
    EvCall Repo_write_git_sha (Ret tt);
    EvCall docker_APIClient (Ret tt);
    EvCall (os_makedirs (path_join REPO_ROOT "dist") true) (Ret tt);
    EvCall (shutil_copy binary (path_join REPO_ROOT "dist")) (Ret tt);
    EvPrint "Building docker/compose image";
    EvCall (Docker_build REPO_ROOT ("docker/compose:" +:+ version) (Some "Dockerfile.run"))
           (Ret (before ++ chunk :: rest))]
   ++ stream_prints before,
   Raise (ScriptError ("Build error: " +:+ err)), w5).
Proof.
  intros E1 E2 E3 Hf E4 E5 Hb He. unfold build_images, linux_binary in *.
  destruct (build_log_run before w5 Hb) as [_ Hlog].
  specialize (Hlog chunk err rest He).
  rewrite bind_eq. run_simpl.
  rewrite (prepend_bind _ _ _ _ _ E1), (prepend_bind _ _ _ _ _ E2),
    (prepend_bind _ _ _ _ _ E3).
  unfold prepend. rewrite bind_eq. unfold getitem. rewrite Hf. run_simpl.
  rewrite bind_eq. run_simpl.
  rewrite (prepend_bind _ _ _ _ _ E4). unfold prepend.
  rewrite bind_eq. run_simpl.
  rewrite (prepend_bind _ _ _ _ _ E5). unfold prepend.
  rewrite bind_eq, Hlog. run_simpl. reflexivity.
Qed.

End Images.

(** ** More on the CI gate *)

Section GateMore.
Context {W : Type} `{Collaborators W}.

Lemma count_events_app kind a b :
  count_events kind (a ++ b) = count_events kind a + count_events kind b.
Proof. unfold count_events. by rewrite List.filter_app, length_app. Qed.

(** *** The tally *)

Lemma tally_counts checks summary (w : W) p s f :
  Forall check_state_ok checks ->
  summary !! "pending" = Some p -> summary !! "success" = Some s ->
  summary !! "failure" = Some f ->
  exists summary',
    result_of (tally checks summary w) = Ret summary' /\
    summary' !! "pending" = Some (p + count_state "pending" checks) /\
    summary' !! "success" = Some (s + count_state "success" checks) /\
    summary' !! "failure" = Some (f + count_state "failure" checks).
Proof.
  intros Hok. revert summary p s f.
  induction Hok as [|d rest Hd _ IH]; intros summary p s f Hp Hs Hf; cbn [tally].
  - exists summary. unfold count_state. cbn. by rewrite !Nat.add_0_r.
  - rewrite bind_eq. unfold getitem, count_state. cbn [List.filter].
    destruct Hd as [E|[E|E]]; rewrite E; cbn [String.eqb Ascii.eqb Bool.eqb];
      [rewrite Hp|rewrite Hs|rewrite Hf]; cbn [result_of world_of trace_of fst snd ret].
    + destruct (IH (<["pending" := p + 1]> summary) (p + 1) s f) as (s' & Hr & H1 & H2 & H3);
        [by rewrite lookup_insert_eq|by rewrite lookup_insert_ne..|].
      exists s'. split; [exact Hr|]. cbn [length]. fold (count_state "pending" rest).
      fold (count_state "success" rest). fold (count_state "failure" rest).
      rewrite H1, H2, H3. repeat split; f_equal; lia.
    + destruct (IH (<["success" := s + 1]> summary) p (s + 1) f) as (s' & Hr & H1 & H2 & H3);
        [by rewrite lookup_insert_ne|by rewrite lookup_insert_eq|by rewrite lookup_insert_ne|].
      exists s'. split; [exact Hr|]. cbn [length]. fold (count_state "pending" rest).
      fold (count_state "success" rest). fold (count_state "failure" rest).
      rewrite H1, H2, H3. repeat split; f_equal; lia.
    + destruct (IH (<["failure" := f + 1]> summary) p s (f + 1)) as (s' & Hr & H1 & H2 & H3);
        [by rewrite lookup_insert_ne..|by rewrite lookup_insert_eq|].
      exists s'. split; [exact Hr|]. cbn [length]. fold (count_state "pending" rest).
      fold (count_state "success" rest). fold (count_state "failure" rest).
      rewrite H1, H2, H3. repeat split; f_equal; lia.
Qed.

Lemma only3_summary0 : only3 summary0.
Proof.
  intros k [n Hk]. unfold summary0 in Hk.
  destruct (decide (k = "pending")) as [->|H1]; [auto|].
  destruct (decide (k = "success")) as [->|H2]; [auto|].
  destruct (decide (k = "failure")) as [->|H3]; [auto|].
  rewrite !lookup_insert_ne in Hk by done. by rewrite lookup_empty in Hk.
Qed.

Lemma tally_unknown before d rest summary (w : W) :
  Forall check_state_ok before -> ~ check_state_ok d ->
  only3 summary -> keys3 summary ->
  result_of (tally (before ++ d :: rest) summary w) = Raise (KeyError (st_state d)).
Proof.
  intros Hok Hd. revert summary.
  induction Hok as [|x before Hx _ IH]; intros summary Ho Hk; cbn [tally app].
  - rewrite bind_eq. unfold getitem.
    destruct (summary !! st_state d) as [n|] eqn:E; [|reflexivity].
    destruct Hd. apply Ho. by exists n.
  - rewrite bind_eq. unfold getitem.
    assert (Hin : is_Some (summary !! st_state x)).
    { destruct Hk as (? & ? & ?). by destruct Hx as [-> | [-> | ->]]. }
    destruct Hin as [n E]. rewrite E. cbn.
    apply IH.
    + intros k [m Hm].
      destruct (decide (st_state x = k)) as [<-|Hne]; [exact Hx|].
      rewrite lookup_insert_ne in Hm by done. apply Ho. by exists m.
    + destruct Hk as (? & ? & ?).
      repeat split; apply lookup_insert_is_Some'; by right.
Qed.

(** X7. While the aggregate state is pending and every check is in one of
    the three states, a poll prints the tally line with the number of
    checks in each state, and then returns [True] at once when the total
    count is zero, and sleeps 30 seconds otherwise. *)
Theorem monitor_poll_tally commit (w : W) st w' :
  handle (Commit_get_combined_status commit) w = (Ret st, w') ->
  cs_state st = "pending" ->
  Forall check_state_ok (cs_statuses st) ->
  monitor_poll commit w =
  (if Nat.eqb (cs_total_count st) 0
   then ([EvCall (Commit_get_combined_status commit) (Ret st);
          EvPrint (tally_line (cs_statuses st))],
         Ret (Some true), w')
   else ([EvCall (Commit_get_combined_status commit) (Ret st);
          EvPrint (tally_line (cs_statuses st)); EvSleep 30],
         Ret None, w')).
Proof.
  intros E Hp Hok. unfold monitor_poll. rewrite bind_eq, perform_eq, E. cbn.
  rewrite Hp. cbn.
  destruct (tally_counts _ summary0 w' 0 0 0 Hok eq_refl eq_refl eq_refl)
    as (summary & Ht & H1 & H2 & H3).
  rewrite bind_eq, tally_pure, Ht. cbn.
  unfold format_summary, getitem.
  rewrite bind_eq, H1. cbn. rewrite bind_eq, H2. cbn. rewrite bind_eq, H3. cbn.
  destruct (Nat.eqb (cs_total_count st) 0); reflexivity.
Qed.

(** X8. A check in a state other than pending, success and failure (the
    host also knows [error]) breaks the tally: while the aggregate state
    is pending, the poll raises [KeyError] with the state of the first
    such check, right after the status call, with nothing printed.  This
    is not a [ScriptError]. *)
Theorem monitor_poll_unknown_state commit (w : W) st w' before d rest :
  handle (Commit_get_combined_status commit) w = (Ret st, w') ->
  cs_state st = "pending" ->
  cs_statuses st = before ++ d :: rest ->
  Forall check_state_ok before -> ~ check_state_ok d ->
  monitor_poll commit w =
  ([EvCall (Commit_get_combined_status commit) (Ret st)],
   Raise (KeyError (st_state d)), w').
Proof.
  intros E Hp Hs Hok Hd. unfold monitor_poll. rewrite bind_eq, perform_eq, E. cbn.
  rewrite Hp. cbn. rewrite bind_eq, tally_pure, Hs.
  rewrite (tally_unknown before d rest summary0 w' Hok Hd only3_summary0 keys3_summary0).
  reflexivity.
Qed.

(** *** Polls, sleeps and the commit that is polled *)

(** A poll is the status call and, after it, output and at most a sleep:
    the sleep comes exactly when the loop goes on. *)
Lemma monitor_poll_shape commit (w : W) :
  exists r tail,
    trace_of (monitor_poll commit w) = EvCall (Commit_get_combined_status commit) r :: tail /\
    Forall (fun e => is_local e = true) tail /\
    ((result_of (monitor_poll commit w) = Ret None /\
      exists line, tail = [EvPrint line; EvSleep 30]) \/
     (result_of (monitor_poll commit w) <> Ret None /\
      Forall (fun e => is_sleep e = false) tail)).
Proof.
  unfold monitor_poll. rewrite bind_eq, perform_eq.
  destruct (handle (Commit_get_combined_status commit) w) as [[st|e|] w']; cbn;
    [|eexists _, []; split; [done|]; split; [constructor|];
      right; split; [done|constructor]..].
  destruct (String.eqb (cs_state st) "pending").
  - rewrite bind_eq, tally_pure. cbn.
    destruct (result_of (tally (cs_statuses st) summary0 w')) as [summary|e|]; cbn;
      [|eexists _, []; split; [done|]; split; [constructor|];
        right; split; [done|constructor]..].
    rewrite bind_eq, format_summary_pure. cbn.
    destruct (result_of (format_summary summary w')) as [line|e|]; cbn;
      [|eexists _, []; split; [done|]; split; [constructor|];
        right; split; [done|constructor]..].
    destruct (Nat.eqb (cs_total_count st) 0); cbn.
    + eexists _, [_]. split; [done|]. split; [by repeat constructor|].
      right. split; [done|by repeat constructor].
    + eexists _, [_; _]. split; [done|]. split; [by repeat constructor|].
      left. split; [done|]. by eexists.
  - destruct (String.eqb (cs_state st) "success"); cbn.
    + eexists _, [_]. split; [done|]. split; [by repeat constructor|].
      right. split; [done|by repeat constructor].
    + eexists _, []. split; [done|]. split; [constructor|].
      right. split; [done|constructor].
Qed.

Lemma count_local_polls tail :
  Forall (fun e => is_local e = true) tail -> count_events is_poll tail = 0.
Proof.
  induction 1 as [|e tail He _ IH]; [done|].
  unfold count_events in *. cbn. by destruct e.
Qed.

Lemma count_no_sleep tail :
  Forall (fun e => is_sleep e = false) tail -> count_events is_sleep tail = 0.
Proof.
  induction 1 as [|e tail He _ IH]; [done|].
  unfold count_events in *. cbn. by rewrite He.
Qed.

(** X9. The gate sleeps between polls only: in a run of the polling loop
    that returns or raises, there is one status call more than there are
    sleeps, and every sleep lasts 30 seconds. *)
Theorem monitor_loop_sleeps fuel commit (w : W) :
  result_of (monitor_loop fuel commit w) <> Diverge ->
  count_events is_poll (trace_of (monitor_loop fuel commit w))
  = S (count_events is_sleep (trace_of (monitor_loop fuel commit w))) /\
  Forall (fun e => is_sleep e = true -> e = EvSleep 30)
         (trace_of (monitor_loop fuel commit w)).
Proof.
  revert w. induction fuel as [|fuel IH]; intros w; cbn [monitor_loop].
  - intros Hr. by destruct Hr.
  - rewrite bind_eq.
    destruct (monitor_poll_shape commit w) as (r & tail & Et & Hl & Hcase).
    rewrite Et.
    destruct Hcase as [[Er [line ->]]|[Er Hns]].
    + rewrite Er. cbn [trace_of result_of world_of fst snd]. intros Hr.
      destruct (IH _ Hr) as [Hc Hs].
      rewrite !(count_events_app _ (_ :: _)), Hc. split.
      * unfold count_events at 1 3. cbn. lia.
      * apply Forall_app. split; [|exact Hs]. by repeat constructor.
    + assert (Ht : trace_of
                (match result_of (monitor_poll commit w) with
                 | Ret a => ((EvCall (Commit_get_combined_status commit) r :: tail) ++
                             trace_of (match a with
                                       | Some b => ret b
                                       | None => monitor_loop fuel commit
                                       end (world_of (monitor_poll commit w))),
                             result_of (match a with
                                        | Some b => ret b
                                        | None => monitor_loop fuel commit
                                        end (world_of (monitor_poll commit w))),
                             world_of (match a with
                                       | Some b => ret b
                                       | None => monitor_loop fuel commit
                                       end (world_of (monitor_poll commit w))))
                 | Raise e => (EvCall (Commit_get_combined_status commit) r :: tail,
                               Raise e, world_of (monitor_poll commit w))
                 | Diverge => (EvCall (Commit_get_combined_status commit) r :: tail,
                               Diverge, world_of (monitor_poll commit w))
                 end) = EvCall (Commit_get_combined_status commit) r :: tail).
      { destruct (result_of (monitor_poll commit w)) as [[b|]|e|]; cbn;
          try done; by rewrite app_nil_r. }
      intros _. rewrite Ht. split.
      * change (EvCall (Commit_get_combined_status commit) r :: tail)
          with ([EvCall (Commit_get_combined_status commit) r] ++ tail).
        rewrite !count_events_app, (count_local_polls _ Hl), (count_no_sleep _ Hns).
        reflexivity.
      * constructor; [done|].
        eapply Forall_impl; [exact Hns|]. intros e He1 He2. congruence.
Qed.

Lemma monitor_loop_polls_commit fuel commit (w : W) :
  Forall (fun e => forall c, call_of e = Some (Commit_get_combined_status c) -> c = commit)
         (trace_of (monitor_loop fuel commit w)).
Proof.
  revert w. induction fuel as [|fuel IH]; intros w; cbn [monitor_loop].
  - constructor.
  - destruct (monitor_poll_shape commit w) as (r & tail & Et & Hl & _).
    assert (Hp : Forall (fun e => forall c,
                           call_of e = Some (Commit_get_combined_status c) -> c = commit)
                        (trace_of (monitor_poll commit w))).
    { rewrite Et. constructor; [by intros c [= <-]|].
      eapply Forall_impl; [exact Hl|]. intros e He c Hc. by destruct e. }
    destruct (bind_trace_cases (monitor_poll commit)
                (fun r => match r with
                          | Some b => ret b
                          | None => monitor_loop fuel commit
                          end) w) as [(a & _ & ->)| ->]; [|exact Hp].
    apply Forall_app. split; [exact Hp|].
    destruct a as [b|]; [constructor|apply IH].
Qed.

(** X10. The gate watches the last commit of the pull request: every
    status call of [monitor_pr_status] is made on the last element of the
    list [get_commits] returned; and for a pull request without commits
    it raises [IndexError] before any status call. *)
Theorem monitor_pr_status_polls_last_commit fuel pr (w : W) commits w1 :
  handle (PR_get_commits pr) w = (Ret commits, w1) ->
  (commits = [] ->
   monitor_pr_status fuel pr w =
   ([EvPrint "Waiting for CI to complete..."; EvCall (PR_get_commits pr) (Ret [])],
    Raise IndexError, w1)) /\
  (forall e c,
     In e (trace_of (monitor_pr_status fuel pr w)) ->
     call_of e = Some (Commit_get_combined_status c) ->
     last commits = Some c).
Proof.
  intros E. unfold monitor_pr_status. rewrite bind_eq. run_simpl.
  rewrite (prepend_bind _ _ _ _ _ E). unfold prepend.
  split.
  - intros ->. rewrite bind_eq. reflexivity.
  - rewrite bind_eq.
    destruct (rev commits) as [|commit l] eqn:Er; run_simpl.
    + intros e c [<-|[<-|[]]]; discriminate.
    + assert (Hlast : last commits = Some commit).
      { rewrite <- (rev_involutive commits), Er. cbn. apply last_snoc. }
      intros e c [<-|[<-|Hin]]; try discriminate.
      intros Hc. rewrite Hlast. f_equal. symmetry.
      pose proof (monitor_loop_polls_commit fuel commit w1) as Hp.
      rewrite Forall_forall in Hp.
      exact (Hp e (proj2 (list_elem_of_In _ _) Hin) c Hc).
Qed.

End GateMore.

(** ** Events that come right after another one *)

Section Preceded.
Context {W : Type} `{Collaborators W}.
Variable trig : event -> bool.
Variable req : event -> event -> Prop.

Lemma preceded_quiet t :
  Forall (fun e => trig e = false) t -> preceded_by trig req t.
Proof.
  intros Hq t1 u t2 -> Hu.
  apply Forall_app in Hq as [_ Hq]. apply Forall_cons in Hq as [Hq _]. congruence.
Qed.

Lemma preceded_app a b :
  Forall (fun e => trig e = false) a ->
  preceded_by trig req b -> preceded_by trig req (a ++ b).
Proof.
  induction a as [|e a IH]; intros Ha Hb; [exact Hb|].
  apply Forall_cons in Ha as [He Ha].
  intros t1 u t2 E Hu.
  destruct t1 as [|e1 t1]; cbn in E; injection E as -> E.
  - congruence.
  - destruct (IH Ha Hb t1 u t2 E Hu) as (t0 & p & -> & Hp).
    by exists (e1 :: t0), p.
Qed.

Lemma preceded_app_r a b :
  preceded_by trig req a ->
  Forall (fun e => trig e = false) b -> preceded_by trig req (a ++ b).
Proof.
  intros Ha Hb t1 u t2 E Hu.
  apply app_eq_inv in E as [(k & -> & E)|(k & -> & ->)].
  - destruct k as [|e k]; cbn in E.
    + subst b. apply Forall_cons in Hb as [Hb _]. congruence.
    + injection E as <- ->. by eapply Ha.
  - apply Forall_app in Hb as [_ Hb]. apply Forall_cons in Hb as [Hb _].
    congruence.
Qed.

Lemma preceded_pair p u tail :
  trig p = false -> req p u ->
  Forall (fun e => trig e = false) tail ->
  preceded_by trig req (p :: u :: tail).
Proof.
  intros Hp Hr Htail t1 u' t2 E Hu.
  destruct t1 as [|e1 t1]; cbn in E; injection E as <- E; [congruence|].
  destruct t1 as [|e2 t1]; cbn in E; injection E as <- E.
  - by exists [], p.
  - subst tail. apply Forall_app in Htail as [_ Ht].
    apply Forall_cons in Ht as [Ht _]. congruence.
Qed.

Lemma preceded_bind {A B} (m : M W A) (f : A -> M W B) :
  triple Itrue (fun e => trig e = false) m any ->
  (forall a w, preceded_by trig req (trace_of (f a w))) ->
  forall w, preceded_by trig req (trace_of (bind m f w)).
Proof.
  intros Hm Hf w. destruct (Hm w Logic.I) as (_ & Hq & _).
  destruct (bind_trace_cases m f w) as [(a & _ & ->)| ->].
  - by apply preceded_app.
  - by apply preceded_quiet.
Qed.

End Preceded.

(** ** The bump commit *)

Section Bump.
Context {W : Type} `{Collaborators W}.
Variable BINTRAY_ORG : string.

Lemma lower_approves s : String.eqb (lower s) "y" = true <-> approves s.
Proof. rewrite String.eqb_eq. apply lower_y. Qed.

Lemma confirm_changes_turns fuel proceed (w : W) :
  ~ approves proceed ->
  result_of (confirm_changes fuel proceed w) = Ret tt ->
  exists rejected d s,
    trace_of (confirm_changes fuel proceed w)
    = flat_map (fun x => turn x.1 x.2) rejected ++ turn d s /\
    Forall (fun x => ~ approves x.2) rejected /\ approves s.
Proof.
  revert proceed w. induction fuel as [|fuel IH]; intros proceed w Hno;
    cbn [confirm_changes];
    (destruct (String.eqb (lower proceed) "y") eqn:Hy;
     [by apply lower_approves in Hy|]).
  - discriminate.
  - rewrite !bind_eq, perform_eq.
    destruct (handle Repo_diff w) as [[d|e|] w1]; cbn [fst snd]; run_simpl;
      try discriminate.
    rewrite ?bind_eq. run_simpl. rewrite ?bind_eq, perform_eq.
    destruct (handle (input "Are these changes ok? y/N ") w1) as [[s|e|] w2];
      cbn [fst snd]; run_simpl; try discriminate.
    destruct (String.eqb (lower s) "y") eqn:Hs.
    + apply lower_approves in Hs. intros _.
      exists [], d, s. split; [|by split].
      assert (E : confirm_changes fuel s w2 = ([], Ret tt, w2)).
      { apply lower_approves in Hs. destruct fuel; cbn [confirm_changes]; by rewrite Hs. }
      rewrite E. reflexivity.
    + assert (Hns : ~ approves s).
      { intros Ha. apply lower_approves in Ha. congruence. }
      intros Hr. destruct (IH s w2 Hns Hr) as (rejected & d' & s' & Et & Hrej & Hok).
      exists ((d, s) :: rejected), d', s'. split; [|split; [by constructor|done]].
      rewrite Et. reflexivity.
Qed.

(** X11. The diff-approval loop of [create_bump_commit] returns only on
    an answer [y] or [Y]: a run that returns consists of turns, each one
    fetching the diff, printing it and asking "Are these changes ok?";
    there is at least one turn, every answer but the last is something
    else than [y]/[Y], and the last one is [y] or [Y]. *)
Theorem confirm_changes_returns fuel (w : W) :
  result_of (confirm_changes fuel "" w) = Ret tt ->
  exists rejected d s,
    trace_of (confirm_changes fuel "" w)
    = flat_map (fun x => turn x.1 x.2) rejected ++ turn d s /\
    Forall (fun x => ~ approves x.2) rejected /\ approves s.
Proof. apply confirm_changes_turns. by intros [?|?]. Qed.

Lemma approval_bind_quiet {A B} (m : M W A) (f : A -> M W B) :
  triple Itrue (fun e => is_publish e = false) m any ->
  (forall a w, needs_approval (f a w)) ->
  forall w, needs_approval (bind m f w).
Proof.
  intros Hm Hf w e. destruct (Hm w Logic.I) as (_ & Hq & _).
  rewrite Forall_forall in Hq.
  destruct (bind_trace_cases m f w) as [(a & _ & ->)| ->]; intros Hin Hp.
  - apply in_app_iff in Hin as [Hin|Hin].
    + specialize (Hq e (proj2 (list_elem_of_In _ _) Hin)). congruence.
    + destruct (Hf a _ e Hin Hp) as (s & Hs & Ha).
      exists s. split; [|done]. apply in_app_iff. by right.
  - specialize (Hq e (proj2 (list_elem_of_In _ _) Hin)). congruence.
Qed.

Lemma approval_after {A B} (m : M W A) (f : A -> M W B) :
  triple Itrue (fun e => is_publish e = false) m any ->
  (forall w a, result_of (m w) = Ret a ->
     exists s, In (EvCall (input changes_ok_prompt) (Ret s)) (trace_of (m w)) /\
               approves s) ->
  forall w, needs_approval (bind m f w).
Proof.
  intros Hm Hok w e. destruct (Hm w Logic.I) as (_ & Hq & _).
  rewrite Forall_forall in Hq.
  destruct (bind_trace_cases m f w) as [(a & Hr & ->)| ->]; intros Hin Hp.
  - destruct (Hok w a Hr) as (s & Hs & Ha).
    exists s. split; [|done]. apply in_app_iff. by left.
  - specialize (Hq e (proj2 (list_elem_of_In _ _) Hin)). congruence.
Qed.

Lemma fp_confirm_no_publish c :
  fp_confirm_changes c = true -> call_ok (W:=W) Itrue (fun e => is_publish e = false) c.
Proof. revert c. solve_call_ok. Qed.

(** X12. [create_bump_commit] commits, pushes and provisions the
    artifact repository only with the operator's approval: a run in
    which one of these calls is made has an answer [y] or [Y] to "Are
    these changes ok?". *)
Theorem create_bump_commit_needs_approval fuel br user (w : W) :
  needs_approval (create_bump_commit BINTRAY_ORG fuel br user w).
Proof.
  revert w. unfold create_bump_commit.
  do 5 (apply approval_bind_quiet; [walk_with fail|intros ?]).
  apply approval_after.
  - apply confirm_changes_triple; [solve_local|apply fp_confirm_no_publish].
  - intros w [] Hr.
    destruct (confirm_changes_returns fuel w Hr) as (rejected & d & s & -> & _ & Hs).
    exists s. split; [|done]. apply in_app_iff. right. cbn. auto.
Qed.

Lemma fp_confirm_no_commit c :
  fp_confirm_changes c = true -> call_ok (W:=W) Itrue (fun e => is_commit e = false) c.
Proof. revert c. solve_call_ok. Qed.

Lemma bump_rest_no_commit br user :
  triple (W:=W) Itrue (fun e => is_commit e = false)
    (perform (Repo_push_branch_to_remote br) ;;
     token <- perform (os_environ_get "BINTRAY_TOKEN") ;;
     perform (BintrayAPI token user) ;;
     print ("Creating data repository " +:+ head_name br +:+ " on bintray") ;;
     perform (Bintray_create_repository BINTRAY_ORG (head_name br) "generic")) any.
Proof. walk_with fail. Qed.

(** The steps of [create_bump_commit] from the second diff on. *)
Lemma commit_stage_preceded br user rel (w : W) :
  preceded_by is_commit (after_nonempty_diff br)
    (trace_of
       ((d <- perform Repo_diff ;;
         (if truthy_str d
          then perform (Repo_create_bump_commit br rel)
          else ret tt) ;;
         perform (Repo_push_branch_to_remote br) ;;
         token <- perform (os_environ_get "BINTRAY_TOKEN") ;;
         perform (BintrayAPI token user) ;;
         print ("Creating data repository " +:+ head_name br +:+ " on bintray") ;;
         perform (Bintray_create_repository BINTRAY_ORG (head_name br) "generic")) w)).
Proof.
  rewrite bind_eq, perform_eq.
  destruct (handle Repo_diff w) as [[d|e|] w1]; cbn [fst snd]; run_simpl;
    [|apply preceded_quiet; by repeat constructor..].
  destruct (truthy_str d) eqn:Hd.
  - rewrite bind_eq, perform_eq.
    destruct (handle (Repo_create_bump_commit br rel) w1) as [r w2]; cbn [fst snd].
    assert (Hreq : after_nonempty_diff br (EvCall Repo_diff (Ret d))
                     (EvCall (Repo_create_bump_commit br rel) r)).
    { exists d, rel, r. split; [done|]. split; [|done].
      intros ->. discriminate Hd. }
    destruct r as [[]|e|]; run_simpl; apply preceded_pair; try done;
      try constructor.
    apply (triple_trace _ _ w2 (bump_rest_no_commit br user)).
  - rewrite bind_eq. run_simpl.
    change (EvCall Repo_diff (Ret d) :: ?t) with ([EvCall Repo_diff (Ret d)] ++ t).
    apply preceded_quiet. constructor; [done|].
    apply (triple_trace _ _ w1 (bump_rest_no_commit br user)).
Qed.

Lemma bump_versions br user rel fuel :
  triple (W:=W) Itrue (Qversion rel)
    (print "Updating version info in __init__.py and run.sh" ;;
     perform (update_run_sh_version rel) ;;
     perform (update_init_py_version rel) ;;
     perform (input "Please add the release notes to the CHANGELOG.md file, then press Enter to continue.") ;;
     confirm_changes fuel "" ;;
     d <- perform Repo_diff ;;
     (if truthy_str d
      then perform (Repo_create_bump_commit br rel)
      else ret tt) ;;
     perform (Repo_push_branch_to_remote br) ;;
     token <- perform (os_environ_get "BINTRAY_TOKEN") ;;
     perform (BintrayAPI token user) ;;
     print ("Creating data repository " +:+ head_name br +:+ " on bintray") ;;
     perform (Bintray_create_repository BINTRAY_ORG (head_name br) "generic")) any.
Proof.
  repeat first
    [ apply triple_ret; exact Logic.I
    | apply triple_print; [by intros []]
    | apply confirm_changes_triple;
      [by intros []
      |let c := fresh "c" in
       intros c ? ? _; split; [exact Logic.I|]; by destruct c]
    | match goal with
      | |- triple _ _ (perform ?c) _ =>
          refine (triple_call _ _ c _); intros ? _;
          split; [exact Logic.I|]; by intros v [= <-]
      end
    | apply triple_bind_any; [|intros ?]
    | match goal with
      | |- triple _ _ (if ?b then _ else _) _ => destruct b
      end ].
Qed.

(** X13. In a run of [create_bump_commit], a bump commit is made only
    directly after a diff that came back non-empty, on the release
    branch; and the version written to the two version files and
    committed is always the one read from the branch's [release] config
    entry. *)
Theorem create_bump_commit_commits fuel br user (w : W) :
  preceded_by is_commit (after_nonempty_diff br)
    (trace_of (create_bump_commit BINTRAY_ORG fuel br user w)) /\
  (forall e v,
     In e (trace_of (create_bump_commit BINTRAY_ORG fuel br user w)) ->
     bumped_version e = Some v ->
     In (EvCall (Head_config_get br "release") (Ret v))
        (trace_of (create_bump_commit BINTRAY_ORG fuel br user w))).
Proof.
  split.
  - revert w. unfold create_bump_commit.
    do 5 (apply preceded_bind; [walk_with fail|intros ?]).
    apply preceded_bind.
    { apply confirm_changes_triple; [solve_local|apply fp_confirm_no_commit]. }
    intros _ w. apply commit_stage_preceded.
  - unfold create_bump_commit. rewrite bind_eq, perform_eq.
    destruct (handle (Head_config_get br "release") w) as [[rel|e|] w1];
      cbn [fst snd]; run_simpl;
      [|intros e0 v [<-|[]]; discriminate..].
    intros e v [<-|Hin]; [discriminate|]. intros Hv.
    pose proof (triple_trace _ _ w1 (bump_versions br user rel fuel)) as Hq.
    rewrite Forall_forall in Hq.
    rewrite (Hq e (proj2 (list_elem_of_In _ _) Hin) v Hv). by left.
Qed.

End Bump.

(** ** The release draft, step by step *)

Section DraftFlow.
Context {W : Type} `{Collaborators W}.
Variable script_dir : string.

Ltac not_created :=
  let e := fresh "e" in
  let Hin := fresh "Hin" in
  let Hne := fresh "Hne" in
  intros e Hin Hne; cbn in Hin;
  repeat (destruct Hin as [<-|Hin]; [by destruct Hne|]);
  destruct Hin.

(** X14. When [create_release_draft] gets as far as creating the release
    record, everything before went through, in this order: the template
    [release.md.tmpl] next to the script was read and parsed, the
    compatibility matrix, the contributors of the pull request and the
    changelog excerpt were fetched, and the notes passed to
    [create_release] are what rendering the template with the version,
    that matrix, the files, those contributors and that changelog
    returned.  "Release draft initialized" is printed exactly when the
    creation returned. *)
Theorem create_release_draft_flow version pr files (w : W) e :
  In e (trace_of (create_release_draft script_dir version pr files w)) ->
  created_release_args e <> None ->
  exists source template matrix contributors changelog notes x,
    trace_of (create_release_draft script_dir version pr files w) =
    [EvPrint "Creating Github release draft";
     EvCall (open_read (path_join script_dir "release.md.tmpl")) (Ret source);
     EvCall (Template source) (Ret template);
     EvPrint "Rendering release notes based on template";
     EvCall compatibility_matrix (Ret matrix);
     EvCall (get_contributors pr) (Ret contributors);
     EvCall read_release_notes_from_changelog (Ret changelog);
     EvCall (Template_render template version matrix files contributors changelog)
            (Ret notes);
     EvCall (Repo_create_release version notes true (str_in "-rc" version) "release") x]
    ++ match x with
       | Ret _ => [EvPrint "Release draft initialized"]
       | _ => []
       end.
Proof.
  revert e. unfold create_release_draft.
  rewrite bind_eq. run_simpl.
  rewrite bind_eq, perform_eq.
  destruct (handle (open_read _) w) as [[source|?|] w1]; cbn [fst snd]; run_simpl;
    [|not_created..].
  rewrite bind_eq, perform_eq.
  destruct (handle (Template source) w1) as [[template|?|] w2]; cbn [fst snd]; run_simpl;
    [|not_created..].
  rewrite bind_eq. run_simpl.
  rewrite bind_eq, perform_eq.
  destruct (handle compatibility_matrix w2) as [[matrix|?|] w3]; cbn [fst snd]; run_simpl;
    [|not_created..].
  rewrite bind_eq, perform_eq.
  destruct (handle (get_contributors pr) w3) as [[contributors|?|] w4];
    cbn [fst snd]; run_simpl; [|not_created..].
  rewrite bind_eq, perform_eq.
  destruct (handle read_release_notes_from_changelog w4) as [[changelog|?|] w5];
    cbn [fst snd]; run_simpl; [|not_created..].
  rewrite bind_eq, perform_eq.
  destruct (handle (Template_render template version matrix files contributors changelog) w5)
    as [[notes|?|] w6]; cbn [fst snd]; run_simpl; [|not_created..].
  rewrite bind_eq, perform_eq.
  destruct (handle (Repo_create_release version notes true (str_in "-rc" version) "release") w6)
    as [x w7]; cbn [fst snd].
  intros e _ _. exists source, template, matrix, contributors, changelog, notes, x.
  destruct x as [r|?|]; run_simpl; [|reflexivity..].
  rewrite bind_eq. run_simpl. reflexivity.
Qed.

End DraftFlow.

(** ** Cancel, call by call *)

Section CancelOrder.
Context {W : Type} `{Collaborators W}.
Variables NAME REPO_ROOT : string.

Ltac other_call :=
  let x := fresh "x" in
  let Hin := fresh "Hin" in
  intros x Hin; cbn in Hin;
  repeat (destruct Hin as [Hin|Hin];
          [first [apply (f_equal call_of) in Hin; discriminate Hin
                 |cbn; auto 10]|]);
  destruct Hin.

(** X15. [cancel] goes through its steps in one order and stops at the
    first that does not return: the calls of any run are an initial part
    of [Repository, close_release_pr, remove_release, remove_bump_branch];
    the release is removed only in a run where closing the pull request
    returned, and the bump branch only in a run where removing the
    release returned. *)
Theorem cancel_stops_at_first_failure args (w : W) :
  omap call_of (trace_of (cancel NAME REPO_ROOT args w))
  `prefix_of` [Repository REPO_ROOT (repo_or_NAME NAME args);
               Repo_close_release_pr (release args);
               Repo_remove_release (release args);
               Repo_remove_bump_branch (release args)] /\
  (forall x,
     In (EvCall (Repo_remove_release (release args)) x)
        (trace_of (cancel NAME REPO_ROOT args w)) ->
     In (EvCall (Repo_close_release_pr (release args)) (Ret tt))
        (trace_of (cancel NAME REPO_ROOT args w))) /\
  (forall x,
     In (EvCall (Repo_remove_bump_branch (release args)) x)
        (trace_of (cancel NAME REPO_ROOT args w)) ->
     In (EvCall (Repo_remove_release (release args)) (Ret tt))
        (trace_of (cancel NAME REPO_ROOT args w))).
Proof.
  rewrite cancel_eq. unfold cancel_try.
  rewrite bind_eq, perform_eq.
  destruct (handle (Repository REPO_ROOT (repo_or_NAME NAME args)) w)
    as [[[]|e1|] w1]; cbn [fst snd]; run_simpl;
    [|destruct e1; run_simpl; (split; [by eexists|split; other_call])
     |split; [by eexists|split; other_call]].
  rewrite bind_eq, perform_eq.
  destruct (handle (Repo_close_release_pr (release args)) w1)
    as [[[]|e2|] w2]; cbn [fst snd]; run_simpl;
    [|destruct e2; run_simpl; (split; [by eexists|split; other_call])
     |split; [by eexists|split; other_call]].
  rewrite bind_eq, perform_eq.
  destruct (handle (Repo_remove_release (release args)) w2)
    as [[[]|e3|] w3]; cbn [fst snd]; run_simpl;
    [|destruct e3; run_simpl; (split; [by eexists|split; other_call])
     |split; [by eexists|split; other_call]].
  rewrite perform_eq.
  destruct (handle (Repo_remove_bump_branch (release args)) w3)
    as [[[]|e4|] w4]; cbn [fst snd]; run_simpl;
    [|destruct e4; run_simpl; (split; [by eexists|split; other_call])
     |split; [by eexists|split; other_call]].
  split; [by eexists|split; other_call].
Qed.

End CancelOrder.

(** ** What start and resume never call *)

Section Paths.
Context {W : Type} `{Collaborators W}.
Variables BINTRAY_ORG NAME REPO_ROOT script_dir argv0 : string.
Variable branch_name : string -> string.

Lemma fp_bump_no_reuse c :
  fp_create_bump_commit c = true -> call_ok (W:=W) Itrue (fun e => is_reuse e = false) c.
Proof.
  revert c. solve_call_ok. cbn in *.
  apply orb_true_iff in Hc as [Hc|Hc]; apply String.eqb_eq in Hc; by subst.
Qed.

Lemma fp_monitor_no_reuse c :
  fp_monitor_pr_status c = true -> call_ok (W:=W) Itrue (fun e => is_reuse e = false) c.
Proof. revert c. solve_call_ok. Qed.

Lemma fp_draft_no_reuse c :
  fp_create_release_draft c = true -> call_ok (W:=W) Itrue (fun e => is_reuse e = false) c.
Proof. revert c. solve_call_ok. Qed.

Lemma fp_images_no_reuse c :
  fp_build_images c = true -> call_ok (W:=W) Itrue (fun e => is_reuse e = false) c.
Proof. revert c. solve_call_ok. Qed.

Lemma fp_no_create_branch (fp : call -> bool) :
  (forall v b, fp (Repo_create_release_branch v b) = false) ->
  forall c, fp c = true -> call_ok (W:=W) Itrue (fun e => is_create_branch e = false) c.
Proof.
  intros Hfp c Hc w _. split; [exact Logic.I|].
  destruct c; try reflexivity. by rewrite Hfp in Hc.
Qed.

(** X16. [start] never looks for what an earlier run left: it makes no
    branch lookup or checkout, no lookup of a pull request or a release,
    asks no question about a public release and deletes no hosted
    assets.  [resume] never creates a release branch. *)
Theorem start_creates_resume_reuses fuel args (w : W) :
  Forall (fun e => is_reuse e = false)
         (trace_of (start BINTRAY_ORG NAME REPO_ROOT script_dir argv0 fuel args w)) /\
  Forall (fun e => is_create_branch e = false)
         (trace_of (resume BINTRAY_ORG NAME REPO_ROOT script_dir argv0 branch_name
                           fuel args w)).
Proof.
  split.
  - assert (Ht : triple Itrue (fun e => is_reuse e = false)
                   (start_try BINTRAY_ORG NAME REPO_ROOT script_dir fuel args) any).
    { unfold start_try, create_initial_branch.
      walk_with ltac:(first [apply fp_bump_no_reuse | apply fp_monitor_no_reuse
                            | apply fp_draft_no_reuse | apply fp_images_no_reuse]). }
    pose proof (triple_trace _ _ w Ht) as Hq.
    rewrite start_eq.
    destruct (result_of (start_try _ _ _ _ fuel args w)) as [[]|[]|]; cbn;
      try exact Hq; apply Forall_app; split; try exact Hq; by repeat constructor.
  - assert (Ht : triple Itrue (fun e => is_create_branch e = false)
                   (resume_try BINTRAY_ORG NAME REPO_ROOT script_dir branch_name fuel args)
                   any).
    { unfold resume_try.
      walk_with ltac:(first [apply (fp_no_create_branch fp_create_bump_commit)
                            | apply (fp_no_create_branch fp_monitor_pr_status)
                            | apply (fp_no_create_branch fp_create_release_draft)
                            | apply (fp_no_create_branch fp_build_images)];
                      intros; reflexivity). }
    pose proof (triple_trace _ _ w Ht) as Hq.
    rewrite resume_eq.
    destruct (result_of (resume_try _ _ _ _ _ fuel args w)) as [[]|[]|]; cbn;
      try exact Hq; apply Forall_app; split; try exact Hq; by repeat constructor.
Qed.

End Paths.

(** ** A failed poll ends the release *)

Section GateStops.
Context {W : Type} `{Collaborators W}.

Lemma failed_poll_is_poll e : failed_poll e = true -> is_poll e = true.
Proof. destruct e as [[] r| | | |]; try discriminate. done. Qed.

Lemma no_poll_in t e :
  Forall (fun e => is_poll e = false) t -> In e t -> failed_poll e = true -> False.
Proof.
  intros Ht Hin Hf. rewrite Forall_forall in Ht.
  specialize (Ht e (proj2 (list_elem_of_In _ _) Hin)).
  apply failed_poll_is_poll in Hf. congruence.
Qed.

Lemma stops_no_poll {A} (x : list event * outcome A * W) :
  Forall (fun e => is_poll e = false) (trace_of x) -> stops_on_ci_failure x.
Proof. intros Hq e Hin Hf. destruct (no_poll_in _ _ Hq Hin Hf). Qed.

Lemma stops_bind_quiet {A B} (m : M W A) (f : A -> M W B) :
  triple Itrue before_gate m any ->
  (forall a w, stops_on_ci_failure (f a w)) ->
  forall w, stops_on_ci_failure (bind m f w).
Proof.
  intros Hm Hf w. destruct (Hm w Logic.I) as (_ & Hq & _).
  assert (Hnp : Forall (fun e => is_poll e = false) (trace_of (m w))).
  { eapply Forall_impl; [exact Hq|]. by intros e [? ?]. }
  assert (Hng : Forall (fun e => is_after_gate e = false) (trace_of (m w))).
  { eapply Forall_impl; [exact Hq|]. by intros e [? ?]. }
  rewrite bind_eq.
  destruct (result_of (m w)) as [a|e|]; [|by apply stops_no_poll..].
  intros e Hin Hfail. cbn in Hin.
  apply in_app_iff in Hin as [Hin|Hin]; [destruct (no_poll_in _ _ Hnp Hin Hfail)|].
  destruct (Hf a _ e Hin Hfail) as (Hr & [t Ht] & Hg).
  cbn. split; [done|]. split.
  - exists (trace_of (m w) ++ t). rewrite Ht. by rewrite (assoc_L (++)).
  - by apply Forall_app.
Qed.

Lemma stops_bind_gate {A B} (m : M W A) (f : A -> M W B) :
  (forall w, stops_on_ci_failure (m w)) ->
  (forall a w, Forall (fun e => is_poll e = false) (trace_of (f a w))) ->
  forall w, stops_on_ci_failure (bind m f w).
Proof.
  intros Hm Hf w e. rewrite bind_eq.
  destruct (result_of (m w)) as [a|err|] eqn:Er; cbn; intros Hin Hfail.
  - apply in_app_iff in Hin as [Hin|Hin].
    + destruct (Hm w e Hin Hfail) as (Hr & _). congruence.
    + destruct (no_poll_in _ _ (Hf a _) Hin Hfail).
  - destruct (Hm w e Hin Hfail) as (Hr & Ht & Hg).
    rewrite Er in Hr. injection Hr as ->. done.
  - destruct (Hm w e Hin Hfail) as (Hr & _). congruence.
Qed.

Lemma monitor_poll_failed_poll commit (w : W) e :
  In e (trace_of (monitor_poll commit w)) -> failed_poll e = true ->
  monitor_poll commit w =
  ([e], Raise (ScriptError "CI failure detected"), world_of (monitor_poll commit w)).
Proof.
  unfold monitor_poll. rewrite bind_eq, perform_eq.
  destruct (handle (Commit_get_combined_status commit) w) as [[st|err|] w'];
    cbn [fst snd]; run_simpl;
    [|intros [<-|[]]; discriminate..].
  destruct (String.eqb (cs_state st) "pending") eqn:Hp.
  - intros Hin Hf. exfalso.
    rewrite bind_eq, tally_pure in Hin. cbn in Hin.
    destruct (result_of (tally (cs_statuses st) summary0 w')); cbn in Hin.
    2,3: destruct Hin as [<-|[]]; cbn in Hf; rewrite Hp in Hf; discriminate Hf.
    rewrite bind_eq, format_summary_pure in Hin. cbn in Hin.
    destruct (result_of (format_summary _ w')); cbn in Hin.
    2,3: destruct Hin as [<-|[]]; cbn in Hf; rewrite Hp in Hf; discriminate Hf.
    destruct (Nat.eqb (cs_total_count st) 0); cbn in Hin;
      repeat (destruct Hin as [<-|Hin];
              [cbn in Hf; rewrite ?Hp in Hf; discriminate Hf|]);
      destruct Hin.
  - destruct (String.eqb (cs_state st) "success") eqn:Hs; run_simpl.
    + rewrite bind_eq. run_simpl. intros Hin Hf. exfalso.
      repeat (destruct Hin as [<-|Hin];
              [cbn in Hf; rewrite ?Hp, ?Hs in Hf; discriminate Hf|]);
      destruct Hin.
    + intros [<-|[]] _. reflexivity.
Qed.

Lemma monitor_poll_before_later commit (w : W) :
  Forall (fun e => is_after_gate e = false) (trace_of (monitor_poll commit w)).
Proof.
  destruct (monitor_poll_shape commit w) as (r & tail & -> & Hl & _).
  constructor; [done|]. eapply Forall_impl; [exact Hl|]. by intros [].
Qed.

Lemma monitor_loop_stops fuel commit (w : W) :
  stops_on_ci_failure (monitor_loop fuel commit w).
Proof.
  revert w. induction fuel as [|fuel IH]; intros w; cbn [monitor_loop].
  - by intros e [].
  - intros e. rewrite bind_eq.
    pose proof (monitor_poll_before_later commit w) as Hg.
    destruct (result_of (monitor_poll commit w)) as [[b|]|err|] eqn:Er; cbn;
      intros Hin Hfail.
    + rewrite app_nil_r in Hin.
      rewrite (monitor_poll_failed_poll commit w e Hin Hfail) in Er. discriminate Er.
    + apply in_app_iff in Hin as [Hin|Hin].
      * rewrite (monitor_poll_failed_poll commit w e Hin Hfail) in Er. discriminate Er.
      * destruct (IH _ e Hin Hfail) as (Hr & [t Ht] & Hl).
        split; [done|]. split; [|by apply Forall_app].
        exists (trace_of (monitor_poll commit w) ++ t). rewrite Ht.
        by rewrite (assoc_L (++)).
    + pose proof (monitor_poll_failed_poll commit w e Hin Hfail) as E.
      rewrite E in Er. cbn in Er. injection Er as <-.
      split; [done|]. split; [|done]. exists []. by rewrite E.
    + rewrite (monitor_poll_failed_poll commit w e Hin Hfail) in Er. discriminate Er.
Qed.

Lemma monitor_pr_status_stops fuel pr (w : W) :
  stops_on_ci_failure (monitor_pr_status fuel pr w).
Proof.
  revert w. unfold monitor_pr_status.
  do 3 (apply stops_bind_quiet; [walk_with fail|intros ?]).
  apply monitor_loop_stops.
Qed.

Variables BINTRAY_ORG NAME REPO_ROOT script_dir argv0 : string.
Variable branch_name : string -> string.

Lemma fp_bump_before_gate c :
  fp_create_bump_commit c = true -> call_ok (W:=W) Itrue before_gate c.
Proof. revert c. solve_call_ok; by split. Qed.

Lemma fp_draft_no_poll c :
  fp_create_release_draft c = true -> call_ok (W:=W) Itrue (fun e => is_poll e = false) c.
Proof. revert c. solve_call_ok. Qed.

Lemma fp_images_no_poll c :
  fp_build_images c = true -> call_ok (W:=W) Itrue (fun e => is_poll e = false) c.
Proof. revert c. solve_call_ok. Qed.

Lemma start_try_stops fuel args (w : W) :
  stops_on_ci_failure (start_try BINTRAY_ORG NAME REPO_ROOT script_dir fuel args w).
Proof.
  revert w. unfold start_try, create_initial_branch.
  do 4 (apply stops_bind_quiet; [walk_with ltac:(apply fp_bump_before_gate)|intros ?]).
  apply stops_bind_gate; [apply monitor_pr_status_stops|].
  intros _ w.
  match goal with |- Forall _ (trace_of (?m w)) => apply (triple_trace _ m w) end.
  walk_with ltac:(first [apply fp_draft_no_poll | apply fp_images_no_poll]).
Qed.

Lemma resume_try_stops fuel args (w : W) :
  stops_on_ci_failure
    (resume_try BINTRAY_ORG NAME REPO_ROOT script_dir branch_name fuel args w).
Proof.
  revert w. unfold resume_try.
  do 8 (apply stops_bind_quiet; [walk_with ltac:(apply fp_bump_before_gate)|intros ?]).
  apply stops_bind_gate; [apply monitor_pr_status_stops|].
  intros _ w.
  match goal with |- Forall _ (trace_of (?m w)) => apply (triple_trace _ m w) end.
  walk_with ltac:(first [apply fp_draft_no_poll | apply fp_images_no_poll]).
Qed.

(** What a [try] suite that stops on a failed poll gives its action. *)
Lemma stops_in_action (suite : list event * outcome unit * W)
    (act : list event * outcome Z * W) (final : list event) e :
  stops_on_ci_failure suite ->
  act = match result_of suite with
        | Ret _ => (trace_of suite ++ final, Ret 0%Z, world_of suite)
        | Raise (ScriptError msg) =>
            (trace_of suite ++ [EvPrint msg], Ret 1%Z, world_of suite)
        | Raise err => (trace_of suite, Raise err, world_of suite)
        | Diverge => (trace_of suite, Diverge, world_of suite)
        end ->
  Forall (fun e => is_local e = true) final ->
  In e (trace_of act) -> failed_poll e = true ->
  result_of act = Ret 1%Z /\
  (exists t, trace_of act = t ++ [e; EvPrint "CI failure detected"]) /\
  Forall (fun e => is_after_gate e = false) (trace_of act).
Proof.
  intros Hs -> Hfinal Hin Hf.
  assert (Hl : is_local e = false) by (destruct e; done).
  assert (Hin' : In e (trace_of suite)).
  { destruct (result_of suite) as [[]|[]|]; cbn in Hin; try done;
      eapply in_app_local; try exact Hin; try done; by repeat constructor. }
  destruct (Hs e Hin' Hf) as (Hr & [t Ht] & Hg).
  rewrite Hr. cbn. split; [done|]. split.
  - exists t. rewrite Ht. by rewrite <- (assoc_L (++)).
  - apply Forall_app. split; [done|]. by repeat constructor.
Qed.

(** X17. A status check answered with an aggregate state that is neither
    pending nor success ends [start] and [resume]: the action prints "CI
    failure detected" right after that answer and returns 1, and no step
    that follows the gate has run: nothing was downloaded, no release
    looked up or created, no asset deleted or uploaded, no image built. *)
Theorem ci_failure_stops_the_release fuel args (w : W) e :
  failed_poll e = true ->
  (In e (trace_of (start BINTRAY_ORG NAME REPO_ROOT script_dir argv0 fuel args w)) ->
   result_of (start BINTRAY_ORG NAME REPO_ROOT script_dir argv0 fuel args w) = Ret 1%Z /\
   (exists t, trace_of (start BINTRAY_ORG NAME REPO_ROOT script_dir argv0 fuel args w)
              = t ++ [e; EvPrint "CI failure detected"]) /\
   Forall (fun e => is_after_gate e = false)
          (trace_of (start BINTRAY_ORG NAME REPO_ROOT script_dir argv0 fuel args w))) /\
  (In e (trace_of (resume BINTRAY_ORG NAME REPO_ROOT script_dir argv0 branch_name
                          fuel args w)) ->
   result_of (resume BINTRAY_ORG NAME REPO_ROOT script_dir argv0 branch_name fuel args w)
   = Ret 1%Z /\
   (exists t, trace_of (resume BINTRAY_ORG NAME REPO_ROOT script_dir argv0 branch_name
                               fuel args w)
              = t ++ [e; EvPrint "CI failure detected"]) /\
   Forall (fun e => is_after_gate e = false)
          (trace_of (resume BINTRAY_ORG NAME REPO_ROOT script_dir argv0 branch_name
                            fuel args w))).
Proof.
  intros Hf. split; intros Hin.
  - eapply (stops_in_action _ _ (trace_of (print_final_instructions (W:=W) argv0 args w))
                             e (start_try_stops fuel args w)); try done.
    + rewrite start_eq. reflexivity.
    + by repeat constructor.
  - eapply (stops_in_action _ _ (trace_of (print_final_instructions (W:=W) argv0 args w))
                             e (resume_try_stops fuel args w)); try done.
    + rewrite resume_eq. reflexivity.
    + by repeat constructor.
Qed.

End GateStops.

(** ** The gate raises as soon as a check has failed *)

Section GateFailure.
Context {W : Type} `{Collaborators W}.



End GateFailure.

(** ** What [resume] creates *)

Section ResumeCreates.
Context {W : Type} `{Collaborators W}.
Variables BINTRAY_ORG NAME REPO_ROOT script_dir argv0 : string.
Variable branch_name : string -> string.

Lemma fp_bump_no_pr c :
  fp_create_bump_commit c = true ->
  call_ok (W:=W) Itrue (fun e => is_create_pr e = false) c.
Proof. revert c. solve_call_ok. Qed.

Lemma fp_monitor_no_pr c :
  fp_monitor_pr_status c = true ->
  call_ok (W:=W) Itrue (fun e => is_create_pr e = false) c.
Proof. revert c. solve_call_ok. Qed.

Lemma fp_monitor_no_release c :
  fp_monitor_pr_status c = true ->
  call_ok (W:=W) Itrue (fun e => is_create_release e = false) c.
Proof. revert c. solve_call_ok. Qed.

Lemma fp_draft_no_pr c :
  fp_create_release_draft c = true ->
  call_ok (W:=W) Itrue (fun e => is_create_pr e = false) c.
Proof. revert c. solve_call_ok. Qed.

Lemma fp_images_no_pr c :
  fp_build_images c = true ->
  call_ok (W:=W) Itrue (fun e => is_create_pr e = false) c.
Proof. revert c. solve_call_ok. Qed.

Lemma fp_bump_no_release c :
  fp_create_bump_commit c = true ->
  call_ok (W:=W) Itrue (fun e => is_create_release e = false) c.
Proof. revert c. solve_call_ok. Qed.

Lemma fp_images_no_release c :
  fp_build_images c = true ->
  call_ok (W:=W) Itrue (fun e => is_create_release e = false) c.
Proof. revert c. solve_call_ok. Qed.

Ltac no_pr_walk :=
  walk_with ltac:(first [apply fp_bump_no_pr | apply fp_monitor_no_pr
                        | apply fp_draft_no_pr | apply fp_images_no_pr]).

Ltac no_release_walk :=
  walk_with ltac:(first [apply fp_bump_no_release | apply fp_monitor_no_release
                        | apply fp_images_no_release]).

Ltac trace_by walk :=
  match goal with
  | |- Forall _ (trace_of (?m ?w)) => apply (triple_trace _ m w); walk
  end.

Lemma resume_try_pr fuel args (w : W) :
  preceded_by is_create_pr (after_failed_pr_lookup (release args))
    (trace_of (resume_try BINTRAY_ORG NAME REPO_ROOT script_dir branch_name fuel args w)).
Proof.
  revert w. unfold resume_try.
  do 5 (apply preceded_bind; [no_pr_walk|intros ?]).
  intros w. rewrite bind_eq, perform_eq.
  destruct (handle (Repo_find_release_pr (release args)) w) as [[[pr|]|err|] w1];
    cbn [fst snd]; run_simpl;
    [| |apply preceded_quiet; by repeat constructor..].
  - change (EvCall ?c ?r :: ?t) with ([EvCall c r] ++ t).
    apply preceded_quiet. apply Forall_app. split; [by repeat constructor|].
    trace_by no_pr_walk.
  - rewrite bind_eq, perform_eq.
    destruct (handle (Repo_create_release_pull_request (release args)) w1)
      as [r w2]; cbn [fst snd].
    assert (Hreq : after_failed_pr_lookup (release args)
                     (EvCall (Repo_find_release_pr (release args)) (Ret None))
                     (EvCall (Repo_create_release_pull_request (release args)) r))
      by by exists r.
    destruct r as [pr|e|]; run_simpl; apply preceded_pair; try done;
      try constructor.
    trace_by no_pr_walk.
Qed.

Lemma only_with_quiet {A} trig ev (x : list event * outcome A * W) :
  Forall (fun e => trig e = false) (trace_of x) -> only_with trig ev x.
Proof.
  intros Hq e Hin He. rewrite Forall_forall in Hq.
  specialize (Hq e (proj2 (list_elem_of_In _ _) Hin)). congruence.
Qed.

Lemma only_with_bind {A B} trig ev (m : M W A) (f : A -> M W B) :
  triple Itrue (fun e => trig e = false) m any ->
  (forall a w, only_with trig ev (f a w)) ->
  forall w, only_with trig ev (bind m f w).
Proof.
  intros Hm Hf w. destruct (Hm w Logic.I) as (_ & Hq & _).
  rewrite bind_eq.
  destruct (result_of (m w)) as [a|e|]; [|by apply only_with_quiet..].
  intros e Hin He. cbn in *.
  apply in_app_iff in Hin as [Hin|Hin].
  - rewrite Forall_forall in Hq.
    specialize (Hq e (proj2 (list_elem_of_In _ _) Hin)). congruence.
  - apply in_app_iff. right. by apply (Hf a _ e).
Qed.

Lemma resume_try_release fuel args (w : W) :
  only_with is_create_release (EvCall (Repo_find_release (release args)) (Ret None))
    (resume_try BINTRAY_ORG NAME REPO_ROOT script_dir branch_name fuel args w).
Proof.
  revert w. unfold resume_try.
  do 11 (apply only_with_bind; [no_release_walk|intros ?]).
  intros w. rewrite bind_eq, perform_eq.
  destruct (handle (Repo_find_release (release args)) w) as [[[r|]|err|] w1];
    cbn [fst snd]; run_simpl;
    [| |apply only_with_quiet; by repeat constructor..].
  - apply only_with_quiet. cbn [trace_of fst].
    change (EvCall ?c ?r :: ?t) with ([EvCall c r] ++ t).
    apply Forall_app. split; [by repeat constructor|].
    trace_by no_release_walk.
  - intros e _ _. by left.
Qed.

(** X18. [resume] creates only what is missing. In its trace a call that
    creates the release pull request comes directly after a lookup of the
    pull request of this version that found none, and a release is created
    only in a run whose lookup of the release of this version found
    none. *)
Theorem resume_creates_only_what_is_missing fuel args (w : W) :
  preceded_by is_create_pr (after_failed_pr_lookup (release args))
    (trace_of (resume BINTRAY_ORG NAME REPO_ROOT script_dir argv0 branch_name
                      fuel args w)) /\
  only_with is_create_release (EvCall (Repo_find_release (release args)) (Ret None))
    (resume BINTRAY_ORG NAME REPO_ROOT script_dir argv0 branch_name fuel args w).
Proof.
  pose proof (resume_try_pr fuel args w) as Hpr.
  pose proof (resume_try_release fuel args w) as Hrel.
  rewrite resume_eq. split.
  - destruct (result_of (resume_try _ _ _ _ _ _ _ w)) as [[]|[]|]; cbn; try done;
      apply preceded_app_r; try done; by repeat constructor.
  - intros e Hin He.
    assert (Hin' : In e (trace_of (resume_try BINTRAY_ORG NAME REPO_ROOT script_dir
                                              branch_name fuel args w))).
    { assert (Hl : is_local e = false) by (by destruct e).
      destruct (result_of (resume_try _ _ _ _ _ _ _ w)) as [[]|[]|]; cbn in Hin;
        try done; eapply in_app_local; try exact Hin; try done;
        by repeat constructor. }
    specialize (Hrel e Hin' He).
    destruct (result_of (resume_try _ _ _ _ _ _ _ w)) as [[]|[]|]; cbn; try done;
      apply in_app_iff; by left.
Qed.

End ResumeCreates.

(** ** The theorems at work on sample runs *)

Section Witnesses.
Import Sim Samples.

Lemma resume_deletes_assets_before_upload_witness :
  uploads_follow_delete (trace_of (run_resume 5 the_resume branched)) /\
  existsb is_upload (trace_of (run_resume 5 the_resume branched)) = true.
Proof.
  split; [|vm_compute; reflexivity].
  apply (resume_deletes_assets_before_upload
           "docker" "docker/compose" "/src" "/src/script/release" "release.py"
           Sim.branch_name 5 the_resume branched).
Defined.

Lemma resume_without_branch_witness :
  run_resume 5 the_resume fresh =
  ([EvCall (Repository "/src" "docker/compose") (Ret tt);
    EvCall (Repo_branch_exists "bump-1.21.1") (Ret false);
    EvPrint "No local branch exists for this release."],
   Ret 1%Z, fresh).
Proof.
  exact (resume_without_branch
           "docker" "docker/compose" "/src" "/src/script/release" "release.py"
           Sim.branch_name 5 the_resume fresh eq_refl eq_refl).
Defined.

Lemma cancel_steps_witness :
  cancel (W:=World) "docker/compose" "/src" the_cancel resumed =
  ([EvCall (Repository "/src" "docker/compose") (Ret tt);
    EvCall (Repo_close_release_pr "1.21.1") (Ret tt);
    EvCall (Repo_remove_release "1.21.1") (Ret tt);
    EvCall (Repo_remove_bump_branch "1.21.1") (Ret tt);
    EvPrint "Release cancellation complete."],
   Ret 0%Z,
   after [Repository "/src" "docker/compose"; Repo_close_release_pr "1.21.1";
          Repo_remove_release "1.21.1"; Repo_remove_bump_branch "1.21.1"] resumed) /\
  (find_pr "1.21.1" (prs (w_host resumed)) = Some the_pr /\
   find_pr "1.21.1" (prs (w_host (world_of (run_cancel the_cancel resumed)))) = None) /\
  (has "bump-1.21.1" (branches (w_repo resumed)) = true /\
   has "bump-1.21.1" (branches (w_repo (world_of (run_cancel the_cancel resumed)))) = false) /\
  find_rel "1.21.1" (releases (w_host (world_of (run_cancel the_cancel resumed)))) = None /\
  w_bintray (world_of (run_cancel the_cancel resumed)) = w_bintray resumed.
Proof.
  split; [|vm_compute; by repeat split].
  refine (proj2 (cancel_steps "docker/compose" "/src" the_cancel resumed) _ _ _ _);
    vm_compute; reflexivity.
Defined.

Lemma actions_exit_codes_witness :
  result_of (run_resume 5 the_resume branched) = Ret 0%Z /\
  result_of (run_resume 5 the_resume fresh) = Ret 1%Z /\
  run_finalize the_finalize fresh = ([], Raise NotImplementedError, fresh).
Proof.
  destruct (actions_exit_codes
              "docker" "docker/compose" "/src" "/src/script/release" "release.py"
              Sim.branch_name 5 the_resume branched) as (_ & (H0 & _) & _ & _).
  destruct (actions_exit_codes
              "docker" "docker/compose" "/src" "/src/script/release" "release.py"
              Sim.branch_name 5 the_resume fresh) as (_ & (_ & H1 & _) & _ & _).
  destruct (actions_exit_codes
              "docker" "docker/compose" "/src" "/src/script/release" "release.py"
              Sim.branch_name 5 the_finalize fresh) as (_ & _ & _ & Hf).
  split; [apply H0; exists tt; vm_compute; reflexivity|].
  split; [apply H1; eexists; vm_compute; reflexivity|].
  exact Hf.
Defined.

(** C1, as stated, fails for [finalize]: it reports no failing outcome,
    the exception escapes. *)
Lemma finalize_escapes :
  result_of (run_finalize the_finalize fresh) = Raise NotImplementedError /\
  result_of (run_finalize the_finalize fresh) <> Ret 1%Z.
Proof. split; [reflexivity|discriminate]. Qed.

Lemma only_ScriptError_is_caught_witness :
  result_of (run_resume 5 the_resume silent) = Raise (OtherError "EOFError") /\
  result_of (run_finalize the_finalize fresh) = Raise NotImplementedError.
Proof.
  destruct (only_ScriptError_is_caught
              "docker" "docker/compose" "/src" "/src/script/release" "release.py"
              Sim.branch_name 5 the_resume silent (OtherError "EOFError") eq_refl)
    as (_ & Hres & _ & _ & _ & Hfin).
  split; [|exact Hfin].
  unfold propagates in Hres. unfold run_resume. rewrite Hres; [reflexivity|].
  vm_compute. reflexivity.
Defined.

Lemma release_draft_prerelease_flag_witness :
  exists r notes,
    result_of rc_draft = Ret r /\
    In (EvCall (Repo_create_release "1.9.0-rc1" notes true true "release") (Ret r))
       (trace_of rc_draft).
Proof.
  assert (E : exists r, result_of rc_draft = Ret r).
  { vm_compute. eexists. reflexivity. }
  destruct E as [r E].
  destruct (proj2 (release_draft_prerelease_flag "/src/script/release" "1.9.0-rc1"
                     the_pr artifacts fresh) r E) as [notes Hin].
  exists r, notes. split; [exact E|exact Hin].
Defined.

Lemma ci_gate_success_witness :
  (exists line,
     monitor_loop 1 last_commit no_ci =
     ([EvCall (Commit_get_combined_status last_commit) (Ret (combined_of []));
       EvPrint line],
      Ret true, no_ci)) /\
  (exists t commit st line,
     trace_of (monitor_pr_status 1 the_pr branched) =
     t ++ [EvCall (Commit_get_combined_status commit) (Ret st); EvPrint line] /\
     (cs_total_count st = 0 \/ cs_state st = "success") /\
     (follows_aggregate st -> Forall (fun d => st_state d = "success") (cs_statuses st))).
Proof.
  destruct (ci_gate_success (W:=World) 0) as [Hzero _].
  destruct (ci_gate_success (W:=World) 1) as [_ Hret].
  split.
  - apply (Hzero last_commit no_ci (combined_of []) no_ci); [reflexivity|].
    repeat split. by right.
  - destruct (Hret the_pr branched true) as [_ Hlast]; [vm_compute; reflexivity|].
    exact Hlast.
Defined.

Lemma resume_asks_before_touching_public_release_witness :
  result_of (run_resume 5 the_resume published) = Ret 1%Z /\
  Forall keeps_assets (trace_of (run_resume 5 the_resume published)).
Proof.
  destruct (resume_asks_before_touching_public_release
              "docker" "docker/compose" "/src" "/src/script/release" "release.py"
              Sim.branch_name 5 the_resume published public_release) as [Hno _].
  - vm_compute. repeat (first [left; reflexivity | right]).
  - reflexivity.
  - destruct (Hno "n") as (Hr & _ & Hk).
    + vm_compute. repeat (first [left; reflexivity | right]).
    + discriminate.
    + exact (conj Hr Hk).
Defined.


Lemma resume_twice_witness :
  result_of (run_resume 5 the_resume attended) = Ret 0%Z /\
  result_of (run_resume 5 the_resume resumed_once) = Ret 0%Z /\
  In (EvCall Repo_diff (Ret "")) (trace_of (run_resume 5 the_resume resumed_once)) /\
  In (EvCall (Repo_find_release_pr "1.21.1") (Ret (Some the_pr)))
     (trace_of (run_resume 5 the_resume resumed_once)) /\
  (exists r, In (EvCall (Repo_find_release "1.21.1") (Ret (Some r)))
                (trace_of (run_resume 5 the_resume resumed_once))) /\
  Forall no_creation (trace_of (run_resume 5 the_resume resumed_once)) /\
  w_repo (world_of (run_resume 5 the_resume resumed_once)) = w_repo resumed_once /\
  w_host (world_of (run_resume 5 the_resume resumed_once)) = w_host resumed_once.
Proof.
  assert (Hdone : result_of (run_resume 5 the_resume attended) = Ret 0%Z).
  { vm_compute. reflexivity. }
  split; [exact Hdone|].
  split; [vm_compute; reflexivity|].
  split; [vm_compute; repeat (first [left; reflexivity | right])|].
  split; [vm_compute; repeat (first [left; reflexivity | right])|].
  split; [eexists; vm_compute; repeat (first [left; reflexivity | right])|].
  destruct (resume_twice
              "docker" "docker/compose" "/src" "/src/script/release" "release.py"
              5 5 the_resume attended Hdone) as (_ & _ & Hq & Hr & Hh).
  exact (conj Hq (conj Hr Hh)).
Defined.

End Witnesses.

(** ** More sample runs *)

Section MoreWitnesses.
Import Sim Samples.

Ltac find_event := vm_compute; repeat first [left; reflexivity | right].

Lemma main_requires_tokens_witness :
  run_main 5 no_tokens =
  ([EvCall (os_environ_has "GITHUB_TOKEN") (Ret false);
    EvPrint "GITHUB_TOKEN environment variable must be set"],
   Ret 1%Z, no_tokens) /\
  run_main 5 github_only =
  ([EvCall (os_environ_has "GITHUB_TOKEN") (Ret true);
    EvCall (os_environ_has "BINTRAY_TOKEN") (Ret false);
    EvPrint "BINTRAY_TOKEN environment variable must be set"],
   Ret 1%Z, github_only).
Proof.
  split.
  - exact (proj1 (main_requires_tokens
                    "docker" "docker/compose" "/src" "/src/script/release" "release.py"
                    Sim.branch_name 5 no_tokens) eq_refl).
  - exact (proj2 (main_requires_tokens
                    "docker" "docker/compose" "/src" "/src/script/release" "release.py"
                    Sim.branch_name 5 github_only) eq_refl eq_refl).
Defined.

Lemma main_dispatch_witness :
  run_main 5 (invoked the_resume branched) =
  prepend [EvCall (os_environ_has "GITHUB_TOKEN") (Ret true);
           EvCall (os_environ_has "BINTRAY_TOKEN") (Ret true);
           EvCall parse_args (Ret the_resume)]
    (run_resume 5 the_resume (invoked the_resume branched)) /\
  run_main 5 (invoked the_publish fresh) =
  ([EvCall (os_environ_has "GITHUB_TOKEN") (Ret true);
    EvCall (os_environ_has "BINTRAY_TOKEN") (Ret true);
    EvCall parse_args (Ret the_publish);
    EvPrintErr ("Unexpected action " +:+ String (ascii_of_nat 34) "publish"
                +:+ String (ascii_of_nat 34) "")],
   Ret 1%Z, invoked the_publish fresh).
Proof.
  split.
  - exact (main_dispatch
             "docker" "docker/compose" "/src" "/src/script/release" "release.py"
             Sim.branch_name 5 (invoked the_resume branched) _ _ _ the_resume
             eq_refl eq_refl eq_refl).
  - exact (main_dispatch
             "docker" "docker/compose" "/src" "/src/script/release" "release.py"
             Sim.branch_name 5 (invoked the_publish fresh) _ _ _ the_publish
             eq_refl eq_refl eq_refl).
Defined.

Lemma main_exit_codes_witness :
  result_of (run_main 5 (invoked the_resume branched)) = Ret 0%Z /\
  result_of (run_main 5 (invoked the_resume ci_failed)) = Ret 1%Z /\
  (0 = 0 \/ 0 = 1)%Z.
Proof.
  split; [vm_compute; reflexivity|]. split; [vm_compute; reflexivity|].
  apply (main_exit_codes
           "docker" "docker/compose" "/src" "/src/script/release" "release.py"
           Sim.branch_name 5 (invoked the_resume branched) 0%Z).
  vm_compute. reflexivity.
Defined.

Lemma build_log_run_witness :
  build_log [step_1; step_2] fresh =
  ([EvPrintNoEnd "Step 1/2 : FROM alpine"; EvPrintNoEnd "Step 2/2 : COPY dist /"],
   Ret tt, fresh) /\
  build_log [step_1; disk_full; finished] fresh =
  ([EvPrintNoEnd "Step 1/2 : FROM alpine"],
   Raise (ScriptError "Build error: no space left on device"), fresh).
Proof.
  split.
  - refine (proj1 (build_log_run [step_1; step_2] fresh _)).
    repeat (constructor; [vm_compute; reflexivity|]). constructor.
  - refine (proj2 (build_log_run [step_1] fresh _) disk_full _ [finished] eq_refl).
    repeat (constructor; [vm_compute; reflexivity|]). constructor.
Defined.

Lemma build_images_needs_linux_binary_witness :
  build_images "/src" darwin_only "1.21.1" fresh =
  ([EvPrint "Building release images...";
    EvCall Repo_write_git_sha (Ret tt);
    EvCall docker_APIClient (Ret tt);
    EvCall (os_makedirs "/src/dist" true) (Ret tt)],
   Raise (KeyError "docker-compose-Linux-x86_64"), fresh) /\
  build_images "/src" linux_missing "1.21.1" fresh =
  ([EvPrint "Building release images...";
    EvCall Repo_write_git_sha (Ret tt);
    EvCall docker_APIClient (Ret tt);
    EvCall (os_makedirs "/src/dist" true) (Ret tt)],
   Raise IndexError, fresh).
Proof.
  split.
  - exact (proj1 (build_images_needs_linux_binary "/src" darwin_only "1.21.1"
                    fresh fresh fresh fresh eq_refl eq_refl eq_refl) eq_refl).
  - exact (proj2 (build_images_needs_linux_binary "/src" linux_missing "1.21.1"
                    fresh fresh fresh fresh eq_refl eq_refl eq_refl) eq_refl).
Defined.

Lemma build_images_stops_at_build_error_witness :
  build_images "/src" artifacts "1.21.1" broken_build =
  ([EvPrint "Building release images...";
    EvCall Repo_write_git_sha (Ret tt);
    EvCall docker_APIClient (Ret tt);
    EvCall (os_makedirs "/src/dist" true) (Ret tt);
    EvCall (shutil_copy "binaries/docker-compose-Linux-x86_64" "/src/dist") (Ret tt);
    EvPrint "Building docker/compose image";
    EvCall (Docker_build "/src" "docker/compose:1.21.1" (Some "Dockerfile.run"))
           (Ret [step_1; disk_full; finished]);
    EvPrintNoEnd "Step 1/2 : FROM alpine"],
   Raise (ScriptError "Build error: no space left on device"),
   with_images ["docker/compose:1.21.1"] broken_build).
Proof.
  refine (build_images_stops_at_build_error "/src" artifacts "1.21.1"
            broken_build broken_build broken_build broken_build broken_build
            (with_images ["docker/compose:1.21.1"] broken_build)
            ["binaries/docker-compose-Linux-x86_64.sha256"]
            "binaries/docker-compose-Linux-x86_64"
            [step_1] disk_full "no space left on device" [finished]
            eq_refl eq_refl eq_refl eq_refl eq_refl eq_refl _ eq_refl).
  repeat (constructor; [vm_compute; reflexivity|]). constructor.
Defined.

Lemma monitor_poll_tally_witness :
  monitor_poll last_commit ci_mixed =
  ([EvCall (Commit_get_combined_status last_commit) (Ret (combined_of mixed_checks));
    EvPrint "1 pending, 0 successes, 1 failures"; EvSleep 30],
   Ret None, ci_mixed).
Proof.
  refine (monitor_poll_tally last_commit ci_mixed (combined_of mixed_checks) ci_mixed
            eq_refl eq_refl _).
  repeat (constructor; [vm_compute; tauto|]). constructor.
Defined.

Lemma monitor_poll_unknown_state_witness :
  monitor_poll last_commit ci_errored =
  ([EvCall (Commit_get_combined_status last_commit) (Ret (combined_of errored_checks))],
   Raise (KeyError "error"), ci_errored).
Proof.
  refine (monitor_poll_unknown_state last_commit ci_errored (combined_of errored_checks)
            ci_errored [check "ci/a" "success"] (check "ci/b" "error")
            [check "ci/c" "pending"] eq_refl eq_refl eq_refl _ _).
  - repeat (constructor; [vm_compute; tauto|]). constructor.
  - intros [E|[E|E]]; discriminate E.
Defined.

Lemma monitor_loop_sleeps_witness :
  count_events is_poll (trace_of (monitor_loop 5 last_commit ci_slow)) = 3 /\
  count_events is_sleep (trace_of (monitor_loop 5 last_commit ci_slow)) = 2 /\
  Forall (fun e => is_sleep e = true -> e = EvSleep 30)
         (trace_of (monitor_loop 5 last_commit ci_slow)).
Proof.
  assert (Hr : result_of (monitor_loop 5 last_commit ci_slow) <> Diverge)
    by (vm_compute; discriminate).
  destruct (monitor_loop_sleeps 5 last_commit ci_slow Hr) as [Hcount Hsleep].
  split; [vm_compute; reflexivity|]. split; [vm_compute; reflexivity|].
  exact Hsleep.
Defined.

Lemma monitor_pr_status_polls_last_commit_witness :
  monitor_pr_status 5 the_pr no_commits =
  ([EvPrint "Waiting for CI to complete..."; EvCall (PR_get_commits the_pr) (Ret [])],
   Raise IndexError, no_commits) /\
  (forall e c,
     In e (trace_of (monitor_pr_status 5 the_pr fresh)) ->
     call_of e = Some (Commit_get_combined_status c) -> Some last_commit = Some c).
Proof.
  split.
  - exact (proj1 (monitor_pr_status_polls_last_commit 5 the_pr no_commits [] no_commits
                    eq_refl) eq_refl).
  - exact (proj2 (monitor_pr_status_polls_last_commit 5 the_pr fresh [last_commit] fresh
                    eq_refl)).
Defined.

Lemma confirm_changes_returns_witness :
  result_of (confirm_changes 5 "" hesitant) = Ret tt /\
  exists rejected d s,
    trace_of (confirm_changes 5 "" hesitant)
    = flat_map (fun x => turn x.1 x.2) rejected ++ turn d s /\
    Forall (fun x => ~ approves x.2) rejected /\ approves s.
Proof.
  split; [vm_compute; reflexivity|].
  apply (confirm_changes_returns 5 hesitant). vm_compute. reflexivity.
Defined.

Lemma create_bump_commit_needs_approval_witness :
  exists s,
    In (EvCall (input changes_ok_prompt) (Ret s))
       (trace_of (create_bump_commit "docker" 5 bump_branch "alice" branched)) /\
    approves s.
Proof.
  apply (create_bump_commit_needs_approval "docker" 5 bump_branch "alice" branched
           (EvCall (Repo_push_branch_to_remote bump_branch) (Ret tt))).
  - find_event.
  - reflexivity.
Defined.

Lemma create_bump_commit_commits_witness :
  In (EvCall (Head_config_get bump_branch "release") (Ret "1.21.1"))
     (trace_of (create_bump_commit "docker" 5 bump_branch "alice" branched)).
Proof.
  apply (proj2 (create_bump_commit_commits "docker" 5 bump_branch "alice" branched)
           (EvCall (Repo_create_bump_commit bump_branch "1.21.1") (Ret tt)) "1.21.1").
  - find_event.
  - reflexivity.
Defined.

Lemma create_release_draft_flow_witness :
  exists source template matrix contributors changelog notes x,
    trace_of rc_draft =
    [EvPrint "Creating Github release draft";
     EvCall (open_read (path_join "/src/script/release" "release.md.tmpl")) (Ret source);
     EvCall (Template source) (Ret template);
     EvPrint "Rendering release notes based on template";
     EvCall compatibility_matrix (Ret matrix);
     EvCall (get_contributors the_pr) (Ret contributors);
     EvCall read_release_notes_from_changelog (Ret changelog);
     EvCall (Template_render template "1.9.0-rc1" matrix artifacts contributors changelog)
            (Ret notes);
     EvCall (Repo_create_release "1.9.0-rc1" notes true (str_in "-rc" "1.9.0-rc1")
                                 "release") x]
    ++ match x with
       | Ret _ => [EvPrint "Release draft initialized"]
       | _ => []
       end.
Proof.
  assert (Hev : exists e, In e (trace_of rc_draft) /\ created_release_args e <> None).
  { vm_compute. eexists. split; [do 8 right; left; reflexivity|discriminate]. }
  destruct Hev as (e & Hin & He).
  exact (create_release_draft_flow "/src/script/release" "1.9.0-rc1" the_pr artifacts
           fresh e Hin He).
Defined.

Lemma cancel_stops_at_first_failure_witness :
  omap call_of (trace_of (run_cancel the_cancel resumed))
  `prefix_of` [Repository "/src" "docker/compose";
               Repo_close_release_pr "1.21.1";
               Repo_remove_release "1.21.1";
               Repo_remove_bump_branch "1.21.1"].
Proof.
  exact (proj1 (cancel_stops_at_first_failure "docker/compose" "/src" the_cancel resumed)).
Defined.

Lemma start_creates_resume_reuses_witness :
  Forall (fun e => is_reuse e = false) (trace_of (run_start 5 the_start fresh)) /\
  Forall (fun e => is_create_branch e = false)
         (trace_of (run_resume 5 the_resume branched)).
Proof.
  split.
  - exact (proj1 (start_creates_resume_reuses
                    "docker" "docker/compose" "/src" "/src/script/release" "release.py"
                    Sim.branch_name 5 the_start fresh)).
  - exact (proj2 (start_creates_resume_reuses
                    "docker" "docker/compose" "/src" "/src/script/release" "release.py"
                    Sim.branch_name 5 the_resume branched)).
Defined.

Lemma ci_failure_stops_the_release_witness :
  (result_of (run_start 5 the_start ci_failed_start) = Ret 1%Z /\
   (exists t, trace_of (run_start 5 the_start ci_failed_start)
              = t ++ [the_failed_poll; EvPrint "CI failure detected"]) /\
   Forall (fun e => is_after_gate e = false)
          (trace_of (run_start 5 the_start ci_failed_start))) /\
  (result_of (run_resume 5 the_resume ci_failed) = Ret 1%Z /\
   (exists t, trace_of (run_resume 5 the_resume ci_failed)
              = t ++ [the_failed_poll; EvPrint "CI failure detected"]) /\
   Forall (fun e => is_after_gate e = false)
          (trace_of (run_resume 5 the_resume ci_failed))).
Proof.
  split.
  - apply (proj1 (ci_failure_stops_the_release
                    "docker" "docker/compose" "/src" "/src/script/release" "release.py"
                    Sim.branch_name 5 the_start ci_failed_start the_failed_poll eq_refl)).
    find_event.
  - apply (proj2 (ci_failure_stops_the_release
                    "docker" "docker/compose" "/src" "/src/script/release" "release.py"
                    Sim.branch_name 5 the_resume ci_failed the_failed_poll eq_refl)).
    find_event.
Defined.

Lemma resume_creates_only_what_is_missing_witness :
  preceded_by is_create_pr (after_failed_pr_lookup "1.21.1")
    (trace_of (run_resume 5 the_resume branched)) /\
  In (EvCall (Repo_find_release "1.21.1") (Ret None))
     (trace_of (run_resume 5 the_resume branched)).
Proof.
  destruct (resume_creates_only_what_is_missing
              "docker" "docker/compose" "/src" "/src/script/release" "release.py"
              Sim.branch_name 5 the_resume branched) as [Hpr Hrel].
  split; [exact Hpr|].
  assert (Hc : exists e, In e (trace_of (run_resume 5 the_resume branched)) /\
                         is_create_release e = true).
  { apply existsb_exists. vm_compute. reflexivity. }
  destruct Hc as (e & Hin & He). exact (Hrel e Hin He).
Defined.

End MoreWitnesses.
